(** * RustChain Arena: the real-time combat economy engine

    A shallow embedding of the three Python modules that make up the
    combat economy, and the properties of them that the specification
    states:

    - [Style]    : rustchain_style_system.py  (style points, ranks, combos)
    - [Blood]    : rustchain_blood_economy.py (shield gain and idle decay)
    - [Attack51] : rustchain_51_attack.py     (control point, settlement)

    Two more modules are embedded for the mechanics of their own:

    - [Weapons]     : rustchain_weapons.py     (weapon bonuses, charges)
    - [Progression] : rustchain_progression.py (the rank ladder)

    Conventions of the embedding.

    - Python [int] is [Z].  Python [float] and [Decimal] are exact
      rationals [Q]: the handlers only add, subtract, multiply, divide,
      compare and clamp, and every statement below is about comparisons
      and clamps.  Equality of such quantities is [Qeq] ([==]).
    - [time.time()] is an explicit argument [now] of every handler that
      reads the clock; one reading per call.
    - Dictionaries keyed by player name are [gmap string _]; Python sets
      of names or weapons are [gset string].
    - A handler mutating [self] becomes a function from the old state to
      the new state, paired with the dictionary it returns. *)

From Stdlib Require Import ZArith QArith String List Lia Lqa.
From stdpp Require Import base gmap strings list fin_maps.

Local Open Scope Z_scope.

(** ** Python built-ins used by the three modules *)

(** [a < b] on floats, as a boolean. *)
Definition Qltb (a b : Q) : bool := negb (Qle_bool b a).

(** [max(a, b)]: the second argument is returned only when it is
    strictly greater. *)
Definition py_max (a b : Q) : Q := if Qltb a b then b else a.

(** [min(a, b)]: the second argument is returned only when it is
    strictly smaller. *)
Definition py_min (a b : Q) : Q := if Qltb b a then b else a.

(** [int(x)] of a float: truncation toward zero. *)
Definition py_int (x : Q) : Z := Z.quot (Qnum x) (Zpos (Qden x)).

(** [sub in s] for strings. *)
Definition str_contains (sub s : string) : bool :=
  match String.index 0 sub s with Some _ => true | None => false end.

(** * rustchain_style_system.py *)
Module Style.

(** [class StyleRank(IntEnum)] *)
Inductive StyleRank :=
  | D_DORMANT | C_CALCULATING | B_BUILDING | A_ATTACKING
  | S_STAKING | SS_SLASHING | SSS_SATOSHI.

#[global] Instance StyleRank_eq_dec : EqDecision StyleRank.
Proof. solve_decision. Defined.

(** The integer value of an enum member. *)
Definition rank_value (r : StyleRank) : Z :=
  match r with
  | D_DORMANT => 0 | C_CALCULATING => 1 | B_BUILDING => 2
  | A_ATTACKING => 3 | S_STAKING => 4 | SS_SLASHING => 5
  | SSS_SATOSHI => 6
  end.

(** [list(StyleRank)]: members in definition order. *)
Definition all_ranks : list StyleRank :=
  [D_DORMANT; C_CALCULATING; B_BUILDING; A_ATTACKING;
   S_STAKING; SS_SLASHING; SSS_SATOSHI].

Record RankCfg := MkRankCfg {
  cfg_name : string;
  cfg_multiplier : Q;
  cfg_threshold : Z;
  cfg_decay_rate : Z;
}.

(** [RANK_CONFIG] (the display colour is left out). *)
Definition RANK_CONFIG (r : StyleRank) : RankCfg :=
  match r with
  | D_DORMANT     => MkRankCfg "DORMANT"     (1 # 1)   0    0
  | C_CALCULATING => MkRankCfg "CALCULATING" (12 # 10) 100  10
  | B_BUILDING    => MkRankCfg "BUILDING"    (15 # 10) 300  15
  | A_ATTACKING   => MkRankCfg "ATTACKING"   (2 # 1)   600  25
  | S_STAKING     => MkRankCfg "STAKING"     (3 # 1)   1000 40
  | SS_SLASHING   => MkRankCfg "SLASHING"    (4 # 1)   1500 60
  | SSS_SATOSHI   => MkRankCfg "SATOSHI"     (5 # 1)   2500 100
  end.

Record ComboDef := MkCombo {
  combo_kills : Z;
  combo_window : Q;
  combo_bonus : Z;
  combo_name : string;
}.

(** [COMBOS], in the order of the dictionary literal. *)
Definition COMBOS : list ComboDef :=
  [ MkCombo 2 (3 # 1) 50  "DOUBLE KILL";
    MkCombo 3 (4 # 1) 150 "TRIPLE KILL";
    MkCombo 4 (5 # 1) 300 "ULTRA KILL";
    MkCombo 5 (6 # 1) 500 "G O D L I K E" ].

(** [sorted(COMBOS.items(), key=lambda x: -x[1]["kills"])]: a stable
    insertion sort on the negated kill count. *)
Fixpoint insert_combo (c : ComboDef) (l : list ComboDef) : list ComboDef :=
  match l with
  | [] => [c]
  | d :: l' =>
      if - combo_kills d <=? - combo_kills c
      then d :: insert_combo c l'
      else c :: l
  end.

Definition sorted_combos (l : list ComboDef) : list ComboDef :=
  fold_left (fun acc c => insert_combo c acc) l [].

Record SpecialKill := MkSpecial {
  sk_bonus : Z;
  sk_name : string;
  sk_rtc_bonus : Q;
}.

(** The entries of [SPECIAL_KILLS] that [process_kill] reads. *)
Definition first_blood : SpecialKill := MkSpecial 200 "FIRST BLOOD" (5 # 1000).
Definition revenge : SpecialKill := MkSpecial 75 "REVENGE" (1 # 1000).
Definition boss_kill_boris : SpecialKill :=
  MkSpecial 150 "BOSS SLAIN: BORIS" (3 # 1000).
Definition boss_kill_sophia : SpecialKill :=
  MkSpecial 150 "BOSS SLAIN: SOPHIA" (3 # 1000).

Definition WEAPON_VARIETY_BONUS : Z := 25.

(** [@dataclass class PlayerStyle] *)
Record PlayerStyle := MkPlayerStyle {
  name : string;
  points : Z;
  rank : StyleRank;
  kills_this_life : Z;
  total_kills : Z;
  deaths : Z;
  last_kill_time : Q;
  recent_kills : list Q;
  weapons_used : gset string;
  last_killer : string;
  total_rtc : Q;
  killstreak : Z;
  best_streak : Z;
}.

Definition new_player (n : string) : PlayerStyle :=
  MkPlayerStyle n 0 D_DORMANT 0 0 0 0%Q [] ∅ "" 0%Q 0 0.

(** The loop shared by [add_points], [decay] and [on_death]:
    [for rank in reversed(list(StyleRank))] stopping at the first rank
    whose threshold the points reach.  [None] is the loop running to its
    end without a [break]. *)
Fixpoint scan_ranks (rs : list StyleRank) (pts : Z) : option StyleRank :=
  match rs with
  | [] => None
  | r :: rs' =>
      if cfg_threshold (RANK_CONFIG r) <=? pts then Some r
      else scan_ranks rs' pts
  end.

Definition rank_scan (pts : Z) : StyleRank :=
  match scan_ranks (rev all_ranks) pts with
  | Some r => r
  | None => D_DORMANT
  end.

(** [PlayerStyle.add_points]: the new state, and [(new_rank, ranked_up)]. *)
Definition add_points (pts : Z) (p : PlayerStyle)
  : PlayerStyle * (StyleRank * bool) :=
  let old_rank := rank p in
  let points' := points p + pts in
  let new_rank := rank_scan points' in
  (MkPlayerStyle (name p) points' new_rank (kills_this_life p)
     (total_kills p) (deaths p) (last_kill_time p) (recent_kills p)
     (weapons_used p) (last_killer p) (total_rtc p) (killstreak p)
     (best_streak p),
   (new_rank, rank_value old_rank <? rank_value new_rank)).

(** [PlayerStyle.decay] *)
Definition decay (delta_time : Q) (p : PlayerStyle) : PlayerStyle :=
  if decide (rank p = D_DORMANT) then p
  else
    let rate := cfg_decay_rate (RANK_CONFIG (rank p)) in
    let points' :=
      Z.max 0 (points p - py_int (inject_Z rate * delta_time)) in
    MkPlayerStyle (name p) points' (rank_scan points') (kills_this_life p)
      (total_kills p) (deaths p) (last_kill_time p) (recent_kills p)
      (weapons_used p) (last_killer p) (total_rtc p) (killstreak p)
      (best_streak p).

(** [PlayerStyle.on_death] *)
Definition on_death (p : PlayerStyle) : PlayerStyle :=
  let points' := points p / 2 in
  MkPlayerStyle (name p) points' (rank_scan points') 0
    (total_kills p) (deaths p) (last_kill_time p) []
    ∅ (last_killer p) (total_rtc p) 0 (best_streak p).

(** [PlayerStyle.get_multiplier] *)
Definition get_multiplier (p : PlayerStyle) : Q :=
  cfg_multiplier (RANK_CONFIG (rank p)).

(** Entries of [result["bonuses"]]: a table name, or one of the two
    formatted strings. *)
Inductive Bonus :=
  | BonusNamed (label : string)
  | BonusVariety (n : Z)                   (* f"VARIETY x{n}" *)
  | BonusStreak (label : string) (n : Z).  (* f"{name} ({killstreak})" *)

(** The dictionary returned by [process_kill]. *)
Record KillResult := MkKillResult {
  r_killer : string;
  r_victim : string;
  r_weapon : string;
  r_base_rtc : Q;
  r_bonus_rtc : Q;
  r_style_points : Z;
  r_bonuses : list Bonus;
  r_combo : option string;
  r_rank_before : StyleRank;
  r_rank_after : StyleRank;
  r_ranked_up : bool;
  r_multiplier : Q;
  r_total_rtc : Q;
}.

(** [class StyleSystem] (the reward database is an external store and
    is not part of the state). *)
Record StyleSystem := MkStyleSystem {
  players : gmap string PlayerStyle;
  first_blood_claimed : bool;
  match_start_time : Q;
  last_update : Q;
}.

(** [StyleSystem.__init__] *)
Definition init (now : Q) : StyleSystem := MkStyleSystem ∅ false now now.

Definition set_players (m : gmap string PlayerStyle) (s : StyleSystem)
  : StyleSystem :=
  MkStyleSystem m (first_blood_claimed s) (match_start_time s) (last_update s).

(** [StyleSystem.get_player]: get or create. *)
Definition get_player (n : string) (s : StyleSystem)
  : StyleSystem * PlayerStyle :=
  match players s !! n with
  | Some p => (s, p)
  | None =>
      let p := new_player n in (set_players (<[n := p]> (players s)) s, p)
  end.

(** The running totals [result["style_points"]], [result["bonus_rtc"]]
    and [result["bonuses"]]. *)
Record Tally := MkTally {
  t_points : Z;
  t_rtc : Q;
  t_bonuses : list Bonus;
}.

Definition add_special (b : SpecialKill) (t : Tally) : Tally :=
  MkTally (t_points t + sk_bonus b) (t_rtc t + sk_rtc_bonus b)
    (t_bonuses t ++ [BonusNamed (sk_name b)]).

(** The first combo, largest kill count first, that the recent kills
    satisfy. *)
Fixpoint first_combo (now : Q) (recent : list Q) (cs : list ComboDef)
  : option ComboDef :=
  match cs with
  | [] => None
  | c :: cs' =>
      let inside :=
        List.filter (fun t => Qltb (now - t) (combo_window c)) recent in
      if combo_kills c <=? Z.of_nat (length inside) then Some c
      else first_combo now recent cs'
  end.

(** The local table [streak_bonuses] of [process_kill]. *)
Definition streak_bonuses (k : Z) : option (string * Z * Q) :=
  if k =? 5 then Some ("KILLING SPREE", 100, (5 # 1000)%Q)
  else if k =? 10 then Some ("RAMPAGE", 250, (1 # 100)%Q)
  else if k =? 15 then Some ("DOMINATING", 400, (15 # 1000)%Q)
  else if k =? 20 then Some ("UNSTOPPABLE", 600, (2 # 100)%Q)
  else if k =? 25 then Some ("GODLIKE", 1000, (25 # 1000)%Q)
  else None.

(** The bonus section of [process_kill], from "First Blood" to the
    killstreak bonuses: the flag, the killer's [last_killer] and weapon
    set, the matched combo and the tally after it. *)
Definition kill_bonuses (now : Q) (victim weapon : string)
    (claimed : bool) (recent : list Q) (lastk : string)
    (weapons : gset string) (streak : Z)
  : string * gset string * option ComboDef * Tally :=
  let t0 := MkTally 100 0%Q [] in
  (* First Blood *)
  let t1 := if claimed then t0 else add_special first_blood t0 in
  (* Revenge Kill *)
  let is_revenge := String.eqb lastk victim in
  let t2 := if is_revenge then add_special revenge t1 else t1 in
  let lastk' := if is_revenge then ""%string else lastk in
  (* Boss Kills *)
  let t3 :=
    if str_contains "Boris" victim then add_special boss_kill_boris t2
    else if str_contains "Sophia" victim then add_special boss_kill_sophia t2
    else t2 in
  (* Weapon Variety *)
  let fresh := negb (bool_decide (weapon ∈ weapons)) in
  let weapons' := if fresh then weapons ∪ {[weapon]} else weapons in
  let n := Z.of_nat (size weapons') in
  let t4 :=
    if fresh && (1 <? n)
    then MkTally (t_points t3 + WEAPON_VARIETY_BONUS * n) (t_rtc t3)
           (t_bonuses t3 ++ [BonusVariety n])
    else t3 in
  (* Combo detection *)
  let combo := first_combo now recent (sorted_combos COMBOS) in
  let t5 :=
    match combo with
    | Some c =>
        MkTally (t_points t4 + combo_bonus c)
          (t_rtc t4 + (1 # 1000) * inject_Z (combo_kills c)) (t_bonuses t4)
    | None => t4
    end in
  (* Killstreak bonuses *)
  let t6 :=
    match streak_bonuses streak with
    | Some (label, pts, rtc) =>
        MkTally (t_points t5 + pts) (t_rtc t5 + rtc)
          (t_bonuses t5 ++ [BonusStreak label streak])
    | None => t5
    end in
  (lastk', weapons', combo, t6).

(** [StyleSystem.process_kill].  The killer's record is written back to
    the registry before the victim's record is read from it, so that a
    call with [killer = victim] works on one shared record, as the two
    Python references to the same object do. *)
Definition process_kill (now : Q) (killer victim weapon : string)
    (s : StyleSystem) : StyleSystem * KillResult :=
  let '(s1, player) := get_player killer s in
  let '(s2, _) := get_player victim s1 in
  let base_rtc := (1 # 1000)%Q in
  let rank_before := rank player in
  (* Track kill timing *)
  let recent :=
    List.filter (fun t => Qltb (now - t) 10) (recent_kills player ++ [now]) in
  let ktl := kills_this_life player + 1 in
  let tk := total_kills player + 1 in
  let streak := killstreak player + 1 in
  let best :=
    if best_streak player <? streak then streak else best_streak player in
  let '(lastk, weapons, combo, tally) :=
    kill_bonuses now victim weapon (first_blood_claimed s2) recent
      (last_killer player) (weapons_used player) streak in
  (* Apply style points *)
  let '(player1, (new_rank, ranked_up)) :=
    add_points (t_points tally)
      (MkPlayerStyle (name player) (points player) (rank player) ktl tk
         (deaths player) now recent weapons lastk (total_rtc player)
         streak best) in
  let multiplier := get_multiplier player1 in
  (* Calculate final RTC *)
  let base := (base_rtc + t_rtc tally)%Q in
  let total := (base * multiplier)%Q in
  let player2 :=
    MkPlayerStyle (name player1) (points player1) (rank player1)
      (kills_this_life player1) (total_kills player1) (deaths player1)
      (last_kill_time player1) (recent_kills player1) (weapons_used player1)
      (last_killer player1) (total_rtc player1 + total)%Q
      (killstreak player1) (best_streak player1) in
  let reg := <[killer := player2]> (players s2) in
  (* Update victim *)
  let victim_player := default (new_player victim) (reg !! victim) in
  let dead :=
    on_death
      (MkPlayerStyle (name victim_player) (points victim_player)
         (rank victim_player) (kills_this_life victim_player)
         (total_kills victim_player) (deaths victim_player)
         (last_kill_time victim_player) (recent_kills victim_player)
         (weapons_used victim_player) killer (total_rtc victim_player)
         (killstreak victim_player) (best_streak victim_player)) in
  let victim' :=
    MkPlayerStyle (name dead) (points dead) (rank dead)
      (kills_this_life dead) (total_kills dead) (deaths dead + 1)
      (last_kill_time dead) (recent_kills dead) (weapons_used dead)
      (last_killer dead) (total_rtc dead) (killstreak dead)
      (best_streak dead) in
  (MkStyleSystem (<[victim := victim']> reg) true
     (match_start_time s2) (last_update s2),
   MkKillResult killer victim weapon base_rtc (t_rtc tally) (t_points tally)
     (t_bonuses tally) (combo_name <$> combo) rank_before new_rank ranked_up
     multiplier total).

(** [StyleSystem.update]: decay every player by the time since the last
    update. *)
Definition update (now : Q) (s : StyleSystem) : StyleSystem :=
  let delta := (now - last_update s)%Q in
  MkStyleSystem (decay delta <$> players s) (first_blood_claimed s)
    (match_start_time s) now.

(** [StyleSystem.reset_match] *)
Definition reset_match (now : Q) (s : StyleSystem) : StyleSystem :=
  MkStyleSystem (players s) false now (last_update s).

(** The kill branch of the log loop in [main], for one log line on
    which a kill pattern matched with the stripped groups [killer] and
    [victim]: the kill is processed only when both names are non-empty
    and differ.  [None] is "nothing processed, nothing printed". *)
Definition main_kill_line (now : Q) (killer victim weapon : string)
    (s : StyleSystem) : StyleSystem * option KillResult :=
  if negb (String.eqb killer "") && negb (String.eqb victim "")
     && negb (String.eqb killer victim)
  then let '(s', r) := process_kill now killer victim weapon s in (s', Some r)
  else (s, None).

(** What the driver feeds the system. *)
Inductive Event :=
  | EvKill (now : Q) (killer victim weapon : string)
  | EvUpdate (now : Q)
  | EvReset (now : Q).

Definition step (s : StyleSystem) (e : Event) : StyleSystem :=
  match e with
  | EvKill now k v w => fst (process_kill now k v w s)
  | EvUpdate now => update now s
  | EvReset now => reset_match now s
  end.

Definition run (evs : list Event) (s : StyleSystem) : StyleSystem :=
  fold_left step evs s.

(** ** What the specification says a rank is *)

(** [r] is the highest configured rank whose threshold is at most
    [pts]. *)
Definition is_highest_rank (r : StyleRank) (pts : Z) : Prop :=
  cfg_threshold (RANK_CONFIG r) <= pts /\
  forall r', cfg_threshold (RANK_CONFIG r') <= pts ->
             rank_value r' <= rank_value r.

(** What every stored player record satisfies: the points are not
    negative and the rank is the one the scan finds for them. *)
Definition player_ok (p : PlayerStyle) : Prop :=
  0 <= points p /\ rank p = rank_scan (points p).

Definition sys_ok (s : StyleSystem) : Prop :=
  forall n p, players s !! n = Some p -> player_ok p.

(** Read literally, "a kill of oneself is a no-op" for [process_kill]. *)
Definition self_kill_is_noop (now : Q) (k weapon : string)
    (s : StyleSystem) : Prop :=
  fst (process_kill now k k weapon s) = s.

(** Read literally, "decay subtracts exactly [decay_rate * dt], floored
    at 0" for a player above Dormant. *)
Definition decay_is_exact (dt : Q) (p : PlayerStyle) : Prop :=
  rank p <> D_DORMANT ->
  (inject_Z (points (decay dt p))
   == py_max 0 (inject_Z (points p)
                - inject_Z (cfg_decay_rate (RANK_CONFIG (rank p))) * dt))%Q.

(** A killer on 700 points, rank Attacking, who has already used one
    weapon, in a match whose first blood is taken. *)
Definition at_700 : StyleSystem :=
  MkStyleSystem
    {[ "killer"%string :=
         MkPlayerStyle "killer" 700 A_ATTACKING 1 1 0 0%Q [] {[ "shotgun"%string ]}
           "" 0%Q 1 1 ]}
    true 0%Q 0%Q.

End Style.

(** * rustchain_blood_economy.py *)
Module Blood.

Local Open Scope Q_scope.

(** Configuration *)
Definition SHIELD_MAX : Q := 100.
Definition SHIELD_DECAY_RATE : Q := 2.
Definition SHIELD_DECAY_DELAY : Q := 5.
Definition DAMAGE_TO_SHIELD_RATIO : Q := 15 # 100.
Definition CLOSE_RANGE_MULTIPLIER : Q := 3.
Definition MELEE_KILL_SHIELD : Q := 50.
Definition HEADSHOT_BONUS : Q := 25.
Definition KILL_SHIELD_BONUS : Q := 20.
Definition CLOSE_RANGE : Q := 300.
Definition MID_RANGE : Q := 800.
Definition LONG_RANGE : Q := 1500.

(** [class DamageType(IntEnum)] *)
Inductive DamageType :=
  | MELEE | SHOTGUN | MACHINEGUN | ROCKET | GRENADE | ELECTRO
  | CRYLINK | VORTEX | HAGAR | DEVASTATOR | MORTAR.

#[global] Instance DamageType_eq_dec : EqDecision DamageType.
Proof. solve_decision. Defined.

(** [WEAPON_RANGE_BONUS.get(weapon, 1.0)]: every member has an entry. *)
Definition WEAPON_RANGE_BONUS (w : DamageType) : Q :=
  match w with
  | MELEE => 4
  | SHOTGUN => 25 # 10
  | MACHINEGUN => 1
  | ROCKET => 15 # 10
  | GRENADE => 12 # 10
  | ELECTRO => 13 # 10
  | CRYLINK => 1
  | VORTEX => 5 # 10
  | HAGAR => 11 # 10
  | DEVASTATOR => 14 # 10
  | MORTAR => 11 # 10
  end.

(** One entry of [recent_hits]. *)
Record Hit := MkHit {
  hit_time : Q;
  hit_damage : Q;
  hit_weapon : DamageType;
  hit_distance : Q;
}.

(** [@dataclass class BloodState] *)
Record BloodState := MkBloodState {
  shield : Q;
  last_damage_dealt : Q;
  last_damage_taken : Q;
  last_action_time : Q;
  damage_dealt_total : Q;
  shield_gained_total : Q;
  decay_total : Q;
  recent_hits : list Hit;
  in_combat : bool;
  combat_start : Q;
  kills_without_damage : Z;
}.

(** [BloodState()]: the action time defaults to the clock. *)
Definition new_state (now : Q) : BloodState :=
  MkBloodState 0 0 0 now 0 0 0 [] false 0 0%Z.

(** [BloodState.is_decaying] *)
Definition is_decaying (now : Q) (st : BloodState) : bool :=
  Qltb SHIELD_DECAY_DELAY (now - last_action_time st).

(** [deque(maxlen=10).append]: a full deque drops its oldest entry. *)
Definition deque_append (h : Hit) (l : list Hit) : list Hit :=
  let l' := (l ++ [h])%list in
  if (10 <? length l')%nat then tail l' else l'.

(** [class BloodEconomy] *)
Record BloodEconomy := MkBloodEconomy {
  players : gmap string BloodState;
  last_update : Q;
  total_shield_generated : Q;
  total_shield_decayed : Q;
  most_aggressive : option string;
  most_aggressive_shield : Q;
}.

(** [BloodEconomy.__init__] *)
Definition init (now : Q) : BloodEconomy :=
  MkBloodEconomy ∅ now 0 0 None 0.

(** The state [get_player] returns: the stored one, or a fresh one. *)
Definition get_player (now : Q) (n : string) (s : BloodEconomy)
  : BloodState :=
  default (new_state now) (players s !! n).

(** The distance multiplier of [on_damage_dealt]. *)
Definition distance_mult (distance : Q) : Q :=
  if Qle_bool distance CLOSE_RANGE then CLOSE_RANGE_MULTIPLIER
  else if Qle_bool distance MID_RANGE then
    let t := (distance - CLOSE_RANGE) / (MID_RANGE - CLOSE_RANGE) in
    CLOSE_RANGE_MULTIPLIER - (CLOSE_RANGE_MULTIPLIER - 1) * t
  else
    let t := py_min 1 ((distance - MID_RANGE) / (LONG_RANGE - MID_RANGE)) in
    1 - (5 # 10) * t.

(** The shield gain of [on_damage_dealt] before the cap. *)
Definition shield_gain (damage : Q) (weapon : DamageType) (distance : Q)
    (headshot : bool) : Q :=
  let base_shield := damage * DAMAGE_TO_SHIELD_RATIO in
  let gain := base_shield * distance_mult distance * WEAPON_RANGE_BONUS weapon in
  if headshot then gain + HEADSHOT_BONUS else gain.

(** Entries of the [bonuses] lists. *)
Inductive Bonus :=
  | BonusNamed (label : string)
  | BonusRapidFire (n : nat)      (* f"RAPID FIRE x{n}" *)
  | BonusUntouchable (n : Z).     (* f"UNTOUCHABLE x{n}" *)

(** [BloodEconomy._get_bonuses] *)
Definition _get_bonuses (now : Q) (st : BloodState) (weapon : DamageType)
    (distance : Q) (headshot : bool) : list Bonus :=
  let b1 :=
    if decide (weapon = MELEE) then [BonusNamed "BLOOD RAGE"]
    else if bool_decide (weapon = SHOTGUN) && Qle_bool distance CLOSE_RANGE
    then [BonusNamed "BUCKSHOT BAPTISM"] else [] in
  let b2 := if headshot then [BonusNamed "PRECISION"] else [] in
  let b3 :=
    if Qle_bool distance CLOSE_RANGE then [BonusNamed "INTIMATE"]
    else if Qle_bool LONG_RANGE distance then [BonusNamed "SNIPER (reduced)"]
    else [] in
  let recent :=
    List.filter (fun h => Qltb (now - hit_time h) 2) (recent_hits st) in
  let b4 :=
    if (3 <=? length recent)%nat then [BonusRapidFire (length recent)]
    else [] in
  (b1 ++ b2 ++ b3 ++ b4)%list.

(** The dictionary returned by [on_damage_dealt]. *)
Record DamageReport := MkDamageReport {
  dr_attacker : string;
  dr_shield_gained : Q;
  dr_shield_current : Q;
  dr_distance_mult : Q;
  dr_weapon_mult : Q;
  dr_headshot : bool;
  dr_bonuses : list Bonus;
}.

(** [BloodEconomy.on_damage_dealt] *)
Definition on_damage_dealt (now : Q) (attacker victim : string) (damage : Q)
    (weapon : DamageType) (distance : Q) (headshot : bool)
    (s : BloodEconomy) : BloodEconomy * DamageReport :=
  let state := get_player now attacker s in
  let gain := shield_gain damage weapon distance headshot in
  (* Apply shield (capped at max) *)
  let old_shield := shield state in
  let shield' := py_min SHIELD_MAX (shield state + gain) in
  let actual_gain := shield' - old_shield in
  let state' :=
    MkBloodState shield' damage (last_damage_taken state) now
      (damage_dealt_total state + damage)
      (shield_gained_total state + actual_gain) (decay_total state)
      (deque_append (MkHit now damage weapon distance) (recent_hits state))
      true now (kills_without_damage state) in
  let top := Qltb (most_aggressive_shield s) (shield_gained_total state') in
  (MkBloodEconomy (<[attacker := state']> (players s)) (last_update s)
     (total_shield_generated s + actual_gain) (total_shield_decayed s)
     (if top then Some attacker else most_aggressive s)
     (if top then shield_gained_total state' else most_aggressive_shield s),
   MkDamageReport attacker actual_gain shield' (distance_mult distance)
     (WEAPON_RANGE_BONUS weapon) headshot
     (_get_bonuses now state' weapon distance headshot)).

(** The dictionary returned by [on_kill]. *)
Record KillReport := MkKillReport {
  kr_killer : string;
  kr_victim : string;
  kr_shield_gained : Q;
  kr_shield_current : Q;
  kr_bonuses : list Bonus;
  kr_total_bonus : Q;
}.

(** [BloodEconomy.on_kill] *)
Definition on_kill (now : Q) (killer victim : string) (weapon : DamageType)
    (distance : Q) (s : BloodEconomy) : BloodEconomy * KillReport :=
  let state := get_player now killer s in
  let melee := bool_decide (weapon = MELEE) in
  let close := Qle_bool distance CLOSE_RANGE in
  let streak := kills_without_damage state in
  let untouchable := (3 <=? streak)%Z in
  let gain :=
    KILL_SHIELD_BONUS
    + (if melee then MELEE_KILL_SHIELD else 0)
    + (if close then 15 else 0)
    + (if untouchable then 10 * inject_Z streak else 0) in
  let bonuses :=
    ((if melee then [BonusNamed "EXECUTION"] else [])
     ++ (if close then [BonusNamed "POINT BLANK"] else [])
     ++ (if untouchable then [BonusUntouchable streak] else []))%list in
  let old_shield := shield state in
  let shield' := py_min SHIELD_MAX (shield state + gain) in
  let actual_gain := shield' - old_shield in
  let state' :=
    MkBloodState shield' (last_damage_dealt state) (last_damage_taken state)
      now (damage_dealt_total state)
      (shield_gained_total state + actual_gain) (decay_total state)
      (recent_hits state) (in_combat state) (combat_start state)
      (streak + 1)%Z in
  (MkBloodEconomy (<[killer := state']> (players s)) (last_update s)
     (total_shield_generated s + actual_gain) (total_shield_decayed s)
     (most_aggressive s) (most_aggressive_shield s),
   MkKillReport killer victim actual_gain shield' bonuses gain).

(** The dictionary returned by [on_damage_taken]. *)
Record TakenReport := MkTakenReport {
  tr_player : string;
  tr_damage : Q;
  tr_shield_current : Q;
  tr_untouchable_lost : bool;
}.

(** [BloodEconomy.on_damage_taken]: the report is built from the state
    after the two assignments. *)
Definition on_damage_taken (now : Q) (player : string) (damage : Q)
    (attacker : string) (s : BloodEconomy) : BloodEconomy * TakenReport :=
  let state := get_player now player s in
  let state' :=
    MkBloodState (shield state) (last_damage_dealt state) damage
      (last_action_time state) (damage_dealt_total state)
      (shield_gained_total state) (decay_total state) (recent_hits state)
      (in_combat state) (combat_start state) 0%Z in
  (MkBloodEconomy (<[player := state']> (players s)) (last_update s)
     (total_shield_generated s) (total_shield_decayed s)
     (most_aggressive s) (most_aggressive_shield s),
   MkTakenReport player damage (shield state')
     (if (0 <? kills_without_damage state')%Z then true else false)).

(** [BloodEconomy.on_death]: the new economy and [shield_lost]. *)
Definition on_death (now : Q) (player : string) (s : BloodEconomy)
  : BloodEconomy * Q :=
  let state := get_player now player s in
  let state' :=
    MkBloodState 0 (last_damage_dealt state) (last_damage_taken state)
      (last_action_time state) (damage_dealt_total state)
      (shield_gained_total state) (decay_total state) []
      false (combat_start state) 0%Z in
  (MkBloodEconomy (<[player := state']> (players s)) (last_update s)
     (total_shield_generated s) (total_shield_decayed s)
     (most_aggressive s) (most_aggressive_shield s),
   shield state).

(** The body of the loop of [update] for one player: the new state and
    the decay applied to it. *)
Definition update_player (now dt : Q) (st : BloodState) : BloodState * Q :=
  let '(shield', decay_total', actual_decay) :=
    if Qltb 0 (shield st) && is_decaying now st then
      let decay := SHIELD_DECAY_RATE * dt in
      let sh := py_max 0 (shield st - decay) in
      let actual := shield st - sh in
      (sh, (if Qltb 0 actual then decay_total st + actual else decay_total st),
       actual)
    else (shield st, decay_total st, 0) in
  (MkBloodState shield' (last_damage_dealt st) (last_damage_taken st)
     (last_action_time st) (damage_dealt_total st) (shield_gained_total st)
     decay_total' (recent_hits st)
     (if in_combat st && Qltb 3 (now - last_action_time st) then false
      else in_combat st)
     (combat_start st) (kills_without_damage st),
   actual_decay).

(** [BloodEconomy.update]: the new economy and the dictionary of the
    players that decayed. [dt = None] is the default argument. *)
Definition update (now : Q) (dt : option Q) (s : BloodEconomy)
  : BloodEconomy * gmap string Q :=
  let dt' := default (now - last_update s) dt in
  let stepped := update_player now dt' <$> players s in
  let decayed := filter (fun kv => Qltb 0 (snd kv) = true) (snd <$> stepped) in
  (MkBloodEconomy (fst <$> stepped) now (total_shield_generated s)
     (map_fold (fun _ d acc => acc + d) (total_shield_decayed s) decayed)
     (most_aggressive s) (most_aggressive_shield s),
   decayed).

(** [BloodEconomy.reset_match] *)
Definition reset_match (s : BloodEconomy) : BloodEconomy :=
  MkBloodEconomy ∅ (last_update s) 0 0 None 0.

(** The events the driver delivers. *)
Inductive Op :=
  | OpDamageDealt (now : Q) (attacker victim : string) (damage : Q)
      (weapon : DamageType) (distance : Q) (headshot : bool)
  | OpKill (now : Q) (killer victim : string) (weapon : DamageType)
      (distance : Q)
  | OpDamageTaken (now : Q) (player : string) (damage : Q) (attacker : string)
  | OpDeath (now : Q) (player : string)
  | OpUpdate (now : Q) (dt : option Q).

Definition step (s : BloodEconomy) (op : Op) : BloodEconomy :=
  match op with
  | OpDamageDealt now a v d w dist hs =>
      fst (on_damage_dealt now a v d w dist hs s)
  | OpKill now k v w dist => fst (on_kill now k v w dist s)
  | OpDamageTaken now p d a => fst (on_damage_taken now p d a s)
  | OpDeath now p => fst (on_death now p s)
  | OpUpdate now dt => fst (update now dt s)
  end.

Definition run (ops : list Op) (s : BloodEconomy) : BloodEconomy :=
  fold_left step ops s.

(** Every stored shield lies in [0, SHIELD_MAX]. *)
Definition shields_bounded (s : BloodEconomy) : Prop :=
  forall n st, players s !! n = Some st ->
               0 <= shield st /\ shield st <= SHIELD_MAX.

(** An event with a non-negative damage amount and a non-negative tick
    length; for the default tick length that is the clock not running
    backwards since the last update. *)
Definition op_ok (s : BloodEconomy) (op : Op) : bool :=
  match op with
  | OpDamageDealt _ _ _ d _ _ _ => Qle_bool 0 d
  | OpUpdate now dt => Qle_bool 0 (default (now - last_update s) dt)
  | _ => true
  end.

Fixpoint run_ok (ops : list Op) (s : BloodEconomy) : bool :=
  match ops with
  | [] => true
  | op :: ops' => op_ok s op && run_ok ops' (step s op)
  end.

(** The shield [get_player] reads for [n]. *)
Definition shield_of (now : Q) (n : string) (s : BloodEconomy) : Q :=
  shield (get_player now n s).

(** Read literally, "a negative damage amount or distance is treated as
    zero, and the attacker's shield never decreases". *)
Definition negative_input_is_zeroed (now : Q) (a v : string) (damage : Q)
    (w : DamageType) (distance : Q) (hs : bool) (s : BloodEconomy) : Prop :=
  shield_of now a (fst (on_damage_dealt now a v damage w distance hs s))
  == shield_of now a
       (fst (on_damage_dealt now a v (py_max 0 damage) w (py_max 0 distance)
               hs s))
  /\ shield_of now a s
     <= shield_of now a (fst (on_damage_dealt now a v damage w distance hs s)).

End Blood.

(** * rustchain_51_attack.py *)
Module Attack51.

Local Open Scope Q_scope.

(** Configuration *)
Definition MATCH_DURATION : Q := 600.
Definition CONTROL_POINT_CAPTURE_TIME : Q := 3.
Definition RTC_MINING_RATE : Q := 1 # 1000.
Definition ATTACK_THRESHOLD : Q := 51 # 100.
Definition LOSER_PENALTY : Q := 5 # 10.

(** [class ControlState(Enum)] *)
Inductive ControlState :=
  | NEUTRAL | CONTESTED | CONTROLLED_TEAM1 | CONTROLLED_TEAM2.

(** [class AttackPhase(Enum)] *)
Inductive AttackPhase :=
  | MINING | ATTACK_IMMINENT | ATTACK_EXECUTED | DEFENSE_RALLY.

(** The two keys ["team1"] and ["team2"] of [capture_progress] and
    [players_on_point]; [controlling_team] and [attack_executed_by] are
    only ever assigned one of them, or [None]. *)
Inductive TeamId := Team1 | Team2.

#[global] Instance TeamId_eq_dec : EqDecision TeamId.
Proof. solve_decision. Defined.
#[global] Instance ControlState_eq_dec : EqDecision ControlState.
Proof. solve_decision. Defined.
#[global] Instance AttackPhase_eq_dec : EqDecision AttackPhase.
Proof. solve_decision. Defined.

Definition team_key (t : TeamId) : string :=
  match t with Team1 => "team1" | Team2 => "team2" end.

(** The key a team string denotes, if it is one of the two. *)
Definition key_of (team : string) : option TeamId :=
  if String.eqb team "team1" then Some Team1
  else if String.eqb team "team2" then Some Team2
  else None.

Definition other_team (t : TeamId) : TeamId :=
  match t with Team1 => Team2 | Team2 => Team1 end.

(** A dictionary with exactly the two team keys. *)
Record PerTeam (A : Type) := MkPerTeam { at_team1 : A; at_team2 : A }.
Arguments MkPerTeam {A}.
Arguments at_team1 {A}.
Arguments at_team2 {A}.

Definition pt_get {A} (t : TeamId) (d : PerTeam A) : A :=
  match t with Team1 => at_team1 d | Team2 => at_team2 d end.

Definition pt_set {A} (t : TeamId) (a : A) (d : PerTeam A) : PerTeam A :=
  match t with
  | Team1 => MkPerTeam a (at_team2 d)
  | Team2 => MkPerTeam (at_team1 d) a
  end.

(** [@dataclass class TeamState] *)
Record TeamState := MkTeamState {
  ts_name : string;
  ts_members : gset string;
  ts_control_time : Q;
  ts_rtc_mined : Q;
  ts_kills : Z;
  ts_deaths : Z;
  ts_captures : Z;
}.

(** [@dataclass class PlayerStats] *)
Record PlayerStats := MkPlayerStats {
  ps_name : string;
  ps_team : string;
  ps_control_time : Q;
  ps_rtc_earned : Q;
  ps_point_captures : Z;
  ps_point_defenses : Z;
  ps_kills_on_point : Z;
}.

(** One team's entry in the settlement dictionary; [rtc_final] is only
    present when there is a winner. *)
Record TeamSummary := MkTeamSummary {
  sum_name : string;
  sum_control_percent : Q;
  sum_rtc_mined : Q;
  sum_kills : Z;
  sum_captures : Z;
  sum_rtc_final : option Q;
}.

(** One entry of [result["player_rewards"]]. *)
Record Reward := MkReward {
  rw_rtc : Q;
  rw_control_time : Q;
  rw_captures : Z;
  rw_defenses : Z;
  rw_kills_on_point : Z;
}.

(** The dictionary returned by [end_match]; the special message is kept
    as the two team names it is formatted from. *)
Record MatchResult := MkMatchResult {
  mr_duration : Q;
  mr_winner : string;
  mr_victory_type : string;
  mr_team1 : TeamSummary;
  mr_team2 : TeamSummary;
  mr_player_rewards : gmap string Reward;
  mr_special_message : option (string * string);
}.

(** The payload of an entry of the events log. *)
Inductive EventData :=
  | DataMatchStart (t1 t2 : string) (duration threshold : Q)
  | DataNeutralized (by_team : TeamId)
  | DataCaptured (team : TeamId) (team_name : string)
  | DataMatchEnd (result : MatchResult).

Record LogEvent := MkLogEvent { ev_time : Q; ev_data : EventData }.

(** [class FiftyOneAttackMode] *)
Record Mode := MkMode {
  team1 : TeamState;
  team2 : TeamState;
  control_state : ControlState;
  controlling_team : option TeamId;
  capture_progress : PerTeam Q;
  players_on_point : PerTeam (gset string);
  match_start : Q;
  match_duration : Q;
  phase : AttackPhase;
  attack_executed_by : option TeamId;
  players : gmap string PlayerStats;
  events : list LogEvent;
  match_rtc_pool : Q;
  winner_bonus_pool : Q;
}.

(** [FiftyOneAttackMode.__init__] *)
Definition init (team1_name team2_name : string) : Mode :=
  MkMode (MkTeamState team1_name ∅ 0 0 0 0 0)
    (MkTeamState team2_name ∅ 0 0 0 0 0)
    NEUTRAL None (MkPerTeam 0 0) (MkPerTeam ∅ ∅)
    0 MATCH_DURATION MINING None ∅ [] 1 (5 # 10).

(** [self.team1 if team == "team1" else self.team2], on keys. *)
Definition team_obj (t : TeamId) (m : Mode) : TeamState :=
  match t with Team1 => team1 m | Team2 => team2 m end.

(** The same choice on an arbitrary team string. *)
Definition is_team1 (team : string) : bool := String.eqb team "team1".

(** [_get_team_name] *)
Definition _get_team_name (t : option TeamId) (m : Mode) : string :=
  match t with
  | Some Team1 => ts_name (team1 m)
  | Some Team2 => ts_name (team2 m)
  | None => "None"
  end.

(** [_get_control_percent] *)
Definition _get_control_percent (t : TeamId) (match_time : Q) (m : Mode) : Q :=
  if Qle_bool match_time 0 then 0
  else ts_control_time (team_obj t m) / match_time.

(** [_log_event] *)
Definition _log_event (now : Q) (d : EventData) (m : Mode) : Mode :=
  MkMode (team1 m) (team2 m) (control_state m) (controlling_team m)
    (capture_progress m) (players_on_point m) (match_start m)
    (match_duration m) (phase m) (attack_executed_by m) (players m)
    (events m ++ [MkLogEvent (now - match_start m) d])%list
    (match_rtc_pool m) (winner_bonus_pool m).

(** One team's entry in the status dictionary. *)
Record TeamStatus := MkTeamStatus {
  st_name : string;
  st_control_percent : Q;
  st_rtc_mined : Q;
  st_players_on_point : nat;
  st_capture_progress : Q;
}.

(** The dictionary returned by [get_status]. *)
Record Status := MkStatus {
  st_phase : AttackPhase;
  st_match_time : Q;
  st_time_remaining : Q;
  st_control_state : ControlState;
  st_controlling_team : string;
  st_team1 : TeamStatus;
  st_team2 : TeamStatus;
  st_attack_executed_by : string;
}.

(** [get_status]; a zero [match_start] is falsy. *)
Definition get_status (now : Q) (m : Mode) : Status :=
  let match_time :=
    if Qeq_bool (match_start m) 0 then 0 else now - match_start m in
  let team_status t :=
    MkTeamStatus (ts_name (team_obj t m))
      (_get_control_percent t match_time m * 100)
      (ts_rtc_mined (team_obj t m))
      (size (pt_get t (players_on_point m)))
      (pt_get t (capture_progress m) / CONTROL_POINT_CAPTURE_TIME * 100) in
  MkStatus (phase m) match_time
    (py_max 0 (match_duration m - match_time))
    (control_state m) (_get_team_name (controlling_team m) m)
    (team_status Team1) (team_status Team2)
    (_get_team_name (attack_executed_by m) m).

(** [start_match] *)
Definition start_match (now : Q) (m : Mode) : Mode * Status :=
  let clear t :=
    MkTeamState (ts_name t) (ts_members t) 0 0 (ts_kills t) (ts_deaths t)
      (ts_captures t) in
  let m1 :=
    MkMode (clear (team1 m)) (clear (team2 m)) NEUTRAL None (MkPerTeam 0 0)
      (players_on_point m) now (match_duration m) MINING None (players m)
      [] (match_rtc_pool m) (winner_bonus_pool m) in
  let m2 :=
    _log_event now
      (DataMatchStart (ts_name (team1 m1)) (ts_name (team2 m1))
         (match_duration m1) ATTACK_THRESHOLD) m1 in
  (m2, get_status now m2).

(** [add_player]; any team string other than ["team1"] joins the
    members of team 2. *)
Definition add_player (n team : string) (m : Mode) : Mode :=
  let join t :=
    MkTeamState (ts_name t) (ts_members t ∪ {[n]}) (ts_control_time t)
      (ts_rtc_mined t) (ts_kills t) (ts_deaths t) (ts_captures t) in
  MkMode (if is_team1 team then join (team1 m) else team1 m)
    (if is_team1 team then team2 m else join (team2 m))
    (control_state m) (controlling_team m) (capture_progress m)
    (players_on_point m) (match_start m) (match_duration m) (phase m)
    (attack_executed_by m)
    (<[n := MkPlayerStats n team 0 0 0 0 0]> (players m))
    (events m) (match_rtc_pool m) (winner_bonus_pool m).

Definition set_on_point (d : PerTeam (gset string)) (m : Mode) : Mode :=
  MkMode (team1 m) (team2 m) (control_state m) (controlling_team m)
    (capture_progress m) d (match_start m) (match_duration m) (phase m)
    (attack_executed_by m) (players m) (events m) (match_rtc_pool m)
    (winner_bonus_pool m).

(** What a handler call comes to: a returned value, or a [KeyError]
    raised by a dictionary lookup. *)
Inductive Outcome (A : Type) :=
  | Returned (a : A)
  | KeyError.
Arguments Returned {A}.
Arguments KeyError {A}.

(** [player_enter_point]: [Returned false] is the error dictionary for a
    player that is not in the match. *)
Definition player_enter_point (player : string) (m : Mode)
  : Mode * Outcome bool :=
  match players m !! player with
  | None => (m, Returned false)
  | Some p =>
      match key_of (ps_team p) with
      | None => (m, KeyError)
      | Some t =>
          let d := players_on_point m in
          (set_on_point (pt_set t (pt_get t d ∪ {[player]}) d) m,
           Returned true)
      end
  end.

(** [player_leave_point] *)
Definition player_leave_point (player : string) (m : Mode)
  : Mode * Outcome bool :=
  match players m !! player with
  | None => (m, Returned false)
  | Some p =>
      match key_of (ps_team p) with
      | None => (m, KeyError)
      | Some t =>
          let d := players_on_point m in
          (set_on_point (pt_set t (pt_get t d ∖ {[player]}) d) m,
           Returned true)
      end
  end.

(** Field updates of [Mode]. *)
Definition set_control (cs : ControlState) (ct : option TeamId) (m : Mode)
  : Mode :=
  MkMode (team1 m) (team2 m) cs ct (capture_progress m) (players_on_point m)
    (match_start m) (match_duration m) (phase m) (attack_executed_by m)
    (players m) (events m) (match_rtc_pool m) (winner_bonus_pool m).

Definition set_progress (cp : PerTeam Q) (m : Mode) : Mode :=
  MkMode (team1 m) (team2 m) (control_state m) (controlling_team m) cp
    (players_on_point m) (match_start m) (match_duration m) (phase m)
    (attack_executed_by m) (players m) (events m) (match_rtc_pool m)
    (winner_bonus_pool m).

Definition set_team (t : TeamId) (ts : TeamState) (m : Mode) : Mode :=
  MkMode (match t with Team1 => ts | Team2 => team1 m end)
    (match t with Team1 => team2 m | Team2 => ts end)
    (control_state m) (controlling_team m) (capture_progress m)
    (players_on_point m) (match_start m) (match_duration m) (phase m)
    (attack_executed_by m) (players m) (events m) (match_rtc_pool m)
    (winner_bonus_pool m).

Definition set_players (reg : gmap string PlayerStats) (m : Mode) : Mode :=
  MkMode (team1 m) (team2 m) (control_state m) (controlling_team m)
    (capture_progress m) (players_on_point m) (match_start m)
    (match_duration m) (phase m) (attack_executed_by m) reg (events m)
    (match_rtc_pool m) (winner_bonus_pool m).

Definition set_phase (ph : AttackPhase) (ex : option TeamId) (m : Mode)
  : Mode :=
  MkMode (team1 m) (team2 m) (control_state m) (controlling_team m)
    (capture_progress m) (players_on_point m) (match_start m)
    (match_duration m) ph ex (players m) (events m) (match_rtc_pool m)
    (winner_bonus_pool m).

(** [for player in names: self.players[player] ...]: the names on the
    point are always registered ([player_enter_point] checks), so the
    lookups cannot fail. *)
Definition for_players (f : PlayerStats -> PlayerStats) (names : gset string)
    (reg : gmap string PlayerStats) : gmap string PlayerStats :=
  set_fold (fun n acc => alter f n acc) reg names.

Definition credit_capture (p : PlayerStats) : PlayerStats :=
  MkPlayerStats (ps_name p) (ps_team p) (ps_control_time p) (ps_rtc_earned p)
    (ps_point_captures p + 1)%Z (ps_point_defenses p) (ps_kills_on_point p).

(** [_process_capture] *)
Definition _process_capture (now : Q) (team : TeamId) (dt : Q) (m : Mode)
  : Mode :=
  let other := other_team team in
  if decide (controlling_team m = Some team) then
    (* Already controlling - maintain *)
    m
  else if decide (controlling_team m = Some other) then
    (* Enemy controls - neutralize first *)
    let p := pt_get other (capture_progress m) - dt in
    if Qle_bool p 0 then
      _log_event now (DataNeutralized team)
        (set_control NEUTRAL None
           (set_progress (pt_set other 0 (capture_progress m)) m))
    else set_progress (pt_set other p (capture_progress m)) m
  else
    (* Neutral - capture *)
    let p := pt_get team (capture_progress m) + dt in
    let m1 := set_progress (pt_set team p (capture_progress m)) m in
    if Qle_bool CONTROL_POINT_CAPTURE_TIME p then
      let m2 :=
        set_control
          (match team with
           | Team1 => CONTROLLED_TEAM1 | Team2 => CONTROLLED_TEAM2
           end) (Some team) m1 in
      let ts := team_obj team m2 in
      let m3 :=
        set_team team
          (MkTeamState (ts_name ts) (ts_members ts) (ts_control_time ts)
             (ts_rtc_mined ts) (ts_kills ts) (ts_deaths ts)
             (ts_captures ts + 1)%Z) m2 in
      let m4 :=
        set_players
          (for_players credit_capture (pt_get team (players_on_point m3))
             (players m3)) m3 in
      _log_event now (DataCaptured team (_get_team_name (Some team) m4)) m4
    else m1.

(** Entries of [result["events"]] and [result["announcements"]] of a
    tick. *)
Inductive TickEvent := Neutralized.

Inductive Announcement :=
  | AttackImminent (team : TeamId) (percent : Q) (team_name : string)
  | AttackExecuted (team : TeamId) (team_name : string).

(** "Determine point state": the occupancy branch of [update]. *)
Definition occupy (now dt : Q) (m : Mode) : Mode * list TickEvent :=
  let team1_count := size (pt_get Team1 (players_on_point m)) in
  let team2_count := size (pt_get Team2 (players_on_point m)) in
  let decayed rate :=
    MkPerTeam (py_max 0 (at_team1 (capture_progress m) - dt * rate))
      (py_max 0 (at_team2 (capture_progress m) - dt * rate)) in
  if (0 <? team1_count)%nat && (0 <? team2_count)%nat then
    (set_progress (decayed (5 # 10))
       (set_control CONTESTED (controlling_team m) m), [])
  else if (0 <? team1_count)%nat then (_process_capture now Team1 dt m, [])
  else if (0 <? team2_count)%nat then (_process_capture now Team2 dt m, [])
  else
    let cp := decayed (3 # 10) in
    let m1 := set_progress cp m in
    if Qeq_bool (at_team1 cp) 0 && Qeq_bool (at_team2 cp) 0
       && negb (bool_decide (control_state m1 = NEUTRAL))
    then (set_control NEUTRAL None m1, [Neutralized])
    else (m1, []).

(** "Mine RTC if controlling" *)
Definition mine (dt : Q) (m : Mode) : Mode :=
  match controlling_team m with
  | None => m
  | Some t =>
      let rtc_gained := RTC_MINING_RATE * dt in
      let ts := team_obj t m in
      let m1 :=
        set_team t
          (MkTeamState (ts_name ts) (ts_members ts) (ts_control_time ts + dt)
             (ts_rtc_mined ts + rtc_gained) (ts_kills ts) (ts_deaths ts)
             (ts_captures ts)) m in
      let on_point := pt_get t (players_on_point m1) in
      if (0 <? size on_point)%nat then
        let per_player := rtc_gained / inject_Z (Z.of_nat (size on_point)) in
        set_players
          (for_players
             (fun p =>
                MkPlayerStats (ps_name p) (ps_team p) (ps_control_time p + dt)
                  (ps_rtc_earned p + per_player) (ps_point_captures p)
                  (ps_point_defenses p) (ps_kills_on_point p))
             on_point (players m1)) m1
      else m1
  end.

(** "Check for phase transitions" *)
Definition check_phase (match_time : Q) (m : Mode)
  : Mode * list Announcement :=
  let team1_percent := _get_control_percent Team1 match_time m in
  let team2_percent := _get_control_percent Team2 match_time m in
  let imminent :=
    bool_decide (phase m = MINING)
    && (Qle_bool (45 # 100) team1_percent
        || Qle_bool (45 # 100) team2_percent) in
  let leading := if Qltb team2_percent team1_percent then Team1 else Team2 in
  let ph1 := if imminent then ATTACK_IMMINENT else phase m in
  let a1 :=
    if imminent
    then [AttackImminent leading (py_max team1_percent team2_percent * 100)
            (_get_team_name (Some leading) m)]
    else [] in
  let free := bool_decide (attack_executed_by m = None) in
  if Qle_bool ATTACK_THRESHOLD team1_percent && free then
    (set_phase ATTACK_EXECUTED (Some Team1) m,
     a1 ++ [AttackExecuted Team1 (ts_name (team1 m))])%list
  else if Qle_bool ATTACK_THRESHOLD team2_percent && free then
    (set_phase ATTACK_EXECUTED (Some Team2) m,
     a1 ++ [AttackExecuted Team2 (ts_name (team2 m))])%list
  else (set_phase ph1 (attack_executed_by m) m, a1).

(** The dictionary a tick returns. *)
Record TickResult := MkTickResult {
  tk_events : list TickEvent;
  tk_announcements : list Announcement;
  tk_status : Status;
}.

(** The body of [update] after the expiry check. *)
Definition tick (now dt : Q) (m : Mode) : Mode * TickResult :=
  let match_time := now - match_start m in
  let '(m1, evs) := occupy now dt m in
  let m2 := mine dt m1 in
  let '(m3, anns) := check_phase match_time m2 in
  (m3, MkTickResult evs anns (get_status now m3)).

(** The dictionary returned by [on_kill]; [None] is the empty
    dictionary. *)
Record PointKill := MkPointKill {
  pk_killer : string;
  pk_victim : string;
  pk_on_point : bool;
  pk_bonuses : list string;
  pk_rtc_bonus : Q;
}.

(** [on_kill] *)
Definition on_kill (killer victim : string) (on_point : bool) (m : Mode)
  : Mode * Outcome (option PointKill) :=
  match players m !! killer, players m !! victim with
  | Some killer_stats, Some victim_stats =>
      let kt := if is_team1 (ps_team killer_stats) then Team1 else Team2 in
      let vt := if is_team1 (ps_team victim_stats) then Team1 else Team2 in
      let k := team_obj kt m in
      let m1 :=
        set_team kt
          (MkTeamState (ts_name k) (ts_members k) (ts_control_time k)
             (ts_rtc_mined k) (ts_kills k + 1)%Z (ts_deaths k)
             (ts_captures k)) m in
      let v := team_obj vt m1 in
      let m2 :=
        set_team vt
          (MkTeamState (ts_name v) (ts_members v) (ts_control_time v)
             (ts_rtc_mined v) (ts_kills v) (ts_deaths v + 1)%Z
             (ts_captures v)) m1 in
      if on_point then
        let m3 :=
          set_players
            (alter
               (fun p =>
                  MkPlayerStats (ps_name p) (ps_team p) (ps_control_time p)
                    (ps_rtc_earned p) (ps_point_captures p)
                    (ps_point_defenses p) (ps_kills_on_point p + 1)%Z)
               killer (players m2)) m2 in
        match key_of (ps_team victim_stats) with
        | None => (m3, KeyError)
        | Some t =>
            if bool_decide (victim ∈ pt_get t (players_on_point m3)) then
              (set_players
                 (alter
                    (fun p =>
                       MkPlayerStats (ps_name p) (ps_team p)
                         (ps_control_time p) (ps_rtc_earned p)
                         (ps_point_captures p) (ps_point_defenses p + 1)%Z
                         (ps_kills_on_point p))
                    killer (players m3)) m3,
               Returned
                 (Some (MkPointKill killer victim on_point
                          ["POINT DEFENSE"; "VALIDATOR SLAIN"]
                          (0 + (1 # 1000) + (2 # 1000)))))
            else
              (m3,
               Returned
                 (Some (MkPointKill killer victim on_point ["POINT DEFENSE"]
                          (0 + (1 # 1000)))))
        end
      else (m2, Returned (Some (MkPointKill killer victim on_point [] 0)))
  | _, _ => (m, Returned None)
  end.

(** The winner of [end_match], with the victory type. *)
Definition determine_winner (match_time : Q) (m : Mode)
  : option TeamId * string :=
  let team1_percent := _get_control_percent Team1 match_time m in
  let team2_percent := _get_control_percent Team2 match_time m in
  match attack_executed_by m with
  | Some t => (Some t, "51% ATTACK"%string)
  | None =>
      if Qltb team2_percent team1_percent
      then (Some Team1, "MAJORITY CONTROL"%string)
      else if Qltb team1_percent team2_percent
      then (Some Team2, "MAJORITY CONTROL"%string)
      else (None, "DRAW"%string)
  end.

(** "Apply winner bonus and loser penalty" *)
Definition apply_bonus_penalty (winner : option TeamId) (m : Mode) : Mode :=
  match winner with
  | None => m
  | Some w =>
      let wt := team_obj w m in
      let m1 :=
        set_team w
          (MkTeamState (ts_name wt) (ts_members wt) (ts_control_time wt)
             (ts_rtc_mined wt + winner_bonus_pool m) (ts_kills wt)
             (ts_deaths wt) (ts_captures wt)) m in
      let lt := team_obj (other_team w) m1 in
      set_team (other_team w)
        (MkTeamState (ts_name lt) (ts_members lt) (ts_control_time lt)
           (ts_rtc_mined lt * LOSER_PENALTY) (ts_kills lt) (ts_deaths lt)
           (ts_captures lt)) m1
  end.

(** [[p for p in self.players.values() if p.team == team_id]] *)
Definition team_players (t : TeamId) (m : Mode) : list PlayerStats :=
  List.filter (fun p => String.eqb (ps_team p) (team_key t))
    (snd <$> map_to_list (players m)).

(** [sum(...)]: from 0, left to right. *)
Definition py_sum (l : list Q) : Q := fold_left Qplus l 0.

(** The payout of one player of a team of [n] with mined total [total]
    and summed control time [total_control_time]. *)
Definition player_rtc (total : Q) (n : nat) (total_control_time : Q)
    (p : PlayerStats) : Q :=
  let base_share := total / inject_Z (Z.of_nat n) in
  let control_share :=
    if Qltb 0 total_control_time
    then ps_control_time p / total_control_time
    else 1 / inject_Z (Z.of_nat n) in
  base_share * (5 # 10) + total * control_share * (5 # 10).

(** The payout of [p] at settlement, if [p] is on one of the two
    teams. *)
Definition payout (m : Mode) (p : PlayerStats) : option Q :=
  match key_of (ps_team p) with
  | None => None
  | Some t =>
      let tp := team_players t m in
      Some (player_rtc (ts_rtc_mined (team_obj t m)) (length tp)
              (py_sum (ps_control_time <$> tp)) p)
  end.

(** "Distribute RTC to individual players": the registry with every
    team player's [rtc_earned] overwritten, and [player_rewards]. *)
Definition distribute (m : Mode)
  : gmap string PlayerStats * gmap string Reward :=
  ((fun p =>
      match payout m p with
      | Some r =>
          MkPlayerStats (ps_name p) (ps_team p) (ps_control_time p) r
            (ps_point_captures p) (ps_point_defenses p) (ps_kills_on_point p)
      | None => p
      end) <$> players m,
   fold_left
     (fun acc p =>
        match payout m p with
        | Some r =>
            <[ps_name p :=
                MkReward r (ps_control_time p) (ps_point_captures p)
                  (ps_point_defenses p) (ps_kills_on_point p)]> acc
        | None => acc
        end)
     (team_players Team1 m ++ team_players Team2 m)%list ∅).

(** [end_match] *)
Definition end_match (now : Q) (m : Mode) : Mode * MatchResult :=
  let match_time := now - match_start m in
  let team1_percent := _get_control_percent Team1 match_time m in
  let team2_percent := _get_control_percent Team2 match_time m in
  let '(winner, victory_type) := determine_winner match_time m in
  let m1 := apply_bonus_penalty winner m in
  let final t :=
    match winner with
    | Some _ => Some (ts_rtc_mined (team_obj t m1))
    | None => None
    end in
  let summary t pct :=
    MkTeamSummary (ts_name (team_obj t m)) (pct * 100)
      (ts_rtc_mined (team_obj t m)) (ts_kills (team_obj t m))
      (ts_captures (team_obj t m)) (final t) in
  let '(reg, rewards) := distribute m1 in
  let result :=
    MkMatchResult match_time (_get_team_name winner m) victory_type
      (summary Team1 team1_percent) (summary Team2 team2_percent) rewards
      (match winner with
       | Some w =>
           if String.eqb victory_type "51% ATTACK"
           then Some (ts_name (team_obj w m1),
                      ts_name (team_obj (other_team w) m1))
           else None
       | None => None
       end) in
  (_log_event now (DataMatchEnd result) (set_players reg m1), result).

(** What [update] returns: the dictionary of a tick, or the settlement
    that [end_match] returned. *)
Inductive UpdateResult :=
  | Ticked (r : TickResult)
  | Settled (r : MatchResult).

(** [update] *)
Definition update (now dt : Q) (m : Mode) : Mode * UpdateResult :=
  let match_time := now - match_start m in
  if Qle_bool (match_duration m) match_time then
    let '(m', r) := end_match now m in (m', Settled r)
  else
    let '(m', r) := tick now dt m in (m', Ticked r).

(** The calls of the external driver. *)
Inductive Call :=
  | CStart (now : Q)
  | CAddPlayer (n team : string)
  | CEnter (player : string)
  | CLeave (player : string)
  | CUpdate (now dt : Q)
  | CKill (killer victim : string) (on_point : bool)
  | CEnd (now : Q).

Definition step (m : Mode) (c : Call) : Mode :=
  match c with
  | CStart now => fst (start_match now m)
  | CAddPlayer n team => add_player n team m
  | CEnter p => fst (player_enter_point p m)
  | CLeave p => fst (player_leave_point p m)
  | CUpdate now dt => fst (update now dt m)
  | CKill k v op => fst (on_kill k v op m)
  | CEnd now => fst (end_match now m)
  end.

Definition run (cs : list Call) (m : Mode) : Mode := fold_left step cs m.

(** The three fields the control point consists of. *)
Definition ctrl (m : Mode) : ControlState * option TeamId * PerTeam Q :=
  (control_state m, controlling_team m, capture_progress m).

(** The invariant of the control point, for ticks of length at most
    [D]: the state names the controlling team, progress is never
    negative, a team that does not control is short of the capture
    time, and the controlling team overshoots it by less than a tick. *)
Definition inv (D : Q) (c : ControlState * option TeamId * PerTeam Q) : Prop :=
  let '(cs, ct, cp) := c in
  (cs = NEUTRAL -> ct = None)
  /\ (cs = CONTROLLED_TEAM1 -> ct = Some Team1)
  /\ (cs = CONTROLLED_TEAM2 -> ct = Some Team2)
  /\ 0 <= at_team1 cp /\ 0 <= at_team2 cp
  /\ (ct <> Some Team1 -> at_team1 cp < CONTROL_POINT_CAPTURE_TIME)
  /\ (ct <> Some Team2 -> at_team2 cp < CONTROL_POINT_CAPTURE_TIME)
  /\ at_team1 cp < CONTROL_POINT_CAPTURE_TIME + D
  /\ at_team2 cp < CONTROL_POINT_CAPTURE_TIME + D.

(** A team's mined total. *)
Definition mined (t : TeamId) (m : Mode) : Q := ts_rtc_mined (team_obj t m).

(** Read literally, "each team's capture progress lies in
    [0, CONTROL_POINT_CAPTURE_TIME]". *)
Definition progress_in_range (m : Mode) : Prop :=
  forall t, 0 <= pt_get t (capture_progress m)
            /\ pt_get t (capture_progress m) <= CONTROL_POINT_CAPTURE_TIME.

(** Read literally, "[update] never performs settlement". *)
Definition update_never_settles (now dt : Q) (m : Mode) : Prop :=
  forall r, snd (update now dt m) <> Settled r.

(** Read literally, "a second [end_match] returns the first one's result
    and leaves the teams' mined totals alone". *)
Definition second_end_match_is_cached (now : Q) (m : Mode) : Prop :=
  let m1 := fst (end_match now m) in
  let m2 := fst (end_match now m1) in
  (forall t, ts_rtc_mined (team_obj t m2) == ts_rtc_mined (team_obj t m1))
  /\ sum_rtc_mined (mr_team1 (snd (end_match now m1)))
     == sum_rtc_mined (mr_team1 (snd (end_match now m)))
  /\ sum_rtc_mined (mr_team2 (snd (end_match now m1)))
     == sum_rtc_mined (mr_team2 (snd (end_match now m))).

(** Calls whose ticks have a length in [0, D]. *)
Definition call_ok (D : Q) (c : Call) : bool :=
  match c with
  | CUpdate _ dt => Qle_bool 0 dt && Qle_bool dt D
  | _ => true
  end.

(** A short match: Boris holds the point alone for two ticks of two
    seconds. *)
Definition demo_calls : list Call :=
  [ CStart 1000; CAddPlayer "Boris" "team1"; CAddPlayer "Player1" "team2";
    CEnter "Boris"; CUpdate 1002 2; CUpdate 1004 2 ].

Definition demo : Mode := run demo_calls (init "Validators" "Attackers").

End Attack51.

(** * The steps of [process_kill], named *)
Module StyleSteps.
Import Style.

(** The killer's record when [process_kill] has finished with it: the
    kill is timed and counted, the bonuses are tallied, the points are
    added and the reward is paid at the new rank. *)
Definition killer_after (now : Q) (victim weapon : string) (claimed : bool)
    (player : PlayerStyle) : PlayerStyle :=
  let recent :=
    List.filter (fun t => Qltb (now - t) 10) (recent_kills player ++ [now]) in
  let streak := killstreak player + 1 in
  let best :=
    if best_streak player <? streak then streak else best_streak player in
  let '(lastk, weapons, combo, tally) :=
    kill_bonuses now victim weapon claimed recent (last_killer player)
      (weapons_used player) streak in
  let points' := points player + t_points tally in
  MkPlayerStyle (name player) points' (rank_scan points')
    (kills_this_life player + 1) (total_kills player + 1) (deaths player)
    now recent weapons lastk
    (total_rtc player
     + ((1 # 1000) + t_rtc tally)
       * cfg_multiplier (RANK_CONFIG (rank_scan points')))%Q
    streak best.

(** The victim's record after "Update victim". *)
Definition victim_after (killer : string) (p : PlayerStyle) : PlayerStyle :=
  let points' := points p / 2 in
  MkPlayerStyle (name p) points' (rank_scan points') 0 (total_kills p)
    (deaths p + 1) (last_kill_time p) [] ∅ killer (total_rtc p) 0
    (best_streak p).

(** The test of the combo loop: enough recent kills inside the combo's
    window. *)
Definition combo_hit (now : Q) (recent : list Q) (c : ComboDef) : bool :=
  combo_kills c
  <=? Z.of_nat
        (length (List.filter (fun t => Qltb (now - t) (combo_window c)) recent)).

(** Per-life and lifetime counters of a stored record. *)
Definition counters_ok (p : PlayerStyle) : Prop :=
  0 <= killstreak p /\ killstreak p <= best_streak p
  /\ kills_this_life p = killstreak p /\ killstreak p <= total_kills p
  /\ 0 <= deaths p.

(** Events other than a match reset. *)
Definition not_reset (e : Event) : bool :=
  match e with EvReset _ => false | _ => true end.

(** Every stored record satisfies [P]. *)
Definition all_players (P : PlayerStyle -> Prop) (s : StyleSystem) : Prop :=
  forall n p, players s !! n = Some p -> P p.

End StyleSteps.

(** * The per-player steps of the blood economy, named *)
Module BloodSteps.
Import Blood.
Local Open Scope Q_scope.

(** The attacker's state after [on_damage_dealt]. *)
Definition dealt_state (now damage : Q) (weapon : DamageType) (distance : Q)
    (headshot : bool) (state : BloodState) : BloodState :=
  let shield' :=
    py_min SHIELD_MAX
      (shield state + shield_gain damage weapon distance headshot) in
  MkBloodState shield' damage (last_damage_taken state) now
    (damage_dealt_total state + damage)
    (shield_gained_total state + (shield' - shield state))
    (decay_total state)
    (deque_append (MkHit now damage weapon distance) (recent_hits state))
    true now (kills_without_damage state).

(** The flat shield of a kill, with its three bonuses. *)
Definition kill_gain (weapon : DamageType) (distance : Q) (streak : Z) : Q :=
  KILL_SHIELD_BONUS
  + (if bool_decide (weapon = MELEE) then MELEE_KILL_SHIELD else 0)
  + (if Qle_bool distance CLOSE_RANGE then 15 else 0)
  + (if (3 <=? streak)%Z then 10 * inject_Z streak else 0).

(** The killer's state after [on_kill]. *)
Definition kill_state (now : Q) (weapon : DamageType) (distance : Q)
    (state : BloodState) : BloodState :=
  let shield' :=
    py_min SHIELD_MAX
      (shield state + kill_gain weapon distance (kills_without_damage state)) in
  MkBloodState shield' (last_damage_dealt state) (last_damage_taken state)
    now (damage_dealt_total state)
    (shield_gained_total state + (shield' - shield state))
    (decay_total state) (recent_hits state) (in_combat state)
    (combat_start state) (kills_without_damage state + 1)%Z.

(** The player's state after [on_damage_taken]. *)
Definition taken_state (damage : Q) (state : BloodState) : BloodState :=
  MkBloodState (shield state) (last_damage_dealt state) damage
    (last_action_time state) (damage_dealt_total state)
    (shield_gained_total state) (decay_total state) (recent_hits state)
    (in_combat state) (combat_start state) 0%Z.

(** The player's state after [on_death]. *)
Definition death_state (state : BloodState) : BloodState :=
  MkBloodState 0 (last_damage_dealt state) (last_damage_taken state)
    (last_action_time state) (damage_dealt_total state)
    (shield_gained_total state) (decay_total state) [] false
    (combat_start state) 0%Z.


(** Every stored state satisfies [P]. *)
Definition all_states (P : BloodState -> Prop) (s : BloodEconomy) : Prop :=
  forall n st, players s !! n = Some st -> P st.

(** An event whose damage amount, or whose tick length, satisfies
    [okq]; a run of such events. *)
Definition valid (okq : Q -> Prop) (s : BloodEconomy) (op : Op) : Prop :=
  match op with
  | OpDamageDealt _ _ _ d _ _ _ => okq d
  | OpUpdate now dt => okq (default (now - last_update s) dt)
  | _ => True
  end.

Fixpoint valid_run (okq : Q -> Prop) (ops : list Op) (s : BloodEconomy)
  : Prop :=
  match ops with
  | [] => True
  | op :: ops' => valid okq s op /\ valid_run okq ops' (step s op)
  end.

(** Whether a report lists an untouchable bonus. *)
Definition is_untouchable (b : Bonus) : bool :=
  match b with BonusUntouchable _ => true | _ => false end.

End BloodSteps.

(** * Runs of the 51% attack mode *)
Module Attack51Runs.
Import Attack51.
Local Open Scope Q_scope.






(** Calls other than [start_match]. *)
Definition not_start (c : Call) : bool :=
  match c with CStart _ => false | _ => true end.

(** Kills credited to the two teams, less deaths charged to them. *)
Definition kill_balance (m : Mode) : Z :=
  (ts_kills (team1 m) + ts_kills (team2 m)
   - ts_deaths (team1 m) - ts_deaths (team2 m))%Z.

(** Every name on the point is a registered player. *)
Definition on_point_registered (m : Mode) : Prop :=
  forall t n, n ∈ pt_get t (players_on_point m) -> is_Some (players m !! n).

(** A player's record after one tick of mining on the point, for a
    share [per_player] of the mined currency. *)
Definition paid (dt per_player : Q) (p : PlayerStats) : PlayerStats :=
  MkPlayerStats (ps_name p) (ps_team p) (ps_control_time p + dt)
    (ps_rtc_earned p + per_player) (ps_point_captures p)
    (ps_point_defenses p) (ps_kills_on_point p).

(** The control time of a team. *)
Definition control_time (t : TeamId) (m : Mode) : Q :=
  ts_control_time (team_obj t m).

(** The match phase together with the team that executed the attack. *)
Definition phase_state (m : Mode) : AttackPhase * option TeamId :=
  (phase m, attack_executed_by m).

(** The phase says "executed" exactly when an executor is recorded, and
    is never the defense rally. *)
Definition phase_ok (ps : AttackPhase * option TeamId) : Prop :=
  (fst ps = ATTACK_EXECUTED <-> snd ps <> None) /\ fst ps <> DEFENSE_RALLY.

(** The team counters and totals: kills, deaths, mined currency and
    control time of both teams. *)
Definition books (m : Mode) : (Z * Z * Z * Z) * (Q * Q * Q * Q) :=
  ((ts_kills (team1 m), ts_kills (team2 m),
    ts_deaths (team1 m), ts_deaths (team2 m)),
   (ts_rtc_mined (team1 m), ts_rtc_mined (team2 m),
    ts_control_time (team1 m), ts_control_time (team2 m))).

End Attack51Runs.

(** * rustchain_weapons.py *)
Module Weapons.

Local Open Scope Q_scope.

(** Entries of [self.weapons] that the handlers read. *)

(** [["forker"]["bonuses"]] *)
Definition forker_clean_merge_threshold : Z := 12.
Definition forker_clean_merge_rtc_bonus : Q := 5 # 10000.
Definition forker_clean_merge_message : string := "CLEAN MERGE".
Definition forker_hard_fork_min_targets : nat := 2.
Definition forker_hard_fork_rtc_bonus : Q := 1 # 1000.
Definition forker_hard_fork_message : string := "HARD FORK".

(** [["hashcannon"]["primary"]], [["mechanics"]] and [["bonuses"]] *)
Definition hashcannon_min_damage : Q := 40.
Definition hashcannon_max_damage : Q := 200.
Definition hashcannon_death_while_charging_penalty : Q := 1 # 100.
Definition hashcannon_golden_hash_rtc_bonus : Q := 5 # 1000.
Definition hashcannon_golden_hash_message : string := "GOLDEN HASH FOUND".
Definition hashcannon_quick_mine_rtc_bonus : Q := 1 # 1000.
Definition hashcannon_quick_mine_message : string := "EFFICIENT MINING".

(** [["mempool_grenade"]["primary"]], [["mechanics"]] and [["bonuses"]] *)
Definition mempool_base_damage : Q := 80.
Definition mempool_max_damage : Q := 150.
Definition mempool_growth : Q := 20.
Definition mempool_enemy_confirms_rtc_bonus : Q := 3 # 1000.
Definition mempool_enemy_confirms_message : string :=
  "ENEMY CONFIRMED YOUR TX".
Definition mempool_max_mempool_rtc_bonus : Q := 2 # 1000.
Definition mempool_max_mempool_message : string := "MAXIMUM GAS FEE".
Definition mempool_instant_confirm_rtc_bonus : Q := 1 # 1000.
Definition mempool_instant_confirm_message : string := "SELF-CONFIRMED".

(** [["double_spend"]["mechanics"]] and [["bonuses"]] *)
Definition double_spend_window : Q := 2.
Definition double_spend_rtc_bonus : Q := 4 # 1000.

(** The dictionary [mempool_throw] appends to [active_grenades]. *)
Record Grenade := MkGrenade {
  g_id : string;
  g_owner : string;
  g_position : Q * Q * Q;
  g_thrown_at : Q;
  g_base_damage : Z
}.

(** [@dataclass class WeaponState] *)
Record WeaponState := MkWeaponState {
  fork_pellets_hit : Z;
  fork_targets_hit : gset string;
  hashcannon_charge_start : Q;
  hashcannon_charging : bool;
  hashcannon_charge_lost_rtc : Q;
  active_grenades : list Grenade;
  last_doublespend_kill : Q;
  doublespend_available : bool;
  validator_node_position : option (Q * Q * Q);
  validator_node_time : Q;
  validator_scans_used : Z
}.

(** [WeaponState()] *)
Definition new_state : WeaponState :=
  MkWeaponState 0%Z ∅ 0 false 0 [] 0 false None 0 0%Z.

(** [class BlockchainWeapons]: the configuration is constant, the
    registry is the state. *)
Record BlockchainWeapons := MkWeapons {
  players : gmap string WeaponState
}.

(** [__init__] *)
Definition init : BlockchainWeapons := MkWeapons ∅.

(** [get_player]: "Get or create player weapon state" *)
Definition get_player (name : string) (s : BlockchainWeapons)
  : BlockchainWeapons * WeaponState :=
  match players s !! name with
  | Some st => (s, st)
  | None => (MkWeapons (<[name := new_state]> (players s)), new_state)
  end.

(** Assignment to the attributes of the state object of [name]. *)
Definition store (name : string) (st : WeaponState) (s : BlockchainWeapons)
  : BlockchainWeapons :=
  MkWeapons (<[name := st]> (players s)).

Definition set_charge (charging : bool) (start lost : Q) (st : WeaponState)
  : WeaponState :=
  MkWeaponState (fork_pellets_hit st) (fork_targets_hit st) start charging
    lost (active_grenades st) (last_doublespend_kill st)
    (doublespend_available st) (validator_node_position st)
    (validator_node_time st) (validator_scans_used st).

Definition set_grenades (gs : list Grenade) (st : WeaponState)
  : WeaponState :=
  MkWeaponState (fork_pellets_hit st) (fork_targets_hit st)
    (hashcannon_charge_start st) (hashcannon_charging st)
    (hashcannon_charge_lost_rtc st) gs (last_doublespend_kill st)
    (doublespend_available st) (validator_node_position st)
    (validator_node_time st) (validator_scans_used st).

Definition set_doublespend (last : Q) (available : bool) (st : WeaponState)
  : WeaponState :=
  MkWeaponState (fork_pellets_hit st) (fork_targets_hit st)
    (hashcannon_charge_start st) (hashcannon_charging st)
    (hashcannon_charge_lost_rtc st) (active_grenades st) last available
    (validator_node_position st) (validator_node_time st)
    (validator_scans_used st).

(** The [bonuses] and [rtc_bonus] entries of a returned dictionary. *)
Record Bonuses := MkBonuses {
  bonuses : list string;
  rtc_bonus : Q
}.

(** [forker_shot]: "Track a Forker shot and calculate bonuses" *)
Definition forker_shot (shooter : string) (pellets_hit : Z)
    (targets : list string) (s : BlockchainWeapons)
  : BlockchainWeapons * Bonuses :=
  let '(s1, _) := get_player shooter s in
  let r0 := MkBonuses [] 0 in
  let r1 :=
    if Nat.eqb (length targets) 1
       && (forker_clean_merge_threshold <=? pellets_hit)%Z
    then MkBonuses (bonuses r0 ++ [forker_clean_merge_message])
           (rtc_bonus r0 + forker_clean_merge_rtc_bonus)
    else r0 in
  let r2 :=
    if Nat.leb forker_hard_fork_min_targets
         (size (list_to_set targets : gset string))
    then MkBonuses (bonuses r1 ++ [forker_hard_fork_message])
           (rtc_bonus r1 + forker_hard_fork_rtc_bonus)
    else r1 in
  (s1, r2).

(** [hashcannon_start_charge]; the dictionary returned is constant. *)
Definition hashcannon_start_charge (now : Q) (player : string)
    (s : BlockchainWeapons) : BlockchainWeapons :=
  let '(s1, state) := get_player player s in
  store player (set_charge true now (hashcannon_charge_lost_rtc state) state)
    s1.

(** What [hashcannon_fire] returns: the error dictionary, or the shot. *)
Inductive FireResult :=
  | NotCharging
  | Fired (charge_percent damage : Q) (is_golden_hash : bool)
          (message : string).

(** [hashcannon_fire] *)
Definition hashcannon_fire (now : Q) (player : string)
    (s : BlockchainWeapons) : BlockchainWeapons * FireResult :=
  let '(s1, state) := get_player player s in
  if negb (hashcannon_charging state) then (s1, NotCharging)
  else
    let charge_time := now - hashcannon_charge_start state in
    let charge_percent := py_min 1 (charge_time / 3) in
    let s2 :=
      store player
        (set_charge false (hashcannon_charge_start state)
           (hashcannon_charge_lost_rtc state) state) s1 in
    let damage :=
      hashcannon_min_damage
      + (hashcannon_max_damage - hashcannon_min_damage) * charge_percent in
    let golden := Qle_bool (95 # 100) charge_percent in
    (s2, Fired charge_percent damage golden
           (if golden then "BLOCK FOUND" else "Hash computed")%string).

(** [hashcannon_death_while_charging]: the penalty charged, if any. *)
Definition hashcannon_death_while_charging (player : string)
    (s : BlockchainWeapons) : BlockchainWeapons * option Q :=
  let '(s1, state) := get_player player s in
  if hashcannon_charging state then
    let penalty := hashcannon_death_while_charging_penalty in
    (store player
       (set_charge false (hashcannon_charge_start state)
          (hashcannon_charge_lost_rtc state + penalty) state) s1,
     Some penalty)
  else (s1, None).

(** [hashcannon_kill]: reads no state. *)
Definition hashcannon_kill (charge_percent : Q) : Bonuses :=
  if Qle_bool (95 # 100) charge_percent
  then MkBonuses [hashcannon_golden_hash_message]
         (0 + hashcannon_golden_hash_rtc_bonus)
  else if Qltb charge_percent (5 # 10)
  then MkBonuses [hashcannon_quick_mine_message]
         (0 + hashcannon_quick_mine_rtc_bonus)
  else MkBonuses [] 0.

(** [mempool_throw]; the dictionary returned is constant but for the
    id. *)
Definition mempool_throw (now : Q) (player grenade_id : string)
    (position : Q * Q * Q) (s : BlockchainWeapons) : BlockchainWeapons :=
  let '(s1, state) := get_player player s in
  let grenade := MkGrenade grenade_id player position now 80 in
  store player (set_grenades (active_grenades state ++ [grenade]) state) s1.

(** The loop of [mempool_confirm] that finds the grenade. *)
Fixpoint find_grenade (grenade_id : string) (gs : list Grenade)
  : option Grenade :=
  match gs with
  | [] => None
  | g :: rest =>
      if bool_decide (g_id g = grenade_id) then Some g
      else find_grenade grenade_id rest
  end.

Record Confirmation := MkConfirmation {
  time_in_mempool : Q;
  damage : Q;
  c_bonuses : list string;
  c_rtc_bonus : Q
}.

Inductive ConfirmResult :=
  | GrenadeNotFound
  | Confirmed (c : Confirmation).

(** [mempool_confirm]: "Grenade is shot/confirmed" *)
Definition mempool_confirm (now : Q) (grenade_id confirmer owner : string)
    (s : BlockchainWeapons) : BlockchainWeapons * ConfirmResult :=
  let '(s1, state) := get_player owner s in
  match find_grenade grenade_id (active_grenades state) with
  | None => (s1, GrenadeNotFound)
  | Some grenade =>
      let t := now - g_thrown_at grenade in
      let damage0 :=
        py_min mempool_max_damage (mempool_base_damage + t * mempool_growth) in
      let r1 :=
        if bool_decide (confirmer <> owner)
        then MkConfirmation t (damage0 * (1 # 2))
               [mempool_enemy_confirms_message]
               (0 + mempool_enemy_confirms_rtc_bonus)
        else MkConfirmation t damage0 [mempool_instant_confirm_message]
               (0 + mempool_instant_confirm_rtc_bonus) in
      let r2 :=
        if Qle_bool 3 t
        then MkConfirmation t (damage r1)
               (c_bonuses r1 ++ [mempool_max_mempool_message])
               (c_rtc_bonus r1 + mempool_max_mempool_rtc_bonus)
        else r1 in
      let rest :=
        List.filter (fun g => negb (bool_decide (g_id g = grenade_id)))
          (active_grenades state) in
      (store owner (set_grenades rest state) s1, Confirmed r2)
  end.

(** [doublespend_kill]: the bonuses, and whether the dictionary carries
    [double_spend_available]. *)
Definition doublespend_kill (now : Q) (killer : string)
    (s : BlockchainWeapons) : BlockchainWeapons * (Bonuses * bool) :=
  let '(s1, state) := get_player killer s in
  if doublespend_available state
     && Qle_bool (now - last_doublespend_kill state) double_spend_window
  then
    (store killer (set_doublespend (last_doublespend_kill state) false state)
       s1,
     (MkBonuses ["DOUBLE SPEND ATTACK"%string] (0 + double_spend_rtc_bonus),
      false))
  else
    (store killer (set_doublespend now true state) s1,
     (MkBonuses [] 0, true)).

(** [doublespend_fire]: the [is_free_shot] entry ([ammo_refunded] is
    the same). *)
Definition doublespend_fire (now : Q) (player : string)
    (s : BlockchainWeapons) : BlockchainWeapons * bool :=
  let '(s1, state) := get_player player s in
  (s1,
   doublespend_available state
   && Qle_bool (now - last_doublespend_kill state) double_spend_window).

(** [reset_player]: "Reset player weapon state (on death/respawn)" *)
Definition reset_player (player : string) (s : BlockchainWeapons)
  : BlockchainWeapons :=
  match players s !! player with
  | None => s
  | Some state =>
      store player
        (set_doublespend (last_doublespend_kill state) false
           (set_charge false (hashcannon_charge_start state)
              (hashcannon_charge_lost_rtc state) state)) s
  end.

(** [reset_match] *)
Definition reset_match (s : BlockchainWeapons) : BlockchainWeapons :=
  MkWeapons ∅.

End Weapons.

(** * rustchain_progression.py *)
Module Progression.

Local Open Scope Q_scope.

Record Rank := MkRank {
  rk_name : string;
  rk_rtc : Q;
  rk_kills : Z;
  rk_color : string
}.

Definition RANKS : list Rank :=
  [ MkRank "Unranked" 0 0 "^7";
    MkRank "Recruit" (1 # 100) 10 "^8";
    MkRank "Miner" (1 # 10) 100 "^3";
    MkRank "Node Runner" 1 1000 "^2";
    MkRank "Validator" 10 10000 "^4";
    MkRank "Block Producer" 100 100000 "^6";
    MkRank "Chain Master" 1000 1000000 "^1";
    MkRank "Genesis Elite" 10000 10000000 "^5" ].

(** The loop of [get_rank] over a ladder, from the rank held so far. *)
Definition scan_ranks (rtc : Q) (ladder : list Rank) (current : Rank)
  : Rank :=
  fold_left (fun cur r => if Qle_bool (rk_rtc r) rtc then r else cur)
    ladder current.

(** [get_rank]; [RANKS[0]] is the first entry of the table. *)
Definition get_rank (rtc : Q) : Rank :=
  scan_ranks rtc RANKS (List.hd (MkRank "" 0 0 "") RANKS).

(** The loop of [print_profile] that finds the next rank. *)
Definition next_rank (rtc : Q) : option Rank :=
  List.find (fun r => Qltb rtc (rk_rtc r)) RANKS.

End Progression.

(** * Facts about the built-ins *)

Lemma Qltb_lt a b : Qltb a b = true <-> (a < b)%Q.
Proof.
  unfold Qltb. rewrite negb_true_iff. split.
  - intros H. apply Qnot_le_lt. intros Hle.
    apply Qle_bool_iff in Hle. congruence.
  - intros H. destruct (Qle_bool b a) eqn:E; [|reflexivity].
    apply Qle_bool_iff in E. exfalso. apply (Qlt_not_le _ _ H E).
Qed.

Lemma Qltb_ge a b : Qltb a b = false <-> (b <= a)%Q.
Proof.
  unfold Qltb. rewrite negb_false_iff. apply Qle_bool_iff.
Qed.

Lemma py_max_spec a b :
  ((a < b)%Q /\ py_max a b = b) \/ ((b <= a)%Q /\ py_max a b = a).
Proof.
  unfold py_max. destruct (Qltb a b) eqn:E.
  - left. split; [now apply Qltb_lt | reflexivity].
  - right. split; [now apply Qltb_ge | reflexivity].
Qed.

Lemma py_min_spec a b :
  ((b < a)%Q /\ py_min a b = b) \/ ((a <= b)%Q /\ py_min a b = a).
Proof.
  unfold py_min. destruct (Qltb b a) eqn:E.
  - left. split; [now apply Qltb_lt | reflexivity].
  - right. split; [now apply Qltb_ge | reflexivity].
Qed.


Lemma Qle_bool_false a b : Qle_bool a b = false -> (b < a)%Q.
Proof.
  intros H. apply Qnot_le_lt. intros Hle.
  apply Qle_bool_iff in Hle. congruence.
Qed.

Lemma div_unit (x c : Q) :
  (0 < c -> 0 <= x -> x <= c -> 0 <= x / c /\ x / c <= 1)%Q.
Proof.
  intros Hc H0 H1. split.
  - apply Qle_shift_div_l; lra.
  - apply Qle_shift_div_r; lra.
Qed.

(** Truncation moves a number by less than one. *)
Lemma py_int_close (x : Q) :
  (inject_Z (py_int x) - 1 < x /\ x < inject_Z (py_int x) + 1)%Q.
Proof.
  destruct x as [a b]. unfold py_int. cbn [Qnum Qden].
  pose proof (Z.quot_rem' a (Zpos b)) as Hqr.
  pose proof (Z.rem_bound_abs a (Zpos b) ltac:(lia)) as Hr.
  unfold Qlt, Qminus, Qplus, Qopp, inject_Z. cbn [Qnum Qden].
  rewrite !Pos.mul_1_l. nia.
Qed.

(** * Properties of the style system *)
Module StyleFacts.
Import Style.

(** The scan picks the highest rank whose threshold the points reach. *)
Lemma rank_scan_highest pts : 0 <= pts -> is_highest_rank (rank_scan pts) pts.
Proof.
  intros H. unfold rank_scan, is_highest_rank. cbn.
  repeat (match goal with
          | |- context [?a <=? ?b] => destruct (Z.leb_spec a b)
          end; cbn);
    (split; [lia | intros r'; destruct r'; cbn; lia]).
Qed.


Lemma new_player_ok n : player_ok (new_player n).
Proof. split; [cbn; lia | reflexivity]. Qed.

Lemma add_points_ok pts p :
  0 <= points p -> 0 <= pts -> player_ok (fst (add_points pts p)).
Proof. intros Hp Hn. split; cbn; [lia | reflexivity]. Qed.

Lemma on_death_ok p : 0 <= points p -> player_ok (on_death p).
Proof.
  intros Hp. split; cbn; [|reflexivity].
  apply Z.div_pos; lia.
Qed.

Lemma decay_ok dt p : player_ok p -> player_ok (decay dt p).
Proof.
  intros Hp. unfold decay. destruct (decide (rank p = D_DORMANT)); [exact Hp|].
  split; cbn; [lia | reflexivity].
Qed.


Lemma first_combo_bonus now recent c :
  first_combo now recent (sorted_combos COMBOS) = Some c -> 0 <= combo_bonus c.
Proof.
  change (sorted_combos COMBOS) with
    [ MkCombo 5 (6 # 1) 500 "G O D L I K E"; MkCombo 4 (5 # 1) 300 "ULTRA KILL";
      MkCombo 3 (4 # 1) 150 "TRIPLE KILL"; MkCombo 2 (3 # 1) 50 "DOUBLE KILL" ].
  cbn [first_combo].
  repeat (match goal with
          | |- context [if ?b then _ else _] => destruct b
          end);
    intros [= <-] || intros [=]; cbn; lia.
Qed.

Lemma streak_bonuses_points k label pts rtc :
  streak_bonuses k = Some (label, pts, rtc) -> 0 <= pts.
Proof.
  unfold streak_bonuses.
  repeat (match goal with
          | |- context [if ?b then _ else _] => destruct b
          end);
    intros [=]; lia.
Qed.

(** A kill is worth at least the 100 base points. *)
Lemma kill_bonuses_points now victim weapon claimed recent lastk weapons streak :
  100 <= t_points
           (snd (kill_bonuses now victim weapon claimed recent lastk weapons
                   streak)).
Proof.
  unfold kill_bonuses. cbn [snd].
  set (t0 := MkTally 100 0%Q []).
  set (t1 := if claimed then t0 else add_special first_blood t0).
  assert (H1 : 100 <= t_points t1) by (subst t1 t0; destruct claimed; cbn; lia).
  set (t2 := if String.eqb lastk victim then add_special revenge t1 else t1).
  assert (H2 : 100 <= t_points t2)
    by (subst t2; destruct (String.eqb lastk victim); cbn; lia).
  set (t3 := if str_contains "Boris" victim then add_special boss_kill_boris t2
             else if str_contains "Sophia" victim
                  then add_special boss_kill_sophia t2 else t2).
  assert (H3 : 100 <= t_points t3)
    by (subst t3; destruct (str_contains "Boris" victim);
        [|destruct (str_contains "Sophia" victim)]; cbn; lia).
  match goal with
  | |- context [if ?c then MkTally (t_points t3 + ?v) ?r ?l else t3] =>
      set (t4 := if c then MkTally (t_points t3 + v) r l else t3);
      assert (H4 : 100 <= t_points t4)
        by (subst t4; destruct c; cbn; unfold WEAPON_VARIETY_BONUS; lia)
  end.
  destruct (first_combo now recent (sorted_combos COMBOS)) as [c|] eqn:Ec.
  - pose proof (first_combo_bonus _ _ _ Ec) as Hc.
    destruct (streak_bonuses streak) as [[[label pts] rtc]|] eqn:Es.
    + pose proof (streak_bonuses_points _ _ _ _ Es). cbn. lia.
    + cbn. lia.
  - destruct (streak_bonuses streak) as [[[label pts] rtc]|] eqn:Es.
    + pose proof (streak_bonuses_points _ _ _ _ Es). cbn. lia.
    + cbn. lia.
Qed.

Lemma get_player_ok n s :
  sys_ok s -> sys_ok (fst (get_player n s)) /\ player_ok (snd (get_player n s)).
Proof.
  intros Hs. unfold get_player.
  destruct (players s !! n) as [p|] eqn:E; cbn.
  - split; [exact Hs | eapply Hs, E].
  - split; [|apply new_player_ok].
    intros k q. cbn [set_players players]. rewrite lookup_insert.
    case_decide; [intros [= <-]; apply new_player_ok | apply Hs].
Qed.

Lemma process_kill_ok now killer victim weapon s :
  sys_ok s -> sys_ok (fst (process_kill now killer victim weapon s)).
Proof.
  intros Hs. unfold process_kill.
  destruct (get_player_ok killer s Hs) as [Hs1 Hp].
  destruct (get_player killer s) as [s1 player]. cbn [fst snd] in Hs1, Hp.
  destruct (get_player_ok victim s1 Hs1) as [Hs2 _].
  destruct (get_player victim s1) as [s2 vp]. cbn [fst snd] in Hs2.
  pose proof (kill_bonuses_points now victim weapon (first_blood_claimed s2)
    (List.filter (fun t => Qltb (now - t) 10) (recent_kills player ++ [now]))
    (last_killer player) (weapons_used player) (killstreak player + 1)) as Hb.
  destruct (kill_bonuses _ _ _ _ _ _ _ _) as [[[lastk weapons] combo] tally].
  cbn [snd] in Hb. cbn [add_points fst snd].
  match goal with
  | |- context [<[killer := ?x]> (players s2)] => set (p2 := x)
  end.
  assert (Hp2 : player_ok p2).
  { destruct Hp as [Hp _]. subst p2. split; cbn; [lia | reflexivity]. }
  set (reg := <[killer := p2]> (players s2)).
  assert (Hreg : forall n q, reg !! n = Some q -> player_ok q).
  { intros n q. subst reg. rewrite lookup_insert.
    case_decide; [intros [= <-]; exact Hp2 | apply Hs2]. }
  intros n q. cbn [players]. rewrite lookup_insert.
  case_decide; [|apply Hreg].
  intros [= <-].
  assert (Hv : 0 <= points (default (new_player victim) (reg !! victim))).
  { destruct (reg !! victim) as [v|] eqn:Ev; cbn; [|lia].
    apply (Hreg _ _ Ev). }
  split; cbn; [|reflexivity].
  apply Z.div_pos; [exact Hv | lia].
Qed.

Lemma update_ok now s : sys_ok s -> sys_ok (update now s).
Proof.
  intros Hs n q. cbn [update players]. rewrite lookup_fmap.
  destruct (players s !! n) as [p|] eqn:E; cbn; [|discriminate].
  intros [= <-]. apply decay_ok. eapply Hs, E.
Qed.

Lemma step_ok s e : sys_ok s -> sys_ok (step s e).
Proof.
  intros Hs. destruct e; cbn [step].
  - now apply process_kill_ok.
  - now apply update_ok.
  - exact Hs.
Qed.

Lemma run_ok evs : forall s, sys_ok s -> sys_ok (run evs s).
Proof.
  induction evs as [|e evs IH]; intros s Hs; [exact Hs|].
  cbn. apply IH. now apply step_ok.
Qed.

(** C3: in every state the system reaches from its creation through
    kills, decay updates and match resets, each player's rank is the
    highest configured rank whose threshold is at most the player's
    points. *)
Theorem rank_is_highest_reached start evs n p :
  players (run evs (init start)) !! n = Some p ->
  is_highest_rank (rank p) (points p).
Proof.
  intros Hn.
  assert (Hok : sys_ok (run evs (init start))).
  { apply run_ok. intros k q. cbn. rewrite lookup_empty. discriminate. }
  destruct (Hok _ _ Hn) as [Hpts Hrank].
  rewrite Hrank. now apply rank_scan_highest.
Qed.

Lemma rank_is_highest_reached_witness :
  exists p,
    players
      (run [EvKill 1 "a" "b" "gun"; EvKill 2 "a" "b" "rail"; EvUpdate 5;
            EvKill 6 "b" "a" "gun"] (init 0)) !! "a"%string = Some p
    /\ points p = 212 /\ rank p = C_CALCULATING
    /\ is_highest_rank (rank p) (points p).
Proof.
  eexists. split; [vm_compute; reflexivity|].
  split; [reflexivity|]. split; [reflexivity|].
  eapply (rank_is_highest_reached 0
            [EvKill 1 "a" "b" "gun"; EvKill 2 "a" "b" "rail"; EvUpdate 5;
             EvKill 6 "b" "a" "gun"] "a").
  vm_compute. reflexivity.
Defined.

(** C4: [process_kill] recomputes the killer's rank from the new point
    total before it reads the multiplier, so the reward is
    (base + bonus) times the multiplier of the rank after the kill; a
    killer on 700 points whose kill is worth 150 style points ends on
    850, stays Attacking and is paid at 2.0. *)
Theorem process_kill_pays_new_rank :
  (forall now killer victim weapon s,
      let r := snd (process_kill now killer victim weapon s) in
      let before := points (snd (get_player killer s)) in
      r_rank_after r = rank_scan (before + r_style_points r)
      /\ r_multiplier r = cfg_multiplier (RANK_CONFIG (r_rank_after r))
      /\ r_total_rtc r = ((r_base_rtc r + r_bonus_rtc r) * r_multiplier r)%Q)
  /\ (let r := snd (process_kill 10 "killer" "victim" "rocket" at_700) in
      r_style_points r = 150
      /\ r_rank_before r = A_ATTACKING
      /\ r_rank_after r = A_ATTACKING
      /\ r_multiplier r = (2 # 1)%Q
      /\ (r_total_rtc r == r_base_rtc r * (2 # 1))%Q
      /\ ~ (r_total_rtc r == r_base_rtc r * (3 # 1))%Q).
Proof.
  split.
  - intros now killer victim weapon s. unfold process_kill.
    destruct (get_player killer s) as [s1 player].
    destruct (get_player victim s1) as [s2 vp].
    destruct (kill_bonuses _ _ _ _ _ _ _ _) as [[[lastk weapons] combo] tally].
    cbn. repeat split.
  - cbv zeta. repeat split; try (vm_compute; reflexivity).
    vm_compute. discriminate.
Qed.

(** C5 as stated fails: [process_kill] has no guard of its own, and a
    call with the killer as victim credits the kill, pays the reward and
    then applies the death reset to the same record. *)
Lemma process_kill_self_kill_mutates :
  ~ self_kill_is_noop 1 "a" "gun" (init 0).
Proof.
  unfold self_kill_is_noop. intros H.
  apply (f_equal (fun s => total_kills <$> players s !! "a"%string)) in H.
  vm_compute in H. discriminate.
Qed.

(** C5, amended: the guard is in the log loop of [main], which hands a
    matched kill line to [process_kill] only when killer and victim are
    non-empty and differ; a line whose killer is its victim, or with an
    empty name, changes no state and yields no reward. *)
Theorem main_ignores_self_kill now k v weapon s :
  main_kill_line now k k weapon s = (s, None)
  /\ main_kill_line now "" v weapon s = (s, None)
  /\ main_kill_line now k "" weapon s = (s, None).
Proof.
  unfold main_kill_line. repeat split.
  all: rewrite ?String.eqb_refl; cbn; rewrite ?andb_false_r; reflexivity.
Qed.

(** C9 as stated fails: a Calculating player on 150 points decayed for
    a quarter of a second loses 2 points, not 2.5. *)
Lemma decay_not_exact :
  ~ decay_is_exact (1 # 4)
      (MkPlayerStyle "a" 150 C_CALCULATING 1 1 0 0%Q [] ∅ "" 0%Q 1 1).
Proof.
  unfold decay_is_exact. intros H.
  specialize (H ltac:(discriminate)).
  vm_compute in H. discriminate.
Qed.

(** C9, amended: a Dormant player is left unchanged; for any other
    player [decay] subtracts [decay_rate * dt] truncated to an integer
    (which differs from the product by less than one point), floors the
    points at 0, and sets the rank to the one the threshold scan finds
    for the new points. *)
Theorem decay_truncates dt p :
  (rank p = D_DORMANT /\ decay dt p = p)
  \/ (rank p <> D_DORMANT
      /\ let lost :=
           py_int (inject_Z (cfg_decay_rate (RANK_CONFIG (rank p))) * dt) in
         points (decay dt p) = Z.max 0 (points p - lost)
         /\ rank (decay dt p) = rank_scan (points (decay dt p))
         /\ is_highest_rank (rank (decay dt p)) (points (decay dt p))
         /\ (inject_Z lost - 1
             < inject_Z (cfg_decay_rate (RANK_CONFIG (rank p))) * dt)%Q
         /\ (inject_Z (cfg_decay_rate (RANK_CONFIG (rank p))) * dt
             < inject_Z lost + 1)%Q).
Proof.
  unfold decay. destruct (decide (rank p = D_DORMANT)) as [E|E].
  - left. now split.
  - right. split; [exact E|]. cbn.
    split; [reflexivity|]. split; [reflexivity|].
    split; [apply rank_scan_highest; lia|].
    apply py_int_close.
Qed.

End StyleFacts.

(** * Properties of the blood economy *)
Module BloodFacts.
Import Blood.
Local Open Scope Q_scope.



(** The distance multiplier stays between the long-range floor and the
    close-range value. *)
Lemma distance_mult_range d : 1 # 2 <= distance_mult d /\ distance_mult d <= 3.
Proof.
  unfold distance_mult, CLOSE_RANGE, MID_RANGE, LONG_RANGE,
    CLOSE_RANGE_MULTIPLIER.
  destruct (Qle_bool d 300) eqn:E1; [lra|].
  apply Qle_bool_false in E1.
  destruct (Qle_bool d 800) eqn:E2.
  - apply Qle_bool_iff in E2.
    destruct (div_unit (d - 300) (800 - 300)); [lra | lra | lra |].
    cbv zeta. lra.
  - apply Qle_bool_false in E2.
    assert (0 <= (d - 800) / (1500 - 800))
      by (apply Qle_shift_div_l; lra).
    cbv zeta.
    destruct (py_min_spec 1 ((d - 800) / (1500 - 800))) as [[H1 ->]|[H1 ->]];
      lra.
Qed.

Lemma weapon_bonus_pos w : 0 < WEAPON_RANGE_BONUS w.
Proof. destruct w; reflexivity. Qed.

Lemma shield_gain_nonneg damage w distance hs :
  0 <= damage -> 0 <= shield_gain damage w distance hs.
Proof.
  intros Hd. unfold shield_gain.
  assert (H : 0 <= damage * DAMAGE_TO_SHIELD_RATIO * distance_mult distance
              * WEAPON_RANGE_BONUS w).
  { repeat apply Qmult_le_0_compat.
    - exact Hd.
    - unfold DAMAGE_TO_SHIELD_RATIO. lra.
    - destruct (distance_mult_range distance). lra.
    - apply Qlt_le_weak, weapon_bonus_pos. }
  destruct hs; unfold HEADSHOT_BONUS; lra.
Qed.

(** Capping a shield that was in range after a non-negative gain keeps
    it in range, and does not lower it. *)
Lemma capped_gain sh gain :
  0 <= sh -> sh <= SHIELD_MAX -> 0 <= gain ->
  sh <= py_min SHIELD_MAX (sh + gain)
  /\ py_min SHIELD_MAX (sh + gain) <= SHIELD_MAX.
Proof.
  intros H0 H1 Hg.
  destruct (py_min_spec SHIELD_MAX (sh + gain)) as [[H ->]|[H ->]]; lra.
Qed.

Lemma get_player_bounded now n s :
  shields_bounded s ->
  0 <= shield (get_player now n s) /\ shield (get_player now n s) <= SHIELD_MAX.
Proof.
  intros Hs. unfold get_player.
  destruct (players s !! n) as [st|] eqn:E; cbn.
  - eapply Hs, E.
  - unfold SHIELD_MAX. lra.
Qed.

(** Storing a state whose shield is in range keeps the registry in
    range. *)
Lemma insert_bounded n st (reg : gmap string BloodState) :
  (forall k q, reg !! k = Some q -> 0 <= shield q /\ shield q <= SHIELD_MAX) ->
  0 <= shield st /\ shield st <= SHIELD_MAX ->
  forall k q, <[n := st]> reg !! k = Some q ->
              0 <= shield q /\ shield q <= SHIELD_MAX.
Proof.
  intros Hreg Hst k q. rewrite lookup_insert.
  case_decide; [intros [= <-]; exact Hst | apply Hreg].
Qed.

Lemma on_damage_dealt_bounded now a v damage w distance hs s :
  0 <= damage -> shields_bounded s ->
  shields_bounded (fst (on_damage_dealt now a v damage w distance hs s)).
Proof.
  intros Hd Hs. unfold shields_bounded, on_damage_dealt. cbn [fst players].
  apply insert_bounded; [exact Hs|]. cbn [shield].
  destruct (get_player_bounded now a s Hs) as [H0 H1].
  destruct (capped_gain _ _ H0 H1 (shield_gain_nonneg damage w distance hs Hd)).
  split; lra.
Qed.

Lemma on_kill_bounded now k v w distance s :
  shields_bounded s -> shields_bounded (fst (on_kill now k v w distance s)).
Proof.
  intros Hs. unfold shields_bounded, on_kill. cbn [fst players].
  apply insert_bounded; [exact Hs|]. cbn [shield].
  destruct (get_player_bounded now k s Hs) as [H0 H1].
  match goal with
  | |- context [py_min SHIELD_MAX (_ + ?g)] =>
      assert (Hg : 0 <= g); [|destruct (capped_gain _ _ H0 H1 Hg); split; lra]
  end.
  unfold KILL_SHIELD_BONUS, MELEE_KILL_SHIELD.
  assert (Hu : 0 <= (if (3 <=? kills_without_damage (get_player now k s))%Z
                     then 10 * inject_Z (kills_without_damage (get_player now k s))
                     else 0)).
  { destruct (Z.leb_spec 3 (kills_without_damage (get_player now k s)));
      [|lra].
    assert (inject_Z 3 <= inject_Z (kills_without_damage (get_player now k s)))
      by (rewrite <- Zle_Qle; assumption).
    change (inject_Z 3) with 3 in *. lra. }
  destruct (bool_decide (w = MELEE)), (Qle_bool distance CLOSE_RANGE); lra.
Qed.

Lemma on_damage_taken_bounded now p damage a s :
  shields_bounded s -> shields_bounded (fst (on_damage_taken now p damage a s)).
Proof.
  intros Hs. unfold shields_bounded, on_damage_taken. cbn [fst players].
  apply insert_bounded; [exact Hs|]. cbn [shield].
  apply get_player_bounded, Hs.
Qed.

Lemma on_death_bounded now p s :
  shields_bounded s -> shields_bounded (fst (on_death now p s)).
Proof.
  intros Hs. unfold shields_bounded, on_death. cbn [fst players].
  apply insert_bounded; [exact Hs|]. cbn [shield].
  unfold SHIELD_MAX. lra.
Qed.

Lemma update_player_bounded now dt st :
  0 <= dt -> 0 <= shield st /\ shield st <= SHIELD_MAX ->
  0 <= shield (fst (update_player now dt st))
  /\ shield (fst (update_player now dt st)) <= SHIELD_MAX.
Proof.
  intros Hdt [H0 H1]. unfold update_player.
  destruct (Qltb 0 (shield st) && is_decaying now st); cbn; [|lra].
  unfold SHIELD_DECAY_RATE.
  destruct (py_max_spec 0 (shield st - 2 * dt)) as [[H ->]|[H ->]];
    unfold SHIELD_MAX in *; lra.
Qed.

Lemma update_bounded now dt s :
  0 <= default (now - last_update s) dt ->
  shields_bounded s -> shields_bounded (fst (update now dt s)).
Proof.
  intros Hdt Hs n q. unfold update. cbn [fst players].
  rewrite !lookup_fmap.
  destruct (players s !! n) as [st|] eqn:E; cbn; [|discriminate].
  intros [= <-]. apply update_player_bounded; [exact Hdt|].
  eapply Hs, E.
Qed.

Lemma step_bounded s op :
  op_ok s op = true -> shields_bounded s -> shields_bounded (step s op).
Proof.
  intros Hok Hs. destruct op; cbn [step op_ok] in *.
  - apply on_damage_dealt_bounded; [now apply Qle_bool_iff | exact Hs].
  - now apply on_kill_bounded.
  - now apply on_damage_taken_bounded.
  - now apply on_death_bounded.
  - apply update_bounded; [now apply Qle_bool_iff | exact Hs].
Qed.

Lemma run_bounded ops :
  forall s, run_ok ops s = true -> shields_bounded s ->
            shields_bounded (run ops s).
Proof.
  induction ops as [|op ops IH]; intros s Hok Hs; [exact Hs|].
  cbn in Hok. apply andb_true_iff in Hok as [Hop Hrest].
  cbn. apply IH; [exact Hrest | now apply step_bounded].
Qed.

(** C2 as stated fails: a damage-dealt event with a negative damage
    amount drives the attacker's shield below 0. *)
Lemma negative_damage_breaks_bound :
  ~ shields_bounded
      (run [OpDamageDealt 1 "a" "b" (-100) MACHINEGUN 800 false] (init 0)).
Proof.
  intros H.
  destruct (H "a"%string _ ltac:(vm_compute; reflexivity)) as [Hlo _].
  vm_compute in Hlo. apply Hlo. reflexivity.
Qed.

(** C2, amended: after any sequence of damage-dealt, kill, damage-taken,
    death and decay-update events in which every damage-dealt amount
    and every tick length is non-negative, every player's shield lies
    in [0, 100]. *)
Theorem shield_stays_in_range start ops :
  run_ok ops (init start) = true ->
  shields_bounded (run ops (init start)).
Proof.
  intros Hok. apply run_bounded; [exact Hok|].
  intros n st. cbn. rewrite lookup_empty. discriminate.
Qed.

Lemma shield_stays_in_range_witness :
  run_ok
    [OpDamageDealt 1 "a" "b" 60 MELEE 100 false; OpKill 2 "a" "b" MELEE 100;
     OpDamageTaken 3 "b" 60 "a"; OpDeath 3 "b"; OpUpdate 9 (Some 1);
     OpUpdate 10 None] (init 0) = true
  /\ shield_of 10 "a"
       (run [OpDamageDealt 1 "a" "b" 60 MELEE 100 false] (init 0)) == 100
  /\ shields_bounded
       (run
          [OpDamageDealt 1 "a" "b" 60 MELEE 100 false;
           OpKill 2 "a" "b" MELEE 100; OpDamageTaken 3 "b" 60 "a";
           OpDeath 3 "b"; OpUpdate 9 (Some 1); OpUpdate 10 None] (init 0)).
Proof.
  split; [vm_compute; reflexivity|]. split; [vm_compute; reflexivity|].
  apply (shield_stays_in_range 0
           [OpDamageDealt 1 "a" "b" 60 MELEE 100 false;
            OpKill 2 "a" "b" MELEE 100; OpDamageTaken 3 "b" 60 "a";
            OpDeath 3 "b"; OpUpdate 9 (Some 1); OpUpdate 10 None]).
  vm_compute. reflexivity.
Defined.

(** C6 as stated fails: a negative damage amount is not treated as
    zero; it lowers the attacker's shield. *)
Lemma negative_damage_lowers_shield :
  ~ negative_input_is_zeroed 1 "a" "b" (-100) MACHINEGUN 800 false (init 0).
Proof.
  intros [_ H]. vm_compute in H. apply H. reflexivity.
Qed.

(** C6, amended: no damage-dealt event is rejected; the attacker's
    shield becomes min(100, shield + gain) with the gain computed from
    the damage as given.  A negative distance falls in the close-range
    branch, so it gets the multiplier of distance zero.  The damage is
    not clamped: only for a damage amount that is not negative is the
    attacker's shield (at most 100 before) sure not to decrease. *)
Theorem damage_dealt_shield now a v damage w distance hs s :
  shield_of now a (fst (on_damage_dealt now a v damage w distance hs s))
  = py_min SHIELD_MAX (shield_of now a s + shield_gain damage w distance hs)
  /\ distance_mult distance = distance_mult (py_max 0 distance)
  /\ (0 <= damage -> shield_of now a s <= SHIELD_MAX ->
      shield_of now a s
      <= shield_of now a
           (fst (on_damage_dealt now a v damage w distance hs s))).
Proof.
  assert (E : shield_of now a
                (fst (on_damage_dealt now a v damage w distance hs s))
              = py_min SHIELD_MAX
                  (shield_of now a s + shield_gain damage w distance hs)).
  { unfold shield_of at 1. unfold get_player at 1, on_damage_dealt.
    cbn [fst players]. rewrite lookup_insert_eq. reflexivity. }
  split; [exact E|]. split.
  - destruct (py_max_spec 0 distance) as [[H ->]|[H ->]]; [reflexivity|].
    unfold distance_mult.
    replace (Qle_bool distance CLOSE_RANGE) with true; [reflexivity|].
    symmetry. apply Qle_bool_iff. unfold CLOSE_RANGE. lra.
  - intros Hd Hmax. rewrite E.
    pose proof (shield_gain_nonneg damage w distance hs Hd) as Hg.
    destruct (py_min_spec SHIELD_MAX
                (shield_of now a s + shield_gain damage w distance hs))
      as [[H ->]|[H ->]]; lra.
Qed.

Lemma damage_dealt_shield_witness :
  shield_of 1 "a"
    (fst (on_damage_dealt 1 "a" "b" 60 MELEE (-5) false (init 0)))
  = py_min SHIELD_MAX
      (shield_of 1 "a" (init 0) + shield_gain 60 MELEE (-5) false)
  /\ distance_mult (-5) = distance_mult (py_max 0 (-5))
  /\ shield_of 1 "a" (init 0)
     <= shield_of 1 "a"
          (fst (on_damage_dealt 1 "a" "b" 60 MELEE (-5) false (init 0))).
Proof.
  destruct (damage_dealt_shield 1 "a" "b" 60 MELEE (-5) false (init 0))
    as (Hcap & Hdist & Hmono).
  split; [exact Hcap|]. split; [exact Hdist|].
  apply Hmono; vm_compute; discriminate.
Defined.

(** C10: the report of [on_damage_taken] always has [untouchable_lost]
    false, whatever the streak was, because the streak is zeroed before
    the field is computed. *)
Theorem untouchable_lost_always_false now player damage attacker s :
  tr_untouchable_lost (snd (on_damage_taken now player damage attacker s))
  = false
  /\ kills_without_damage
       (get_player now player
          (fst (on_damage_taken now player damage attacker s))) = 0%Z.
Proof.
  unfold on_damage_taken, get_player. cbn [fst snd players].
  rewrite lookup_insert_eq. split; reflexivity.
Qed.

End BloodFacts.

(** * Properties of the 51% attack mode *)
Module Attack51Facts.
Import Attack51.
Local Open Scope Q_scope.

(** ** The control point *)


Ltac split_inv :=
  repeat match goal with
         | H : _ /\ _ |- _ => destruct H
         end;
  repeat split; intros; try congruence; try lra; try tauto.

Ltac use_short :=
  match goal with
  | H : ?c -> ?p < 3 |- _ =>
      let G := fresh in
      assert (G : p < 3) by (apply H; congruence); clear H
  end.

Lemma process_capture_inv D now team dt m :
  0 <= dt -> dt <= D -> inv D (ctrl m) ->
  inv D (ctrl (_process_capture now team dt m)).
Proof.
  intros H0 HD Hinv. unfold _process_capture.
  destruct (decide (controlling_team m = Some team)) as [E|E]; [exact Hinv|].
  destruct (decide (controlling_team m = Some (other_team team))) as [E'|E'].
  - (* the enemy controls *)
    revert Hinv. unfold ctrl, inv, CONTROL_POINT_CAPTURE_TIME.
    destruct (Qle_bool (pt_get (other_team team) (capture_progress m) - dt) 0)
      eqn:Ep;
      [apply Qle_bool_iff in Ep | apply Qle_bool_false in Ep];
      cbn; rewrite E'; destruct team; cbn in *; intros Hinv; split_inv;
      repeat use_short; lra.
  - (* nobody controls *)
    assert (En : controlling_team m = None)
      by (destruct (controlling_team m) as [[|]|], team; cbn in *; congruence).
    revert Hinv. unfold ctrl, inv, CONTROL_POINT_CAPTURE_TIME.
    destruct (Qle_bool 3 (pt_get team (capture_progress m) + dt)) eqn:Ep;
      [apply Qle_bool_iff in Ep | apply Qle_bool_false in Ep];
      cbn; rewrite En; destruct team; cbn in *; intros Hinv; split_inv;
      repeat use_short; lra.
Qed.

Lemma occupy_inv D now dt m :
  0 <= dt -> dt <= D -> inv D (ctrl m) -> inv D (ctrl (fst (occupy now dt m))).
Proof.
  intros H0 HD Hinv. unfold occupy.
  destruct (0 <? size (pt_get Team1 (players_on_point m)))%nat;
    [destruct (0 <? size (pt_get Team2 (players_on_point m)))%nat|
     destruct (0 <? size (pt_get Team2 (players_on_point m)))%nat]; cbn [andb fst].
  - (* contested *)
    revert Hinv. unfold ctrl, inv, CONTROL_POINT_CAPTURE_TIME. cbn.
    destruct (py_max_spec 0 (at_team1 (capture_progress m) - dt * (5 # 10)))
      as [[? ->]|[? ->]];
      destruct (py_max_spec 0 (at_team2 (capture_progress m) - dt * (5 # 10)))
        as [[? ->]|[? ->]];
      intros Hinv; split_inv;
      match goal with
      | H : ?c -> ?p < 3, G : ?c |- _ => specialize (H G); lra
      end.
  - now apply process_capture_inv.
  - now apply process_capture_inv.
  - (* nobody on the point *)
    revert Hinv. unfold ctrl, inv, CONTROL_POINT_CAPTURE_TIME.
    cbn [set_progress control_state controlling_team capture_progress
         at_team1 at_team2].
    destruct (py_max_spec 0 (at_team1 (capture_progress m) - dt * (3 # 10)))
      as [[? E1]|[? E1]];
      destruct (py_max_spec 0 (at_team2 (capture_progress m) - dt * (3 # 10)))
        as [[? E2]|[? E2]];
      rewrite E1, E2;
      match goal with
      | |- context [if ?b then _ else _] => destruct b eqn:Eb
      end; cbn; intros Hinv; split_inv;
      try match goal with
          | H : ?c -> ?p < 3, G : ?c |- _ => specialize (H G); lra
          end;
      try (apply andb_true_iff in Eb as [Eb _];
           apply andb_true_iff in Eb as [Eb1 Eb2];
           apply Qeq_bool_iff in Eb1; apply Qeq_bool_iff in Eb2; lra).
Qed.

(** Mining, the phase check, settlement and the calls about players
    leave the control point alone. *)
Lemma mine_ctrl dt m : ctrl (mine dt m) = ctrl m.
Proof.
  unfold mine. destruct (controlling_team m) as [t|] eqn:E; [|reflexivity].
  destruct (0 <? size _)%nat; destruct t; reflexivity.
Qed.

Lemma check_phase_ctrl mt m : ctrl (fst (check_phase mt m)) = ctrl m.
Proof.
  unfold check_phase.
  repeat match goal with
         | |- context [if ?b then (_, _) else _] => destruct b
         end; reflexivity.
Qed.

Lemma apply_bonus_penalty_ctrl w m : ctrl (apply_bonus_penalty w m) = ctrl m.
Proof. destruct w as [[|]|]; reflexivity. Qed.

Lemma end_match_ctrl now m : ctrl (fst (end_match now m)) = ctrl m.
Proof.
  unfold end_match.
  destruct (determine_winner _ m) as [winner vt].
  destruct (distribute _) as [reg rewards]. cbn.
  apply apply_bonus_penalty_ctrl.
Qed.

Lemma tick_ctrl now dt m :
  ctrl (fst (tick now dt m)) = ctrl (fst (occupy now dt m)).
Proof.
  unfold tick. destruct (occupy now dt m) as [m1 evs].
  pose proof (check_phase_ctrl (now - match_start m) (mine dt m1)) as H.
  destruct (check_phase _ (mine dt m1)) as [m3 anns]. cbn [fst] in *.
  rewrite H. apply mine_ctrl.
Qed.

Lemma update_inv D now dt m :
  0 <= dt -> dt <= D -> inv D (ctrl m) -> inv D (ctrl (fst (update now dt m))).
Proof.
  intros H0 HD Hinv. unfold update.
  destruct (Qle_bool (match_duration m) (now - match_start m)).
  - pose proof (end_match_ctrl now m) as H.
    destruct (end_match now m) as [m' r]. cbn [fst] in *. now rewrite H.
  - pose proof (tick_ctrl now dt m) as H.
    destruct (tick now dt m) as [m' r]. cbn [fst] in *. rewrite H.
    now apply occupy_inv.
Qed.

Lemma on_kill_ctrl k v op m : ctrl (fst (on_kill k v op m)) = ctrl m.
Proof.
  unfold on_kill.
  destruct (players m !! k) as [ks|]; [|reflexivity].
  destruct (players m !! v) as [vs|]; [|reflexivity].
  destruct op; [|destruct (is_team1 (ps_team ks)), (is_team1 (ps_team vs));
                 reflexivity].
  destruct (key_of (ps_team vs)) as [t|];
    [destruct (bool_decide _)|];
    destruct (is_team1 (ps_team ks)), (is_team1 (ps_team vs)); reflexivity.
Qed.

Lemma enter_ctrl p m : ctrl (fst (player_enter_point p m)) = ctrl m.
Proof.
  unfold player_enter_point.
  destruct (players m !! p) as [q|]; [|reflexivity].
  destruct (key_of (ps_team q)); reflexivity.
Qed.

Lemma leave_ctrl p m : ctrl (fst (player_leave_point p m)) = ctrl m.
Proof.
  unfold player_leave_point.
  destruct (players m !! p) as [q|]; [|reflexivity].
  destruct (key_of (ps_team q)); reflexivity.
Qed.

Lemma fresh_inv D : 0 <= D -> inv D (NEUTRAL, None, MkPerTeam 0 0).
Proof.
  intros HD. unfold inv, CONTROL_POINT_CAPTURE_TIME. cbn.
  repeat split; intros; try congruence; lra.
Qed.

Lemma step_inv D m c :
  0 <= D -> call_ok D c = true -> inv D (ctrl m) -> inv D (ctrl (step m c)).
Proof.
  intros HD Hok Hinv. destruct c; cbn [step call_ok] in *.
  - now apply fresh_inv.
  - exact Hinv.
  - now rewrite enter_ctrl.
  - now rewrite leave_ctrl.
  - apply andb_true_iff in Hok as [H0 H1].
    apply Qle_bool_iff in H0. apply Qle_bool_iff in H1.
    now apply update_inv.
  - now rewrite on_kill_ctrl.
  - now rewrite end_match_ctrl.
Qed.

Lemma run_inv D cs :
  0 <= D -> forall m, forallb (call_ok D) cs = true -> inv D (ctrl m) ->
                      inv D (ctrl (run cs m)).
Proof.
  intros HD. induction cs as [|c cs IH]; intros m Hok Hinv; [exact Hinv|].
  cbn in Hok. apply andb_true_iff in Hok as [Hc Hcs].
  cbn. apply IH; [exact Hcs | now apply step_inv].
Qed.

(** C7 as stated fails: capturing adds the whole tick to the progress
    and does not cap it, so after two ticks of two seconds the capturing
    team's progress is 4, above the capture time 3. *)
Lemma capture_overshoots : ~ progress_in_range demo.
Proof.
  intros H. destruct (H Team1) as [_ Hhi].
  vm_compute in Hhi. apply Hhi. reflexivity.
Qed.

(** C7, amended: in every state reached from a new mode through driver
    calls whose ticks have a length between 0 and [D], at most one team
    is the controlling team and the control state names it; each team's
    capture progress is at least 0; it is below the capture time for a
    team that does not control, and below the capture time plus [D] for
    the team that does. *)
Theorem control_point_invariant D cs n1 n2 :
  0 <= D -> forallb (call_ok D) cs = true ->
  let m := run cs (init n1 n2) in
  (forall t1 t2,
      controlling_team m = Some t1 -> controlling_team m = Some t2 -> t1 = t2)
  /\ (control_state m = CONTROLLED_TEAM1 -> controlling_team m = Some Team1)
  /\ (control_state m = CONTROLLED_TEAM2 -> controlling_team m = Some Team2)
  /\ (control_state m = NEUTRAL -> controlling_team m = None)
  /\ forall t,
       0 <= pt_get t (capture_progress m)
       /\ (controlling_team m <> Some t ->
           pt_get t (capture_progress m) < CONTROL_POINT_CAPTURE_TIME)
       /\ pt_get t (capture_progress m) < CONTROL_POINT_CAPTURE_TIME + D.
Proof.
  intros HD Hok m.
  assert (Hinv : inv D (ctrl m))
    by (apply run_inv; [exact HD | exact Hok | now apply fresh_inv]).
  unfold inv, ctrl in Hinv.
  destruct Hinv as (HN & H1 & H2 & P1 & P2 & S1 & S2 & B1 & B2).
  split; [congruence|]. split; [exact H1|]. split; [exact H2|].
  split; [exact HN|].
  intros [|]; cbn; repeat split; assumption.
Qed.

Lemma control_point_invariant_witness :
  0 <= 2 /\ forallb (call_ok 2) demo_calls = true
  /\ control_state demo = CONTROLLED_TEAM1
  /\ pt_get Team1 (capture_progress demo) == 4
  /\ (forall t1 t2,
        controlling_team demo = Some t1 -> controlling_team demo = Some t2 ->
        t1 = t2)
  /\ (control_state demo = CONTROLLED_TEAM1 ->
      controlling_team demo = Some Team1)
  /\ (control_state demo = CONTROLLED_TEAM2 ->
      controlling_team demo = Some Team2)
  /\ (control_state demo = NEUTRAL -> controlling_team demo = None)
  /\ forall t,
       0 <= pt_get t (capture_progress demo)
       /\ (controlling_team demo <> Some t ->
           pt_get t (capture_progress demo) < CONTROL_POINT_CAPTURE_TIME)
       /\ pt_get t (capture_progress demo) < CONTROL_POINT_CAPTURE_TIME + 2.
Proof.
  split; [vm_compute; discriminate|]. split; [vm_compute; reflexivity|].
  split; [vm_compute; reflexivity|]. split; [vm_compute; reflexivity|].
  apply (control_point_invariant 2 demo_calls "Validators" "Attackers").
  - vm_compute. discriminate.
  - vm_compute. reflexivity.
Defined.

(** ** Ticks and settlement *)


Lemma process_capture_mined now team dt t m :
  mined t (_process_capture now team dt m) = mined t m.
Proof.
  unfold _process_capture.
  destruct (decide (controlling_team m = Some team)); [reflexivity|].
  destruct (decide (controlling_team m = Some (other_team team))).
  - destruct (Qle_bool _ 0); reflexivity.
  - destruct (Qle_bool CONTROL_POINT_CAPTURE_TIME _); [|reflexivity].
    destruct team, t; reflexivity.
Qed.

Lemma occupy_mined now dt t m : mined t (fst (occupy now dt m)) = mined t m.
Proof.
  unfold occupy.
  destruct (0 <? size (pt_get Team1 (players_on_point m)))%nat;
    [destruct (0 <? size (pt_get Team2 (players_on_point m)))%nat|
     destruct (0 <? size (pt_get Team2 (players_on_point m)))%nat];
    cbn [andb fst]; try apply process_capture_mined; try reflexivity.
  match goal with
  | |- context [if ?b then (_, _) else _] => destruct b
  end; reflexivity.
Qed.

(** Mining adds the mining rate times the tick to the controlling
    team's total and to no other. *)
Lemma mine_mined dt t m :
  mined t (mine dt m)
  = if decide (controlling_team m = Some t)
    then mined t m + RTC_MINING_RATE * dt else mined t m.
Proof.
  unfold mine. destruct (controlling_team m) as [c|] eqn:E.
  - destruct (0 <? size _)%nat; destruct c, t;
      destruct (decide _); first [reflexivity | congruence].
  - destruct (decide _); [congruence | reflexivity].
Qed.

Lemma check_phase_mined mt t m : mined t (fst (check_phase mt m)) = mined t m.
Proof.
  unfold check_phase.
  repeat match goal with
         | |- context [if ?b then (_, _) else _] => destruct b
         end; destruct t; reflexivity.
Qed.

Lemma ctrl_controlling m m' :
  ctrl m = ctrl m' -> controlling_team m = controlling_team m'.
Proof. unfold ctrl. congruence. Qed.

(** A tick moves a team's mined total by mining alone. *)
Lemma tick_mined now dt t m :
  mined t (fst (tick now dt m))
  = if decide (controlling_team (fst (tick now dt m)) = Some t)
    then mined t m + RTC_MINING_RATE * dt else mined t m.
Proof.
  unfold tick.
  pose proof (occupy_mined now dt t m) as Ho.
  destruct (occupy now dt m) as [m1 evs]. cbn [fst] in Ho.
  pose proof (check_phase_mined (now - match_start m) t (mine dt m1)) as Hc.
  pose proof (ctrl_controlling _ _
                (check_phase_ctrl (now - match_start m) (mine dt m1))) as Hk.
  destruct (check_phase _ (mine dt m1)) as [m3 anns]. cbn [fst] in *.
  rewrite Hc, Hk, (ctrl_controlling _ _ (mine_ctrl dt m1)), mine_mined, Ho.
  reflexivity.
Qed.

(** What settlement does to the teams, and what it leaves alone. *)
Lemma end_match_teams now m t :
  team_obj t (fst (end_match now m))
  = team_obj t
      (apply_bonus_penalty (fst (determine_winner (now - match_start m) m)) m).
Proof.
  unfold end_match.
  destruct (determine_winner _ m) as [winner vt].
  destruct (distribute _) as [reg rewards]. destruct t; reflexivity.
Qed.

Lemma end_match_mined now m t :
  mined t (fst (end_match now m))
  = mined t
      (apply_bonus_penalty (fst (determine_winner (now - match_start m) m)) m).
Proof. unfold mined. now rewrite end_match_teams. Qed.

Lemma apply_bonus_penalty_frame w m :
  match_start (apply_bonus_penalty w m) = match_start m
  /\ attack_executed_by (apply_bonus_penalty w m) = attack_executed_by m
  /\ winner_bonus_pool (apply_bonus_penalty w m) = winner_bonus_pool m
  /\ forall t, ts_control_time (team_obj t (apply_bonus_penalty w m))
               = ts_control_time (team_obj t m).
Proof.
  destruct w as [[|]|]; repeat split; intros []; reflexivity.
Qed.

Lemma end_match_frame now m :
  match_start (fst (end_match now m)) = match_start m
  /\ attack_executed_by (fst (end_match now m)) = attack_executed_by m
  /\ winner_bonus_pool (fst (end_match now m)) = winner_bonus_pool m
  /\ forall t, ts_control_time (team_obj t (fst (end_match now m)))
               = ts_control_time (team_obj t m).
Proof.
  destruct (apply_bonus_penalty_frame
              (fst (determine_winner (now - match_start m) m)) m)
    as (F1 & F2 & F3 & F4).
  repeat split; try (intros t; rewrite end_match_teams; apply F4);
    unfold end_match;
    destruct (determine_winner _ m) as [winner vt];
    destruct (distribute _) as [reg rewards]; cbn in *; assumption.
Qed.

Lemma determine_winner_frame mt m m' :
  attack_executed_by m' = attack_executed_by m ->
  (forall t, ts_control_time (team_obj t m') = ts_control_time (team_obj t m)) ->
  determine_winner mt m' = determine_winner mt m.
Proof.
  intros Ha Hc. unfold determine_winner, _get_control_percent.
  rewrite Ha, (Hc Team1), (Hc Team2). reflexivity.
Qed.

Lemma apply_bonus_penalty_mined w m :
  mined w (apply_bonus_penalty (Some w) m) = mined w m + winner_bonus_pool m
  /\ mined (other_team w) (apply_bonus_penalty (Some w) m)
     = mined (other_team w) m * LOSER_PENALTY.
Proof. destruct w; split; reflexivity. Qed.

(** C1 as stated fails: there is no settled flag and no cached result;
    a second [end_match] adds the bonus pool to the winner's total
    again (0.502 becomes 1.002). *)
Lemma second_end_match_pays_again : ~ second_end_match_is_cached 1010 demo.
Proof.
  intros [H _]. specialize (H Team1).
  vm_compute in H. discriminate.
Qed.

(** C1, amended: [end_match] keeps no record of having run.  Called
    again at the same clock reading it finds the same winner and, when
    there is one, adds the bonus pool to the winner's mined total and
    multiplies the loser's by the penalty factor a second time; only in
    a draw are the teams' mined totals the same after the second call
    as after the first. *)
Theorem end_match_twice now m :
  let m1 := fst (end_match now m) in
  let m2 := fst (end_match now m1) in
  let winner := fst (determine_winner (now - match_start m) m) in
  fst (determine_winner (now - match_start m1) m1) = winner
  /\ match winner with
     | Some w =>
         mined w m1 = mined w m + winner_bonus_pool m
         /\ mined w m2 = mined w m + winner_bonus_pool m + winner_bonus_pool m
         /\ mined (other_team w) m1 = mined (other_team w) m * LOSER_PENALTY
         /\ mined (other_team w) m2
            = mined (other_team w) m * LOSER_PENALTY * LOSER_PENALTY
     | None => forall t, mined t m1 = mined t m /\ mined t m2 = mined t m
     end.
Proof.
  cbv zeta.
  destruct (end_match_frame now m) as (F1 & F2 & F3 & F4).
  assert (W : determine_winner
                (now - match_start (fst (end_match now m)))
                (fst (end_match now m))
              = determine_winner (now - match_start m) m)
    by (rewrite F1; now apply determine_winner_frame).
  split; [now rewrite W|].
  pose proof (end_match_mined now m) as M1.
  pose proof (end_match_mined now (fst (end_match now m))) as M2.
  rewrite W in M2.
  destruct (fst (determine_winner (now - match_start m) m)) as [w|].
  - destruct (apply_bonus_penalty_mined w (fst (end_match now m))) as [A1 A2].
    destruct (apply_bonus_penalty_mined w m) as [B1 B2].
    rewrite !M2, A1, A2, F3, !M1, B1, B2. repeat split.
  - intros t. rewrite M2. cbn [apply_bonus_penalty]. rewrite M1.
    split; reflexivity.
Qed.

(** C8 as stated fails: [update] compares the elapsed time with the
    match duration itself, and a tick 700 seconds into a 600 second
    match returns the settlement. *)
Lemma update_settles_expired_match : ~ update_never_settles 1700 2 demo.
Proof.
  intros H. destruct (snd (update 1700 2 demo)) as [r|r] eqn:E.
  - vm_compute in E. discriminate.
  - now apply (H r).
Qed.

(** C8, amended: [update] has the timeout inside.  Once the elapsed
    time has reached the match duration it runs [end_match] and returns
    its settlement instead of ticking, so the bonus pool and the penalty
    are applied by that tick; before that it ticks, and a tick changes a
    team's mined total by mining alone (the mining rate times the tick
    for the controlling team, nothing for the other). *)
Theorem update_settles_on_expiry now dt m :
  (match_duration m <= now - match_start m ->
   update now dt m = (fst (end_match now m), Settled (snd (end_match now m)))
   /\ forall t,
        mined t (fst (update now dt m))
        = mined t
            (apply_bonus_penalty
               (fst (determine_winner (now - match_start m) m)) m))
  /\ (now - match_start m < match_duration m ->
      (exists r, snd (update now dt m) = Ticked r)
      /\ forall t,
           mined t (fst (update now dt m))
           = if decide (controlling_team (fst (update now dt m)) = Some t)
             then mined t m + RTC_MINING_RATE * dt else mined t m).
Proof.
  split; intros Ht.
  - assert (E : update now dt m
                = (fst (end_match now m), Settled (snd (end_match now m)))).
    { unfold update. apply Qle_bool_iff in Ht. rewrite Ht.
      now destruct (end_match now m). }
    split; [exact E|]. intros t. rewrite E. apply end_match_mined.
  - assert (E : update now dt m
                = (fst (tick now dt m), Ticked (snd (tick now dt m)))).
    { unfold update.
      destruct (Qle_bool (match_duration m) (now - match_start m)) eqn:Eb.
      - apply Qle_bool_iff in Eb. lra.
      - now destruct (tick now dt m). }
    rewrite E. cbn [fst snd]. split; [eauto|].
    intros t. apply tick_mined.
Qed.

Lemma update_settles_on_expiry_witness :
  (mined Team1 (fst (update 1700 2 demo)) == mined Team1 demo + (5 # 10)
   /\ exists r, snd (update 1700 2 demo) = Settled r)
  /\ (mined Team1 (fst (update 1006 2 demo))
      == mined Team1 demo + RTC_MINING_RATE * 2
      /\ exists r, snd (update 1006 2 demo) = Ticked r).
Proof.
  destruct (update_settles_on_expiry 1700 2 demo) as [Hexp _].
  destruct (update_settles_on_expiry 1006 2 demo) as [_ Htick].
  split.
  - destruct (Hexp ltac:(vm_compute; discriminate)) as [E Hm].
    split; [rewrite (Hm Team1); vm_compute; reflexivity|].
    rewrite E. eauto.
  - destruct (Htick ltac:(vm_compute; reflexivity)) as [Hr Hm].
    split; [|exact Hr].
    rewrite (Hm Team1). vm_compute. reflexivity.
Defined.

End Attack51Facts.

(** * More about the style system *)
Module StyleMore.
Import Style StyleSteps StyleFacts.

(** The registry after [process_kill]: the killer's record is replaced
    first, and the victim's record is computed from the registry that
    already holds it. *)
Lemma process_kill_players now killer victim weapon s :
  let s2 := fst (get_player victim (fst (get_player killer s))) in
  let reg :=
    <[killer := killer_after now victim weapon (first_blood_claimed s)
                  (snd (get_player killer s))]> (players s2) in
  players (fst (process_kill now killer victim weapon s))
  = <[victim := victim_after killer
                  (default (new_player victim) (reg !! victim))]> reg.
Proof.
  cbv zeta. unfold process_kill, killer_after.
  assert (Hf : forall n t, first_blood_claimed (fst (get_player n t))
                           = first_blood_claimed t)
    by (intros n t; unfold get_player; destruct (players t !! n); reflexivity).
  pose proof (Hf killer s) as H1.
  destruct (get_player killer s) as [s1 player]. cbn [fst snd] in *.
  pose proof (Hf victim s1) as H2.
  destruct (get_player victim s1) as [s2 vp]. cbn [fst snd] in *.
  rewrite H2, H1.
  destruct (kill_bonuses _ _ _ _ _ _ _ _) as [[[lastk weapons] combo] tally].
  reflexivity.
Qed.

(** The registry the two [get_player] calls leave: the old one, with a
    fresh record for a name that was missing. *)
Lemma get_player_lookup n s k :
  players (fst (get_player n s)) !! k
  = if decide (n = k) then Some (snd (get_player n s)) else players s !! k.
Proof.
  unfold get_player. destruct (players s !! n) as [p|] eqn:E; cbn.
  - case_decide; [subst; exact E | reflexivity].
  - rewrite lookup_insert. case_decide; reflexivity.
Qed.

Lemma get_player_snd_other n k s :
  n <> k -> snd (get_player k (fst (get_player n s))) = snd (get_player k s).
Proof.
  intros Hne. unfold get_player at 1 3.
  rewrite get_player_lookup. case_decide; [congruence|].
  destruct (players s !! k); reflexivity.
Qed.

Lemma rank_scan_mono a b :
  a <= b -> rank_value (rank_scan a) <= rank_value (rank_scan b).
Proof.
  intros Hab. unfold rank_scan. cbn.
  repeat (match goal with
          | |- context [?x <=? ?y] => destruct (Z.leb_spec x y)
          end; cbn); lia.
Qed.

(** X1: the rank the scan finds never goes down when the points go up. *)
Theorem rank_scan_monotone a b :
  a <= b -> rank_value (rank_scan a) <= rank_value (rank_scan b).
Proof.
  intros Hab. unfold rank_scan. cbn.
  repeat (match goal with
          | |- context [?x <=? a] => destruct (Z.leb_spec x a)
          end; cbn);
    repeat (match goal with
            | |- context [?x <=? b] => destruct (Z.leb_spec x b)
            end; cbn);
    lia.
Qed.

Lemma rank_scan_monotone_witness :
  rank_value (rank_scan 599) <= rank_value (rank_scan 600)
  /\ rank_scan 599 = B_BUILDING /\ rank_scan 600 = A_ATTACKING.
Proof.
  split; [apply (rank_scan_monotone 599 600); lia|].
  split; reflexivity.
Defined.

(** A property of player records that the three record updates keep
    holds of every record the system ever stores. *)
Section RegistryInvariant.
Variable P : PlayerStyle -> Prop.
Hypothesis P_new : forall n, P (new_player n).
Hypothesis P_killer :
  forall now victim weapon claimed p,
    P p -> P (killer_after now victim weapon claimed p).
Hypothesis P_victim : forall killer p, P p -> P (victim_after killer p).
Hypothesis P_decay : forall dt p, P p -> P (decay dt p).

Lemma get_player_all n s :
  all_players P s -> all_players P (fst (get_player n s)) /\ P (snd (get_player n s)).
Proof.
  intros Hs. unfold get_player.
  destruct (players s !! n) as [p|] eqn:E; cbn.
  - split; [exact Hs | eapply Hs, E].
  - split; [|apply P_new].
    intros k q. cbn [set_players players]. rewrite lookup_insert.
    case_decide; [intros [= <-]; apply P_new | apply Hs].
Qed.

Lemma process_kill_all now killer victim weapon s :
  all_players P s -> all_players P (fst (process_kill now killer victim weapon s)).
Proof.
  intros Hs n q. rewrite process_kill_players.
  destruct (get_player_all killer s Hs) as [Hs1 Hp].
  destruct (get_player_all victim _ Hs1) as [Hs2 _].
  set (reg := <[killer := _]> _).
  assert (Hreg : forall k x, reg !! k = Some x -> P x).
  { intros k x. subst reg. rewrite lookup_insert.
    case_decide; [intros [= <-]; now apply P_killer | apply Hs2]. }
  rewrite lookup_insert. case_decide; [|apply Hreg].
  intros [= <-]. apply P_victim.
  destruct (reg !! victim) as [x|] eqn:E; cbn; [eapply Hreg, E | apply P_new].
Qed.

Lemma run_all evs :
  forall s, all_players P s -> all_players P (run evs s).
Proof.
  induction evs as [|e evs IH]; intros s Hs; [exact Hs|].
  cbn. apply IH. destruct e; cbn [step].
  - now apply process_kill_all.
  - intros n q. cbn [update players]. rewrite lookup_fmap.
    destruct (players s !! n) as [x|] eqn:E; cbn; [|discriminate].
    intros [= <-]. apply P_decay. eapply Hs, E.
  - exact Hs.
Qed.

Lemma reachable_all start evs n p :
  players (run evs (init start)) !! n = Some p -> P p.
Proof.
  apply (run_all evs (init start)).
  intros k q. cbn. rewrite lookup_empty. discriminate.
Qed.
End RegistryInvariant.

Lemma killer_after_counts now victim weapon claimed p :
  killstreak (killer_after now victim weapon claimed p) = killstreak p + 1
  /\ kills_this_life (killer_after now victim weapon claimed p)
     = kills_this_life p + 1
  /\ total_kills (killer_after now victim weapon claimed p) = total_kills p + 1
  /\ deaths (killer_after now victim weapon claimed p) = deaths p
  /\ best_streak (killer_after now victim weapon claimed p)
     = Z.max (best_streak p) (killstreak p + 1).
Proof.
  unfold killer_after.
  destruct (kill_bonuses _ _ _ _ _ _ _ _) as [[[lastk weapons] combo] tally].
  cbn. repeat split.
  destruct (Z.ltb_spec (best_streak p) (killstreak p + 1)); lia.
Qed.

(** X2: in every state the system reaches, a player's current streak is
    between 0 and the best streak, equals the kills of this life, and
    is at most the lifetime kills. *)
Theorem counters_consistent start evs n p :
  players (run evs (init start)) !! n = Some p -> counters_ok p.
Proof.
  apply reachable_all.
  - intros k. unfold counters_ok. cbn. lia.
  - intros now victim weapon claimed q (H1 & H2 & H3 & H4 & H5).
    destruct (killer_after_counts now victim weapon claimed q)
      as (E1 & E2 & E3 & E4 & E5).
    unfold counters_ok. rewrite E1, E2, E3, E4, E5. lia.
  - intros killer q (H1 & H2 & H3 & H4 & H5). unfold counters_ok. cbn. lia.
  - intros dt q H. unfold decay.
    destruct (decide (rank q = D_DORMANT)); [exact H | exact H].
Qed.

Lemma counters_consistent_witness :
  exists p,
    players
      (run [EvKill 1 "a" "b" "gun"; EvKill 2 "a" "c" "gun";
            EvKill 3 "b" "a" "gun"; EvKill 4 "a" "b" "gun"] (init 0))
    !! "a"%string = Some p
    /\ killstreak p = 1 /\ best_streak p = 2 /\ total_kills p = 3
    /\ counters_ok p.
Proof.
  eexists. split; [vm_compute; reflexivity|].
  split; [reflexivity|]. split; [reflexivity|]. split; [reflexivity|].
  eapply (counters_consistent 0
            [EvKill 1 "a" "b" "gun"; EvKill 2 "a" "c" "gun";
             EvKill 3 "b" "a" "gun"; EvKill 4 "a" "b" "gun"] "a").
  vm_compute. reflexivity.
Defined.

(** The dictionary [process_kill] returns, in terms of the bonus
    section. *)
Lemma process_kill_result now killer victim weapon s :
  let player := snd (get_player killer s) in
  let recent :=
    List.filter (fun t => Qltb (now - t) 10) (recent_kills player ++ [now]) in
  let kb :=
    kill_bonuses now victim weapon (first_blood_claimed s) recent
      (last_killer player) (weapons_used player) (killstreak player + 1) in
  let rank' := rank_scan (points player + t_points (snd kb)) in
  snd (process_kill now killer victim weapon s)
  = MkKillResult killer victim weapon (1 # 1000) (t_rtc (snd kb))
      (t_points (snd kb)) (t_bonuses (snd kb)) (combo_name <$> snd (fst kb))
      (rank player) rank' (rank_value (rank player) <? rank_value rank')
      (cfg_multiplier (RANK_CONFIG rank'))
      (((1 # 1000) + t_rtc (snd kb)) * cfg_multiplier (RANK_CONFIG rank'))%Q.
Proof.
  cbv zeta. unfold process_kill.
  assert (Hf : forall n t, first_blood_claimed (fst (get_player n t))
                           = first_blood_claimed t)
    by (intros n t; unfold get_player; destruct (players t !! n); reflexivity).
  pose proof (Hf killer s) as H1.
  destruct (get_player killer s) as [s1 player]. cbn [fst snd] in *.
  pose proof (Hf victim s1) as H2.
  destruct (get_player victim s1) as [s2 vp]. cbn [fst snd] in *.
  rewrite H2, H1.
  destruct (kill_bonuses _ _ _ _ _ _ _ _) as [[[lastk weapons] combo] tally].
  reflexivity.
Qed.

(** The bonus list starts with first blood and revenge, when earned;
    nothing after them carries either name. *)
Lemma kill_bonuses_shape now victim weapon claimed recent lastk weapons streak :
  exists tail,
    t_bonuses
      (snd (kill_bonuses now victim weapon claimed recent lastk weapons streak))
    = ((if claimed then [] else [BonusNamed "FIRST BLOOD"])
       ++ (if String.eqb lastk victim then [BonusNamed "REVENGE"] else [])
       ++ tail)%list
    /\ Forall (fun b => b <> BonusNamed "FIRST BLOOD"
                        /\ b <> BonusNamed "REVENGE") tail.
Proof.
  unfold kill_bonuses. cbn [snd].
  destruct claimed, (String.eqb lastk victim),
    (str_contains "Boris" victim), (str_contains "Sophia" victim),
    (streak_bonuses streak) as [[[label pts] rtc]|],
    (first_combo now recent (sorted_combos COMBOS)) as [c|];
    match goal with
    | |- context [if ?b then MkTally _ _ _ else _] => destruct b
    end; cbn;
    (eexists; split; [reflexivity | repeat constructor; discriminate]).
Qed.

Lemma killer_after_last_killer now victim weapon claimed p :
  last_killer (killer_after now victim weapon claimed p)
  = if String.eqb (last_killer p) victim then ""%string else last_killer p.
Proof.
  unfold killer_after, kill_bonuses.
  destruct (String.eqb (last_killer p) victim); reflexivity.
Qed.

(** After a kill, the victim's stored record names the killer. *)
Lemma victim_record now a b w s :
  snd (get_player b (fst (process_kill now a b w s)))
  = victim_after a
      (default (new_player b)
         (<[a := killer_after now b w (first_blood_claimed s)
                   (snd (get_player a s))]>
            (players (fst (get_player b (fst (get_player a s))))) !! b)).
Proof.
  unfold get_player at 1. rewrite process_kill_players.
  cbv zeta. rewrite lookup_insert_eq. reflexivity.
Qed.

(** X3: a player who is killed and then kills the one who killed them
    gets the revenge bonus on that kill, and the grudge is cleared by
    it. *)
Theorem revenge_is_awarded now1 now2 a b w1 w2 s :
  a <> b ->
  let s1 := fst (process_kill now1 a b w1 s) in
  let out := process_kill now2 b a w2 s1 in
  In (BonusNamed "REVENGE") (r_bonuses (snd out))
  /\ last_killer <$> players (fst out) !! b = Some ""%string.
Proof.
  intros Hab s1 out.
  assert (Hlk : last_killer (snd (get_player b s1)) = a).
  { subst s1. rewrite victim_record. reflexivity. }
  split.
  - subst out. rewrite process_kill_result. cbn [r_bonuses].
    match goal with
    | |- In _ (t_bonuses (snd (kill_bonuses ?n ?v ?w ?c ?r ?l ?ws ?k))) =>
        destruct (kill_bonuses_shape n v w c r l ws k) as (tail & -> & _)
    end.
    rewrite Hlk, String.eqb_refl.
    apply in_or_app. right. now left.
  - subst out. rewrite process_kill_players. cbv zeta.
    rewrite lookup_insert_ne by congruence.
    rewrite lookup_insert_eq. cbn [fmap option_fmap option_map].
    rewrite killer_after_last_killer, Hlk, String.eqb_refl. reflexivity.
Qed.

Lemma revenge_is_awarded_witness :
  In (BonusNamed "REVENGE")
    (r_bonuses
       (snd (process_kill 2 "b" "a" "gun"
               (fst (process_kill 1 "a" "b" "gun" (init 0))))))
  /\ last_killer
       <$> players
             (fst (process_kill 2 "b" "a" "gun"
                     (fst (process_kill 1 "a" "b" "gun" (init 0)))))
           !! "b"%string
     = Some ""%string.
Proof.
  apply (revenge_is_awarded 1 2 "a" "b" "gun" "gun" (init 0)).
  discriminate.
Defined.

Lemma process_kill_claims now killer victim weapon s :
  first_blood_claimed (fst (process_kill now killer victim weapon s)) = true.
Proof.
  unfold process_kill.
  destruct (get_player killer s) as [s1 player].
  destruct (get_player victim s1) as [s2 vp].
  destruct (kill_bonuses _ _ _ _ _ _ _ _) as [[[lastk weapons] combo] tally].
  reflexivity.
Qed.

Lemma step_keeps_claim s e :
  not_reset e = true -> first_blood_claimed s = true ->
  first_blood_claimed (step s e) = true.
Proof.
  intros He Hs. destruct e; cbn in *; try discriminate.
  - apply process_kill_claims.
  - exact Hs.
Qed.

Lemma run_keeps_claim evs :
  forall s, forallb not_reset evs = true -> first_blood_claimed s = true ->
            first_blood_claimed (run evs s) = true.
Proof.
  induction evs as [|e evs IH]; intros s He Hs; [exact Hs|].
  cbn in He. apply andb_true_iff in He as [He1 He2].
  cbn. apply IH; [exact He2 | now apply step_keeps_claim].
Qed.

(** X4: first blood is paid once.  The first kill of a match carries
    the bonus, and no kill after it does, whatever kills and decay
    updates come in between, until the match is reset. *)
Theorem first_blood_is_paid_once now1 now2 k1 v1 w1 k2 v2 w2 evs s :
  forallb not_reset evs = true ->
  let s1 := fst (process_kill now1 k1 v1 w1 s) in
  ~ In (BonusNamed "FIRST BLOOD")
      (r_bonuses (snd (process_kill now2 k2 v2 w2 (run evs s1))))
  /\ (first_blood_claimed s = false ->
      In (BonusNamed "FIRST BLOOD")
        (r_bonuses (snd (process_kill now1 k1 v1 w1 s)))).
Proof.
  intros Hev s1. split.
  - assert (Hc : first_blood_claimed (run evs s1) = true).
    { apply run_keeps_claim; [exact Hev | apply process_kill_claims]. }
    rewrite process_kill_result. cbn [r_bonuses]. rewrite Hc.
    match goal with
    | |- ~ In _ (t_bonuses (snd (kill_bonuses ?n ?v ?w ?c ?r ?l ?ws ?k))) =>
        destruct (kill_bonuses_shape n v w c r l ws k) as (tail & -> & Ht)
    end.
    cbn [app]. intros Hin.
    assert (Hin' : In (BonusNamed "FIRST BLOOD") tail).
    { apply in_app_or in Hin as [Hin|Hin]; [|exact Hin].
      destruct (String.eqb _ _); cbn in Hin; [|contradiction].
      destruct Hin as [Hin|[]]. discriminate. }
    rewrite Forall_forall in Ht. apply list_elem_of_In, Ht in Hin'.
    now destruct Hin'.
  - intros Hf. rewrite process_kill_result. cbn [r_bonuses]. rewrite Hf.
    match goal with
    | |- In _ (t_bonuses (snd (kill_bonuses ?n ?v ?w ?c ?r ?l ?ws ?k))) =>
        destruct (kill_bonuses_shape n v w c r l ws k) as (tail & -> & _)
    end.
    now left.
Qed.

Lemma first_blood_is_paid_once_witness :
  ~ In (BonusNamed "FIRST BLOOD")
      (r_bonuses
         (snd (process_kill 9 "c" "a" "rail"
                 (run [EvUpdate 3; EvKill 4 "b" "c" "gun"]
                    (fst (process_kill 1 "a" "b" "gun" (init 0)))))))
  /\ (first_blood_claimed (init 0) = false ->
      In (BonusNamed "FIRST BLOOD")
        (r_bonuses (snd (process_kill 1 "a" "b" "gun" (init 0))))).
Proof.
  apply (first_blood_is_paid_once 1 9 "a" "b" "gun" "c" "a" "rail"
           [EvUpdate 3; EvKill 4 "b" "c" "gun"] (init 0)).
  reflexivity.
Defined.

(** X5: the combo loop reports the combo with the largest kill count
    among those the recent kills satisfy, and none when they satisfy
    none. *)
Theorem highest_combo_only now recent :
  match first_combo now recent (sorted_combos COMBOS) with
  | Some c =>
      In c COMBOS /\ combo_hit now recent c = true
      /\ forall c', In c' COMBOS -> combo_kills c < combo_kills c' ->
                    combo_hit now recent c' = false
  | None => forall c', In c' COMBOS -> combo_hit now recent c' = false
  end.
Proof.
  change (sorted_combos COMBOS) with
    [ MkCombo 5 (6 # 1) 500 "G O D L I K E"; MkCombo 4 (5 # 1) 300 "ULTRA KILL";
      MkCombo 3 (4 # 1) 150 "TRIPLE KILL"; MkCombo 2 (3 # 1) 50 "DOUBLE KILL" ].
  unfold combo_hit, COMBOS. cbn [first_combo combo_kills combo_window].
  repeat match goal with
         | |- context [if ?b then Some _ else _] =>
             let E := fresh "E" in destruct b eqn:E
         end;
    cbn [In combo_kills combo_window];
    repeat split; try tauto;
    intros c' Hc'; repeat destruct Hc' as [<-|Hc']; try contradiction;
    cbn [combo_kills combo_window]; try assumption; try lia.
Qed.

Lemma first_combo_kills now recent c :
  first_combo now recent (sorted_combos COMBOS) = Some c ->
  (0 <= inject_Z (combo_kills c))%Q.
Proof.
  change (sorted_combos COMBOS) with
    [ MkCombo 5 (6 # 1) 500 "G O D L I K E"; MkCombo 4 (5 # 1) 300 "ULTRA KILL";
      MkCombo 3 (4 # 1) 150 "TRIPLE KILL"; MkCombo 2 (3 # 1) 50 "DOUBLE KILL" ].
  cbn [first_combo].
  repeat match goal with
         | |- context [if ?b then Some _ else _] => destruct b
         end;
    intros E; inversion E; subst; cbn; discriminate.
Qed.

Lemma streak_bonuses_rtc k label pts rtc :
  streak_bonuses k = Some (label, pts, rtc) -> (0 <= rtc)%Q.
Proof.
  unfold streak_bonuses.
  repeat (match goal with
          | |- context [if ?b then _ else _] => destruct b
          end);
    intros [=]; subst; discriminate.
Qed.

(** The bonus currency of a kill is never negative. *)
Lemma kill_bonuses_rtc now victim weapon claimed recent lastk weapons streak :
  (0 <= t_rtc
          (snd (kill_bonuses now victim weapon claimed recent lastk weapons
                  streak)))%Q.
Proof.
  unfold kill_bonuses. cbn [snd].
  destruct (streak_bonuses streak) as [[[label pts] rtc]|] eqn:Es;
    [pose proof (streak_bonuses_rtc _ _ _ _ Es)|];
    (destruct (first_combo now recent (sorted_combos COMBOS)) as [c|] eqn:Ec;
     [pose proof (first_combo_kills _ _ _ Ec)|]);
    destruct claimed, (String.eqb lastk victim),
      (str_contains "Boris" victim), (str_contains "Sophia" victim);
    match goal with
    | |- context [if ?b then MkTally _ _ _ else _] => destruct b
    end; cbn; lra.
Qed.

Lemma multiplier_range r :
  (1 <= cfg_multiplier (RANK_CONFIG r) /\ cfg_multiplier (RANK_CONFIG r) <= 5)%Q.
Proof. destruct r; cbn; split; discriminate. Qed.

(** X6: every kill is worth at least the 100 base points and pays at
    least the base reward of 0.001; the multiplier applied lies between
    1 and 5 and the reward is at most five times base plus bonus. *)
Theorem kill_reward_bounds now killer victim weapon s :
  let r := snd (process_kill now killer victim weapon s) in
  100 <= r_style_points r
  /\ (r_base_rtc r == 1 # 1000)%Q
  /\ (0 <= r_bonus_rtc r)%Q
  /\ (1 <= r_multiplier r)%Q /\ (r_multiplier r <= 5)%Q
  /\ (r_base_rtc r <= r_total_rtc r)%Q
  /\ (r_total_rtc r <= 5 * (r_base_rtc r + r_bonus_rtc r))%Q.
Proof.
  cbv zeta. rewrite process_kill_result.
  cbn [r_style_points r_base_rtc r_bonus_rtc r_multiplier r_total_rtc].
  match goal with
  | |- context [kill_bonuses ?n ?v ?w ?c ?rc ?l ?ws ?k] =>
      pose proof (kill_bonuses_points n v w c rc l ws k) as Hp;
      pose proof (kill_bonuses_rtc n v w c rc l ws k) as Hr;
      set (kb := kill_bonuses n v w c rc l ws k) in *
  end.
  match goal with
  | |- context [cfg_multiplier (RANK_CONFIG ?x)] =>
      destruct (multiplier_range x) as [M1 M2];
      set (mult := cfg_multiplier (RANK_CONFIG x)) in *
  end.
  repeat split; try assumption; try reflexivity; nra.
Qed.

Lemma py_int_nonneg x : (0 <= x)%Q -> 0 <= py_int x.
Proof.
  destruct x as [a b]. unfold Qle, py_int. cbn. intros H.
  apply Z.quot_pos; lia.
Qed.

Lemma decay_rate_nonneg r : 0 <= cfg_decay_rate (RANK_CONFIG r).
Proof. destruct r; cbn; lia. Qed.

(** X7: a decay over a time that is not negative never adds points and
    never raises the rank of a player whose rank matched the points. *)
Theorem decay_never_raises dt p :
  (0 <= dt)%Q -> player_ok p ->
  0 <= points (decay dt p) /\ points (decay dt p) <= points p
  /\ rank_value (rank (decay dt p)) <= rank_value (rank p).
Proof.
  intros Hdt [Hp Hr]. unfold decay.
  destruct (decide (rank p = D_DORMANT)); [lia|]. cbn.
  assert (Hl : 0 <= py_int (inject_Z (cfg_decay_rate (RANK_CONFIG (rank p)))
                            * dt)).
  { apply py_int_nonneg. apply Qmult_le_0_compat; [|exact Hdt].
    rewrite <- (Zle_Qle 0). apply decay_rate_nonneg. }
  split; [lia|]. split; [lia|].
  rewrite (f_equal rank_value Hr). apply rank_scan_mono. lia.
Qed.

Lemma decay_never_raises_witness :
  points (decay (3 # 2) (MkPlayerStyle "a" 610 A_ATTACKING 1 1 0 0%Q [] ∅ "" 0%Q 1 1))
  = 573
  /\ rank (decay (3 # 2) (MkPlayerStyle "a" 610 A_ATTACKING 1 1 0 0%Q [] ∅ "" 0%Q 1 1))
     = B_BUILDING
  /\ 0 <= points (decay (3 # 2) (MkPlayerStyle "a" 610 A_ATTACKING 1 1 0 0%Q [] ∅ "" 0%Q 1 1))
  /\ points (decay (3 # 2) (MkPlayerStyle "a" 610 A_ATTACKING 1 1 0 0%Q [] ∅ "" 0%Q 1 1))
     <= 610
  /\ rank_value
       (rank (decay (3 # 2) (MkPlayerStyle "a" 610 A_ATTACKING 1 1 0 0%Q [] ∅ "" 0%Q 1 1)))
     <= rank_value A_ATTACKING.
Proof.
  split; [reflexivity|]. split; [reflexivity|].
  apply (decay_never_raises (3 # 2)
           (MkPlayerStyle "a" 610 A_ATTACKING 1 1 0 0%Q [] ∅ "" 0%Q 1 1)).
  - discriminate.
  - split; [cbn; lia | reflexivity].
Defined.

(** X8: a death halves the points, rounding down, never raises the
    rank, and ends the streak, the life's kill count, the weapon set
    and the recent-kill window. *)
Theorem on_death_never_raises p :
  player_ok p ->
  points (on_death p) = points p / 2
  /\ points (on_death p) <= points p
  /\ rank_value (rank (on_death p)) <= rank_value (rank p)
  /\ killstreak (on_death p) = 0 /\ kills_this_life (on_death p) = 0
  /\ weapons_used (on_death p) = ∅ /\ recent_kills (on_death p) = []
  /\ best_streak (on_death p) = best_streak p.
Proof.
  intros [Hp Hr]. cbn.
  assert (Hh : points p / 2 <= points p)
    by (apply Z.div_le_upper_bound; lia).
  repeat split; try exact Hh.
  rewrite (f_equal rank_value Hr). now apply rank_scan_mono.
Qed.

Lemma on_death_never_raises_witness :
  points (on_death (MkPlayerStyle "a" 1001 S_STAKING 4 9 2 0%Q [] ∅ "" 0%Q 4 6))
  = 1001 / 2
  /\ points (on_death (MkPlayerStyle "a" 1001 S_STAKING 4 9 2 0%Q [] ∅ "" 0%Q 4 6))
     <= 1001
  /\ rank_value
       (rank (on_death (MkPlayerStyle "a" 1001 S_STAKING 4 9 2 0%Q [] ∅ "" 0%Q 4 6)))
     <= rank_value S_STAKING
  /\ killstreak (on_death (MkPlayerStyle "a" 1001 S_STAKING 4 9 2 0%Q [] ∅ "" 0%Q 4 6))
     = 0
  /\ kills_this_life
       (on_death (MkPlayerStyle "a" 1001 S_STAKING 4 9 2 0%Q [] ∅ "" 0%Q 4 6))
     = 0
  /\ weapons_used
       (on_death (MkPlayerStyle "a" 1001 S_STAKING 4 9 2 0%Q [] ∅ "" 0%Q 4 6))
     = ∅
  /\ recent_kills
       (on_death (MkPlayerStyle "a" 1001 S_STAKING 4 9 2 0%Q [] ∅ "" 0%Q 4 6))
     = []
  /\ best_streak
       (on_death (MkPlayerStyle "a" 1001 S_STAKING 4 9 2 0%Q [] ∅ "" 0%Q 4 6))
     = 6.
Proof.
  apply (on_death_never_raises
           (MkPlayerStyle "a" 1001 S_STAKING 4 9 2 0%Q [] ∅ "" 0%Q 4 6)).
  split; [cbn; lia | reflexivity].
Defined.

(** X9: a kill of another player touches the killer's and the victim's
    records and no third one.  The killer gains the style points and the
    reward of the returned dictionary and one lifetime kill; the victim
    keeps half the points, gets one more death, remembers the killer and
    loses the streak. *)
Theorem kill_touches_two_records now k v w s :
  k <> v ->
  let pk := snd (get_player k s) in
  let pv := snd (get_player v s) in
  let out := process_kill now k v w s in
  let r := snd out in
  exists pk' pv',
    players (fst out) !! k = Some pk' /\ players (fst out) !! v = Some pv'
    /\ points pk' = points pk + r_style_points r
    /\ rank pk' = r_rank_after r
    /\ total_rtc pk' = (total_rtc pk + r_total_rtc r)%Q
    /\ total_kills pk' = total_kills pk + 1
    /\ deaths pk' = deaths pk
    /\ points pv' = points pv / 2
    /\ deaths pv' = deaths pv + 1
    /\ total_kills pv' = total_kills pv
    /\ last_killer pv' = k
    /\ killstreak pv' = 0
    /\ forall n, n <> k -> n <> v -> players (fst out) !! n = players s !! n.
Proof.
  intros Hkv pk pv out r.
  exists (killer_after now v w (first_blood_claimed s) pk), (victim_after k pv).
  subst out r. rewrite process_kill_players, process_kill_result. cbv zeta.
  rewrite lookup_insert_ne by congruence.
  rewrite lookup_insert_eq, lookup_insert_eq.
  rewrite lookup_insert_ne by congruence.
  rewrite get_player_lookup, decide_True by reflexivity.
  rewrite (get_player_snd_other k v s Hkv). fold pv. cbn [default].
  split; [reflexivity|]. split; [reflexivity|].
  cbn [r_style_points r_rank_after r_total_rtc].
  unfold killer_after. fold pk.
  destruct (kill_bonuses _ _ _ _ _ _ _ _) as [[[lastk weapons] combo] tally].
  cbn. repeat split.
  intros n Hk Hv. rewrite !lookup_insert_ne by congruence.
  rewrite !get_player_lookup, !decide_False by congruence. reflexivity.
Qed.

Lemma kill_touches_two_records_witness :
  exists pk' pv',
    players (fst (process_kill 5 "a" "b" "gun" (init 0))) !! "a"%string = Some pk'
    /\ players (fst (process_kill 5 "a" "b" "gun" (init 0))) !! "b"%string
       = Some pv'
    /\ points pk'
       = points (snd (get_player "a" (init 0)))
         + r_style_points (snd (process_kill 5 "a" "b" "gun" (init 0)))
    /\ rank pk' = r_rank_after (snd (process_kill 5 "a" "b" "gun" (init 0)))
    /\ total_rtc pk'
       = (total_rtc (snd (get_player "a" (init 0)))
          + r_total_rtc (snd (process_kill 5 "a" "b" "gun" (init 0))))%Q
    /\ total_kills pk' = total_kills (snd (get_player "a" (init 0))) + 1
    /\ deaths pk' = deaths (snd (get_player "a" (init 0)))
    /\ points pv' = points (snd (get_player "b" (init 0))) / 2
    /\ deaths pv' = deaths (snd (get_player "b" (init 0))) + 1
    /\ total_kills pv' = total_kills (snd (get_player "b" (init 0)))
    /\ last_killer pv' = "a"%string
    /\ killstreak pv' = 0
    /\ forall n, n <> "a"%string -> n <> "b"%string ->
                 players (fst (process_kill 5 "a" "b" "gun" (init 0))) !! n
                 = players (init 0) !! n.
Proof.
  apply (kill_touches_two_records 5 "a" "b" "gun" (init 0)). discriminate.
Defined.

End StyleMore.

(** * More about the blood economy *)
Module BloodMore.
Import Blood BloodSteps BloodFacts.
Local Open Scope Q_scope.

(** Each handler stores one new state for the player it is about. *)
Lemma on_damage_dealt_players now a v damage w distance hs s :
  players (fst (on_damage_dealt now a v damage w distance hs s))
  = <[a := dealt_state now damage w distance hs (get_player now a s)]>
      (players s).
Proof. reflexivity. Qed.

Lemma on_kill_players now k v w distance s :
  players (fst (on_kill now k v w distance s))
  = <[k := kill_state now w distance (get_player now k s)]> (players s).
Proof. reflexivity. Qed.

Lemma on_damage_taken_players now p damage a s :
  players (fst (on_damage_taken now p damage a s))
  = <[p := taken_state damage (get_player now p s)]> (players s).
Proof. reflexivity. Qed.

Lemma on_death_players now p s :
  players (fst (on_death now p s))
  = <[p := death_state (get_player now p s)]> (players s).
Proof. reflexivity. Qed.

Lemma update_players now dt s :
  players (fst (update now dt s))
  = (fun st => fst (update_player now (default (now - last_update s) dt) st))
      <$> players s.
Proof.
  unfold update. cbn [fst players]. rewrite <- map_fmap_compose. reflexivity.
Qed.

(** A property of player states that the five state updates keep, for
    amounts and tick lengths satisfying [okq], holds of every stored
    state after a run of such events. *)
Section StateInvariant.
Variable okq : Q -> Prop.
Variable P : BloodState -> Prop.
Hypothesis P_new : forall now, P (new_state now).
Hypothesis P_dealt :
  forall now d w dist hs st,
    okq d -> P st -> P (dealt_state now d w dist hs st).
Hypothesis P_kill : forall now w dist st, P st -> P (kill_state now w dist st).
Hypothesis P_taken : forall d st, P st -> P (taken_state d st).
Hypothesis P_death : forall st, P st -> P (death_state st).
Hypothesis P_update :
  forall now dt st, okq dt -> P st -> P (fst (update_player now dt st)).

Lemma get_player_P now n s : all_states P s -> P (get_player now n s).
Proof.
  intros Hs. unfold get_player.
  destruct (players s !! n) as [st|] eqn:E; cbn; [eapply Hs, E | apply P_new].
Qed.

Lemma insert_P n st (reg : gmap string BloodState) :
  (forall k q, reg !! k = Some q -> P q) -> P st ->
  forall k q, <[n := st]> reg !! k = Some q -> P q.
Proof.
  intros Hreg Hst k q. rewrite lookup_insert.
  case_decide; [intros [= <-]; exact Hst | apply Hreg].
Qed.

Lemma step_P s op : valid okq s op -> all_states P s -> all_states P (step s op).
Proof.
  intros Hv Hs. unfold all_states.
  destruct op; cbn [step valid] in *.
  - rewrite on_damage_dealt_players. apply insert_P; [exact Hs|].
    apply P_dealt; [exact Hv | now apply get_player_P].
  - rewrite on_kill_players. apply insert_P; [exact Hs|].
    apply P_kill. now apply get_player_P.
  - rewrite on_damage_taken_players. apply insert_P; [exact Hs|].
    apply P_taken. now apply get_player_P.
  - rewrite on_death_players. apply insert_P; [exact Hs|].
    apply P_death. now apply get_player_P.
  - rewrite update_players. intros n q. rewrite lookup_fmap.
    destruct (players s !! n) as [st|] eqn:E; cbn; [|discriminate].
    intros [= <-]. apply P_update; [exact Hv | eapply Hs, E].
Qed.

Lemma run_P ops :
  forall s, valid_run okq ops s -> all_states P s -> all_states P (run ops s).
Proof.
  induction ops as [|op ops IH]; intros s Hv Hs; [exact Hs|].
  destruct Hv as [Hop Hrest]. cbn. apply IH; [exact Hrest|].
  now apply step_P.
Qed.
End StateInvariant.


Lemma any_run_valid ops : forall s, valid_run (fun _ => True) ops s.
Proof.
  induction ops as [|op ops IH]; intros s; [exact I|].
  split; [destruct op; exact I | apply IH].
Qed.

Lemma div_mono (x y c : Q) : 0 < c -> x <= y -> x / c <= y / c.
Proof.
  intros Hc Hxy. unfold Qdiv. apply Qmult_le_compat_r; [exact Hxy|].
  apply Qinv_le_0_compat. lra.
Qed.

(** X10: the distance multiplier never grows with the distance: it is 3
    up to 300 units, falls to 1 at 800 and to 1/2 at 1500, and stays
    there. *)
Theorem distance_mult_antitone d1 d2 :
  d1 <= d2 ->
  distance_mult d2 <= distance_mult d1
  /\ (d1 <= CLOSE_RANGE -> distance_mult d1 == 3)
  /\ distance_mult MID_RANGE == 1
  /\ (LONG_RANGE <= d2 -> distance_mult d2 == 1 # 2).
Proof.
  intros Hd. split; [|split; [|split]].
  - destruct (distance_mult_range d2) as [L2 U2].
    unfold distance_mult, CLOSE_RANGE, MID_RANGE, LONG_RANGE,
      CLOSE_RANGE_MULTIPLIER in *.
    destruct (Qle_bool d1 300) eqn:A1; [exact U2|].
    apply Qle_bool_false in A1.
    destruct (Qle_bool d2 300) eqn:A2; [apply Qle_bool_iff in A2; lra|].
    clear A2 L2 U2.
    destruct (Qle_bool d1 800) eqn:B1;
      [apply Qle_bool_iff in B1 | apply Qle_bool_false in B1];
      (destruct (Qle_bool d2 800) eqn:B2;
       [apply Qle_bool_iff in B2 | apply Qle_bool_false in B2]);
      cbv zeta.
    + pose proof (div_mono (d1 - 300) (d2 - 300) (800 - 300)
                    ltac:(lra) ltac:(lra)). lra.
    + destruct (div_unit (d1 - 300) (800 - 300)); [lra | lra | lra |].
      assert (0 <= (d2 - 800) / (1500 - 800))
        by (apply Qle_shift_div_l; lra).
      destruct (py_min_spec 1 ((d2 - 800) / (1500 - 800)))
        as [[? ->]|[? ->]]; lra.
    + lra.
    + pose proof (div_mono (d1 - 800) (d2 - 800) (1500 - 800)
                    ltac:(lra) ltac:(lra)).
      destruct (py_min_spec 1 ((d1 - 800) / (1500 - 800)))
        as [[? ->]|[? ->]];
        destruct (py_min_spec 1 ((d2 - 800) / (1500 - 800)))
          as [[? ->]|[? ->]]; lra.
  - intros H1. unfold distance_mult.
    apply Qle_bool_iff in H1. rewrite H1. reflexivity.
  - reflexivity.
  - intros H2. unfold distance_mult, CLOSE_RANGE, MID_RANGE, LONG_RANGE in *.
    destruct (Qle_bool d2 300) eqn:A2; [apply Qle_bool_iff in A2; lra|].
    destruct (Qle_bool d2 800) eqn:B2; [apply Qle_bool_iff in B2; lra|].
    cbv zeta.
    assert (1 <= (d2 - 800) / (1500 - 800))
      by (apply Qle_shift_div_l; lra).
    destruct (py_min_spec 1 ((d2 - 800) / (1500 - 800)))
      as [[? ->]|[? ->]]; [lra | reflexivity].
Qed.

Lemma distance_mult_antitone_witness :
  distance_mult 1150 <= distance_mult 550
  /\ distance_mult 550 == 2 /\ distance_mult 1150 == 3 # 4
  /\ (550 <= CLOSE_RANGE -> distance_mult 550 == 3)
  /\ distance_mult MID_RANGE == 1
  /\ (LONG_RANGE <= 1150 -> distance_mult 1150 == 1 # 2).
Proof.
  destruct (distance_mult_antitone 550 1150 ltac:(discriminate))
    as (H1 & H2 & H3 & H4).
  split; [exact H1|]. split; [reflexivity|]. split; [reflexivity|].
  split; [exact H2|]. split; [exact H3 | exact H4].
Defined.

(** X11: an update with a tick that is not negative never raises a
    shield, lowers it by at most the decay rate times the tick, and
    leaves alone the shield of every player who acted within the last
    five seconds and every shield that is not above 0. *)
Theorem update_only_decays_idle now dt s n st :
  0 <= default (now - last_update s) dt ->
  players s !! n = Some st ->
  exists st',
    players (fst (update now dt s)) !! n = Some st'
    /\ shield st' <= shield st
    /\ shield st - SHIELD_DECAY_RATE * default (now - last_update s) dt
       <= shield st'
    /\ (now - last_action_time st <= SHIELD_DECAY_DELAY ->
        shield st' = shield st)
    /\ (shield st <= 0 -> shield st' = shield st)
    /\ last_action_time st' = last_action_time st.
Proof.
  intros Hdt Hn. rewrite update_players, lookup_fmap, Hn. cbn.
  eexists. split; [reflexivity|].
  set (d := default (now - last_update s) dt) in *.
  unfold update_player, is_decaying, SHIELD_DECAY_RATE, SHIELD_DECAY_DELAY.
  destruct (Qltb 0 (shield st)) eqn:E0;
    [apply Qltb_lt in E0 | apply Qltb_ge in E0];
    (destruct (Qltb 5 (now - last_action_time st)) eqn:E5;
     [apply Qltb_lt in E5 | apply Qltb_ge in E5]);
    cbn [andb fst shield last_action_time];
    try (repeat split; intros; try reflexivity; lra).
  destruct (py_max_spec 0 (shield st - 2 * d)) as [[H ->]|[H ->]];
    repeat split; intros; try reflexivity; lra.
Qed.

Lemma update_only_decays_idle_witness :
  exists st',
    players
      (fst (update 10 (Some 1)
              (fst (on_kill 2 "a" "b" MACHINEGUN 500 (init 0)))))
    !! "a"%string = Some st'
    /\ shield st' == 18.
Proof.
  destruct (update_only_decays_idle 10 (Some 1)
              (fst (on_kill 2 "a" "b" MACHINEGUN 500 (init 0))) "a"
              (kill_state 2 MACHINEGUN 500 (new_state 2))
              ltac:(vm_compute; discriminate)
              ltac:(vm_compute; reflexivity))
    as (st' & Hst & Hle & Hge & _).
  exists st'. split; [exact Hst|].
  vm_compute in Hst. injection Hst as <-. reflexivity.
Defined.

Lemma kill_gain_floor w distance streak : 20 <= kill_gain w distance streak.
Proof.
  unfold kill_gain, KILL_SHIELD_BONUS, MELEE_KILL_SHIELD.
  assert (Hu : 0 <= (if (3 <=? streak)%Z then 10 * inject_Z streak else 0)).
  { destruct (Z.leb_spec 3 streak); [|lra].
    assert (inject_Z 3 <= inject_Z streak) by (rewrite <- Zle_Qle; assumption).
    change (inject_Z 3) with 3 in *. lra. }
  destruct (bool_decide (w = MELEE)), (Qle_bool distance CLOSE_RANGE); lra.
Qed.



Lemma deque_append_length h l :
  (length l <= 10)%nat -> (length (deque_append h l) <= 10)%nat.
Proof.
  intros Hl. unfold deque_append.
  destruct (Nat.ltb_spec 10 (length (l ++ [h]))) as [H|H]; [|exact H].
  rewrite length_app in H. cbn in H.
  destruct (l ++ [h]) as [|x t] eqn:E; [cbn; lia|].
  apply (f_equal (@length Hit)) in E. rewrite length_app in E. cbn in *. lia.
Qed.

(** X13: the log of recent hits never holds more than ten entries,
    whatever events arrive. *)
Theorem recent_hits_bounded start ops n st :
  players (run ops (init start)) !! n = Some st ->
  (length (recent_hits st) <= 10)%nat.
Proof.
  apply (run_P (fun _ => True) (fun st => (length (recent_hits st) <= 10)%nat)).
  - intros now. cbn. lia.
  - intros now d w dist hs q _ H. cbn. now apply deque_append_length.
  - intros now w dist q H. exact H.
  - intros d q H. exact H.
  - intros q H. cbn. lia.
  - intros now dt q _ H. unfold update_player.
    destruct (Qltb 0 (shield q) && is_decaying now q); exact H.
  - apply any_run_valid.
  - intros k q. cbn. rewrite lookup_empty. discriminate.
Qed.

Lemma recent_hits_bounded_witness :
  exists st,
    players
      (run (repeat (OpDamageDealt 1 "a" "b" 5 HAGAR 400 false) 12) (init 0))
    !! "a"%string = Some st
    /\ length (recent_hits st) = 10%nat
    /\ (length (recent_hits st) <= 10)%nat.
Proof.
  eexists. split; [vm_compute; reflexivity|]. split; [reflexivity|].
  eapply (recent_hits_bounded 0
            (repeat (OpDamageDealt 1 "a" "b" 5 HAGAR 400 false) 12) "a").
  vm_compute. reflexivity.
Defined.

(** The shield and the streak a later handler reads for the player a
    handler was about. *)
Lemma get_player_insert now n st (s s' : BloodEconomy) :
  players s' = <[n := st]> (players s) -> get_player now n s' = st.
Proof. intros E. unfold get_player. now rewrite E, lookup_insert_eq. Qed.

(** What a kill does to the killer's untouchable streak. *)
Lemma on_kill_streak now now' k v w distance s :
  kills_without_damage (get_player now' k (fst (on_kill now k v w distance s)))
  = (kills_without_damage (get_player now k s) + 1)%Z
  /\ existsb is_untouchable (kr_bonuses (snd (on_kill now k v w distance s)))
     = (3 <=? kills_without_damage (get_player now k s))%Z.
Proof.
  rewrite (get_player_insert now' k _ s _ (on_kill_players now k v w distance s)).
  unfold on_kill. cbn [snd kr_bonuses kill_state kills_without_damage].
  split; [reflexivity|].
  destruct (bool_decide (w = MELEE)), (Qle_bool distance CLOSE_RANGE),
    (3 <=? kills_without_damage (get_player now k s))%Z; reflexivity.
Qed.

(** X14: a kill raises the killer's shield to at least
    min(100, shield + 20), never above 100 when it was not above 100,
    adds one to the untouchable streak, and reports the untouchable
    bonus exactly when the streak before the kill was 3 or more. *)
Theorem kill_pays_shield now now' k v w distance s :
  let before := get_player now k s in
  let out := on_kill now k v w distance s in
  let after := get_player now' k (fst out) in
  py_min SHIELD_MAX (shield before + 20) <= shield after
  /\ (shield before <= SHIELD_MAX ->
      shield before <= shield after /\ shield after <= SHIELD_MAX)
  /\ kills_without_damage after = (kills_without_damage before + 1)%Z
  /\ (existsb is_untouchable (kr_bonuses (snd out))
      = (3 <=? kills_without_damage before)%Z)
  /\ kr_shield_current (snd out) = shield after.
Proof.
  cbv zeta.
  rewrite (get_player_insert now' k _ s _ (on_kill_players now k v w distance s)).
  unfold on_kill. cbn [snd kr_bonuses kr_shield_current kill_state shield
                       kills_without_damage].
  fold (kill_gain w distance (kills_without_damage (get_player now k s))).
  pose proof (kill_gain_floor w distance
                (kills_without_damage (get_player now k s))) as Hg.
  split; [|split; [|split; [|split]]].
  - destruct (py_min_spec SHIELD_MAX (shield (get_player now k s) + 20))
      as [[? ->]|[? ->]];
      destruct (py_min_spec SHIELD_MAX
                  (shield (get_player now k s)
                   + kill_gain w distance
                       (kills_without_damage (get_player now k s))))
        as [[? ->]|[? ->]]; lra.
  - intros Hb.
    destruct (py_min_spec SHIELD_MAX
                (shield (get_player now k s)
                 + kill_gain w distance
                     (kills_without_damage (get_player now k s))))
      as [[? ->]|[? ->]]; lra.
  - reflexivity.
  - destruct (bool_decide (w = MELEE)), (Qle_bool distance CLOSE_RANGE),
      (3 <=? kills_without_damage (get_player now k s))%Z; reflexivity.
  - reflexivity.
Qed.

(** X15: after damage taken the untouchable streak starts over: the
    player's next three kills carry no untouchable bonus and the fourth
    carries it, at streak 3. *)
Theorem untouchable_needs_three_kills t0 t1 t2 t3 t4 p d a
    v1 v2 v3 v4 w1 w2 w3 w4 d1 d2 d3 d4 s :
  let s0 := fst (on_damage_taken t0 p d a s) in
  let k1 := on_kill t1 p v1 w1 d1 s0 in
  let k2 := on_kill t2 p v2 w2 d2 (fst k1) in
  let k3 := on_kill t3 p v3 w3 d3 (fst k2) in
  let k4 := on_kill t4 p v4 w4 d4 (fst k3) in
  existsb is_untouchable (kr_bonuses (snd k1)) = false
  /\ existsb is_untouchable (kr_bonuses (snd k2)) = false
  /\ existsb is_untouchable (kr_bonuses (snd k3)) = false
  /\ In (BonusUntouchable 3) (kr_bonuses (snd k4))
  /\ 50 <= kr_total_bonus (snd k4).
Proof.
  cbv zeta.
  set (s0 := fst (on_damage_taken t0 p d a s)).
  set (k1 := on_kill t1 p v1 w1 d1 s0).
  set (k2 := on_kill t2 p v2 w2 d2 (fst k1)).
  set (k3 := on_kill t3 p v3 w3 d3 (fst k2)).
  assert (E0 : kills_without_damage (get_player t1 p s0) = 0%Z).
  { subst s0.
    now rewrite (get_player_insert t1 p _ s _
                   (on_damage_taken_players t0 p d a s)). }
  destruct (on_kill_streak t1 t2 p v1 w1 d1 s0) as (E1 & B1).
  destruct (on_kill_streak t2 t3 p v2 w2 d2 (fst k1)) as (E2 & B2).
  destruct (on_kill_streak t3 t4 p v3 w3 d3 (fst k2)) as (E3 & B3).
  fold k1 in E1, B1, E2, B2. fold k2 in E2, B2, E3, B3. fold k3 in E3, B3.
  rewrite E0 in E1, B1. rewrite E1 in E2, B2. rewrite E2 in E3, B3.
  change (0 + 1 + 1 + 1)%Z with 3%Z in E3.
  split; [exact B1|]. split; [exact B2|]. split; [exact B3|].
  unfold on_kill at 1 2. cbn [snd kr_bonuses kr_total_bonus]. rewrite E3.
  change (3 <=? 3)%Z with true. cbv iota.
  split.
  - apply in_or_app. right. apply in_or_app. right. now left.
  - unfold KILL_SHIELD_BONUS, MELEE_KILL_SHIELD.
    destruct (bool_decide (w4 = MELEE)), (Qle_bool d4 CLOSE_RANGE);
      cbn; discriminate.
Qed.

End BloodMore.

(** * More about the 51% attack mode *)
Module Attack51More.
Import Attack51 Attack51Runs Attack51Facts.
Local Open Scope Q_scope.

(** ** What a tick leaves alone *)

Lemma process_capture_on_point now team dt m :
  players_on_point (_process_capture now team dt m) = players_on_point m.
Proof.
  unfold _process_capture.
  destruct (decide (controlling_team m = Some team)); [reflexivity|].
  destruct (decide (controlling_team m = Some (other_team team))).
  - destruct (Qle_bool _ 0); reflexivity.
  - destruct (Qle_bool CONTROL_POINT_CAPTURE_TIME _); [|reflexivity].
    destruct team; reflexivity.
Qed.

Lemma occupy_on_point now dt m :
  players_on_point (fst (occupy now dt m)) = players_on_point m.
Proof.
  unfold occupy.
  destruct (0 <? size (pt_get Team1 (players_on_point m)))%nat;
    [destruct (0 <? size (pt_get Team2 (players_on_point m)))%nat|
     destruct (0 <? size (pt_get Team2 (players_on_point m)))%nat];
    cbn [andb fst]; try apply process_capture_on_point; try reflexivity.
  match goal with
  | |- context [if ?b then (_, _) else _] => destruct b
  end; reflexivity.
Qed.

Lemma mine_on_point dt m : players_on_point (mine dt m) = players_on_point m.
Proof.
  unfold mine. destruct (controlling_team m) as [t|]; [|reflexivity].
  destruct (0 <? size _)%nat; destruct t; reflexivity.
Qed.

Lemma check_phase_on_point mt m :
  players_on_point (fst (check_phase mt m)) = players_on_point m.
Proof.
  unfold check_phase.
  repeat match goal with
         | |- context [if ?b then (_, _) else _] => destruct b
         end; reflexivity.
Qed.

Lemma tick_on_point now dt m :
  players_on_point (fst (tick now dt m)) = players_on_point m.
Proof.
  unfold tick.
  pose proof (occupy_on_point now dt m) as Ho.
  destruct (occupy now dt m) as [m1 evs]. cbn [fst] in Ho.
  pose proof (check_phase_on_point (now - match_start m) (mine dt m1)) as Hc.
  destruct (check_phase _ (mine dt m1)) as [m3 anns]. cbn [fst] in *.
  now rewrite Hc, mine_on_point.
Qed.










(** ** The phase and the attack executor *)

Lemma process_capture_phase now team dt m :
  phase_state (_process_capture now team dt m) = phase_state m.
Proof.
  unfold _process_capture.
  destruct (decide (controlling_team m = Some team)); [reflexivity|].
  destruct (decide (controlling_team m = Some (other_team team))).
  - destruct (Qle_bool _ 0); reflexivity.
  - destruct (Qle_bool CONTROL_POINT_CAPTURE_TIME _); [|reflexivity].
    destruct team; reflexivity.
Qed.

Lemma occupy_phase now dt m :
  phase_state (fst (occupy now dt m)) = phase_state m.
Proof.
  unfold occupy.
  destruct (0 <? size (pt_get Team1 (players_on_point m)))%nat;
    [destruct (0 <? size (pt_get Team2 (players_on_point m)))%nat|
     destruct (0 <? size (pt_get Team2 (players_on_point m)))%nat];
    cbn [andb fst]; try apply process_capture_phase; try reflexivity.
  match goal with
  | |- context [if ?b then (_, _) else _] => destruct b
  end; reflexivity.
Qed.

Lemma mine_phase dt m : phase_state (mine dt m) = phase_state m.
Proof.
  unfold mine. destruct (controlling_team m) as [t|]; [|reflexivity].
  destruct (0 <? size _)%nat; destruct t; reflexivity.
Qed.

Lemma end_match_phase now m :
  phase_state (fst (end_match now m)) = phase_state m.
Proof.
  unfold end_match.
  destruct (determine_winner _ m) as [[[|]|] vt];
    destruct (distribute _) as [reg rewards]; reflexivity.
Qed.

Lemma on_kill_phase k v op m :
  phase_state (fst (on_kill k v op m)) = phase_state m.
Proof.
  unfold on_kill.
  destruct (players m !! k) as [ks|]; [|reflexivity].
  destruct (players m !! v) as [vs|]; [|reflexivity].
  destruct op; [|destruct (is_team1 (ps_team ks)), (is_team1 (ps_team vs));
                 reflexivity].
  destruct (key_of (ps_team vs)) as [t|];
    [destruct (bool_decide _)|];
    destruct (is_team1 (ps_team ks)), (is_team1 (ps_team vs)); reflexivity.
Qed.

Lemma enter_phase p m :
  phase_state (fst (player_enter_point p m)) = phase_state m.
Proof.
  unfold player_enter_point.
  destruct (players m !! p) as [q|]; [|reflexivity].
  destruct (key_of (ps_team q)); reflexivity.
Qed.

Lemma leave_phase p m :
  phase_state (fst (player_leave_point p m)) = phase_state m.
Proof.
  unfold player_leave_point.
  destruct (players m !! p) as [q|]; [|reflexivity].
  destruct (key_of (ps_team q)); reflexivity.
Qed.

(** The phase check never replaces a recorded executor, and keeps the
    phase in step with it. *)
Lemma check_phase_executor mt m :
  (forall t, attack_executed_by m = Some t ->
             attack_executed_by (fst (check_phase mt m)) = Some t)
  /\ (phase_ok (phase_state m) ->
      phase_ok (phase_state (fst (check_phase mt m)))).
Proof.
  unfold check_phase, phase_ok, phase_state.
  destruct (attack_executed_by m) as [e|] eqn:Ee;
    destruct (phase m) eqn:Ep;
    repeat match goal with
           | |- context [Qle_bool ?a ?b] => destruct (Qle_bool a b)
           end;
    cbn; rewrite ?Ee, ?Ep;
    (split; [intros t Ht; congruence|]);
    intros [[H1 H2] H3]; repeat split; intros; try congruence;
    try discriminate;
    try (exfalso; apply H2 in H; congruence);
    try (exfalso; (assert (ATTACK_EXECUTED = ATTACK_EXECUTED) as Hx
                     by reflexivity); apply H1 in Hx; congruence);
    try (exfalso; assert (Hx : Some e <> None) by discriminate;
         apply H2 in Hx; discriminate).
Qed.

Lemma tick_phase now dt m :
  (forall t, attack_executed_by m = Some t ->
             attack_executed_by (fst (tick now dt m)) = Some t)
  /\ (phase_ok (phase_state m) -> phase_ok (phase_state (fst (tick now dt m)))).
Proof.
  unfold tick.
  pose proof (occupy_phase now dt m) as Ho.
  destruct (occupy now dt m) as [m1 evs]. cbn [fst] in Ho.
  pose proof (mine_phase dt m1) as Hm.
  destruct (check_phase_executor (now - match_start m) (mine dt m1))
    as [He Hk].
  destruct (check_phase _ (mine dt m1)) as [m3 anns]. cbn [fst] in *.
  assert (E : phase_state (mine dt m1) = phase_state m) by congruence.
  split.
  - intros t Ht. apply He. unfold phase_state in E. congruence.
  - intros Hok. apply Hk. now rewrite E.
Qed.

Lemma update_phase now dt m :
  (forall t, attack_executed_by m = Some t ->
             attack_executed_by (fst (update now dt m)) = Some t)
  /\ (phase_ok (phase_state m) ->
      phase_ok (phase_state (fst (update now dt m)))).
Proof.
  unfold update.
  destruct (Qle_bool (match_duration m) (now - match_start m)).
  - pose proof (end_match_phase now m) as H.
    destruct (end_match now m) as [m' r]. cbn [fst] in *.
    split; [|now rewrite H]. intros t Ht. unfold phase_state in H. congruence.
  - pose proof (tick_phase now dt m) as H.
    destruct (tick now dt m) as [m' r]. exact H.
Qed.

Lemma phase_state_executor m m' :
  phase_state m' = phase_state m ->
  attack_executed_by m' = attack_executed_by m.
Proof. unfold phase_state. congruence. Qed.

(** X17: once a team has executed the attack, no call short of starting
    a new match changes the executor: ticks, settlement, kills and
    players coming and going all leave it in place. *)
Theorem attack_executor_is_final cs :
  forall m t,
    forallb not_start cs = true -> attack_executed_by m = Some t ->
    attack_executed_by (run cs m) = Some t.
Proof.
  induction cs as [|c cs IH]; intros m t Hcs Hm; [exact Hm|].
  cbn in Hcs. apply andb_true_iff in Hcs as [Hc Hcs].
  cbn. apply IH; [exact Hcs|].
  destruct c; cbn [step not_start] in *; try discriminate.
  - exact Hm.
  - now rewrite (phase_state_executor _ _ (enter_phase player m)).
  - now rewrite (phase_state_executor _ _ (leave_phase player m)).
  - now apply update_phase.
  - now rewrite (phase_state_executor _ _ (on_kill_phase killer victim on_point m)).
  - now rewrite (phase_state_executor _ _ (end_match_phase now m)).
Qed.

(** Team 1 holds the point for 2 of the first 4 seconds and 5 of the
    first 7: the attack is executed at the third tick. *)
Lemma attack_executor_is_final_witness :
  attack_executed_by (run [CUpdate 1007 3] demo) = Some Team1
  /\ attack_executed_by
       (run [CAddPlayer "Player2" "team2"; CEnter "Player1"; CLeave "Boris";
             CUpdate 1100 50; CKill "Player1" "Boris" true; CUpdate 1200 100;
             CEnd 1300] (run [CUpdate 1007 3] demo)) = Some Team1.
Proof.
  split; [vm_compute; reflexivity|].
  apply (attack_executor_is_final
           [CAddPlayer "Player2" "team2"; CEnter "Player1"; CLeave "Boris";
            CUpdate 1100 50; CKill "Player1" "Boris" true; CUpdate 1200 100;
            CEnd 1300] (run [CUpdate 1007 3] demo) Team1).
  - reflexivity.
  - vm_compute. reflexivity.
Defined.

(** X18: in every state reached from a new mode the phase is "attack
    executed" exactly when an executor is recorded, and the phase is
    never the defense rally, which nothing sets. *)
Theorem phase_follows_executor cs n1 n2 :
  phase_ok (phase_state (run cs (init n1 n2))).
Proof.
  assert (H : forall m, phase_ok (phase_state m) ->
                        phase_ok (phase_state (run cs m))).
  { induction cs as [|c cs IH]; intros m Hm; [exact Hm|].
    cbn. apply IH. destruct c; cbn [step].
    - unfold phase_ok. cbn. repeat split; intros; congruence.
    - exact Hm.
    - now rewrite enter_phase.
    - now rewrite leave_phase.
    - now apply update_phase.
    - now rewrite on_kill_phase.
    - now rewrite end_match_phase. }
  apply H. unfold phase_ok. cbn. repeat split; intros; congruence.
Qed.

(** ** Kills, deaths and the books of a live match *)

Lemma process_capture_books now team dt m :
  books (_process_capture now team dt m) = books m.
Proof.
  unfold _process_capture.
  destruct (decide (controlling_team m = Some team)); [reflexivity|].
  destruct (decide (controlling_team m = Some (other_team team))).
  - destruct (Qle_bool _ 0); reflexivity.
  - destruct (Qle_bool CONTROL_POINT_CAPTURE_TIME _); [|reflexivity].
    destruct team; reflexivity.
Qed.

Lemma occupy_books now dt m : books (fst (occupy now dt m)) = books m.
Proof.
  unfold occupy.
  destruct (0 <? size (pt_get Team1 (players_on_point m)))%nat;
    [destruct (0 <? size (pt_get Team2 (players_on_point m)))%nat|
     destruct (0 <? size (pt_get Team2 (players_on_point m)))%nat];
    cbn [andb fst]; try apply process_capture_books; try reflexivity.
  match goal with
  | |- context [if ?b then (_, _) else _] => destruct b
  end; reflexivity.
Qed.

Lemma check_phase_books mt m : books (fst (check_phase mt m)) = books m.
Proof.
  unfold check_phase.
  repeat match goal with
         | |- context [if ?b then (_, _) else _] => destruct b
         end; reflexivity.
Qed.

Lemma books_balance m m' :
  fst (books m') = fst (books m) -> kill_balance m' = kill_balance m.
Proof. unfold books, kill_balance. cbn. intros [= -> -> -> ->]. reflexivity. Qed.

Lemma mine_balance dt m : kill_balance (mine dt m) = kill_balance m.
Proof.
  unfold mine. destruct (controlling_team m) as [t|]; [|reflexivity].
  destruct (0 <? size _)%nat; destruct t; reflexivity.
Qed.

Lemma tick_balance now dt m :
  kill_balance (fst (tick now dt m)) = kill_balance m.
Proof.
  unfold tick.
  pose proof (occupy_books now dt m) as Ho.
  destruct (occupy now dt m) as [m1 evs]. cbn [fst] in Ho.
  pose proof (check_phase_books (now - match_start m) (mine dt m1)) as Hc.
  destruct (check_phase _ (mine dt m1)) as [m3 anns]. cbn [fst] in *.
  rewrite (books_balance _ _ (f_equal fst Hc)), mine_balance.
  apply books_balance. now rewrite Ho.
Qed.

Lemma end_match_balance now m :
  kill_balance (fst (end_match now m)) = kill_balance m.
Proof.
  unfold end_match.
  destruct (determine_winner _ m) as [[[|]|] vt];
    destruct (distribute _) as [reg rewards]; reflexivity.
Qed.

Lemma on_kill_balance k v op m :
  kill_balance (fst (on_kill k v op m)) = kill_balance m.
Proof.
  unfold on_kill.
  destruct (players m !! k) as [ks|]; [|reflexivity].
  destruct (players m !! v) as [vs|]; [|reflexivity].
  destruct op;
    [destruct (key_of (ps_team vs)) as [t|]; [destruct (bool_decide _)|]|];
    destruct (is_team1 (ps_team ks)), (is_team1 (ps_team vs));
    unfold kill_balance; cbn; lia.
Qed.

Lemma step_balance m c : kill_balance (step m c) = kill_balance m.
Proof.
  destruct c; cbn [step].
  - reflexivity.
  - unfold add_player, kill_balance. destruct (is_team1 team); reflexivity.
  - unfold player_enter_point.
    destruct (players m !! player) as [q|]; [|reflexivity].
    destruct (key_of (ps_team q)); reflexivity.
  - unfold player_leave_point.
    destruct (players m !! player) as [q|]; [|reflexivity].
    destruct (key_of (ps_team q)); reflexivity.
  - unfold update.
    destruct (Qle_bool (match_duration m) (now - match_start m)).
    + pose proof (end_match_balance now m) as H.
      now destruct (end_match now m).
    + pose proof (tick_balance now dt m) as H.
      now destruct (tick now dt m).
  - apply on_kill_balance.
  - apply end_match_balance.
Qed.

(** X19: the kills credited to the two teams always equal the deaths
    charged to them: every kill [on_kill] counts is some team's death,
    also when the call ends in a [KeyError], and nothing else touches
    the counters, not even a new match. *)
Theorem kills_equal_deaths cs n1 n2 :
  let m := run cs (init n1 n2) in
  (ts_kills (team1 m) + ts_kills (team2 m)
   = ts_deaths (team1 m) + ts_deaths (team2 m))%Z.
Proof.
  cbv zeta.
  assert (H : forall m, kill_balance (run cs m) = kill_balance m).
  { induction cs as [|c cs IH]; intros m; [reflexivity|].
    cbn. rewrite IH. apply step_balance. }
  specialize (H (init n1 n2)). unfold kill_balance in H. cbn in H. lia.
Qed.







(** ** Settlement *)

Lemma div_mono_pos (x y c : Q) : 0 < c -> x <= y -> x / c <= y / c.
Proof.
  intros Hc Hxy. unfold Qdiv. apply Qmult_le_compat_r; [exact Hxy|].
  apply Qinv_le_0_compat. lra.
Qed.









(** X22: who wins on control share is decided by the control times
    themselves once the clock has advanced; with no time elapsed every
    match without an executor is a draw, and a recorded executor wins
    whatever the shares. *)
Theorem winner_is_longer_holder mt m :
  (forall t, attack_executed_by m = Some t ->
             determine_winner mt m = (Some t, "51% ATTACK"%string))
  /\ (attack_executed_by m = None -> mt <= 0 ->
      fst (determine_winner mt m) = None)
  /\ (attack_executed_by m = None -> 0 < mt ->
      (fst (determine_winner mt m) = Some Team1
       <-> control_time Team2 m < control_time Team1 m)
      /\ (fst (determine_winner mt m) = Some Team2
          <-> control_time Team1 m < control_time Team2 m)
      /\ (fst (determine_winner mt m) = None
          <-> control_time Team1 m == control_time Team2 m)).
Proof.
  unfold determine_winner, _get_control_percent, control_time. cbn [team_obj].
  split; [intros t ->; reflexivity|]. split.
  - intros -> Hmt. apply Qle_bool_iff in Hmt. rewrite Hmt. reflexivity.
  - intros -> Hmt.
    destruct (Qle_bool mt 0) eqn:E; [apply Qle_bool_iff in E; lra|].
    set (c1 := ts_control_time (team1 m)). set (c2 := ts_control_time (team2 m)).
    assert (Hlt : forall a b, a / mt < b / mt <-> a < b).
    { intros a b. split; intros H.
      - apply Qnot_le_lt. intros Hle.
        pose proof (div_mono_pos b a mt Hmt Hle). lra.
      - apply Qnot_le_lt. intros Hle.
        pose proof (Qmult_le_compat_r _ _ mt Hle ltac:(lra)) as Hm.
        assert (Eb : b / mt * mt == b) by (field; lra).
        assert (Ea : a / mt * mt == a) by (field; lra).
        rewrite Ea, Eb in Hm. lra. }
    assert (Hge : forall a b, a / mt <= b / mt -> a <= b).
    { intros a b H. apply Qnot_lt_le. intros Hc. apply Hlt in Hc. lra. }
    destruct (Qltb (c2 / mt) (c1 / mt)) eqn:E1;
      [apply Qltb_lt in E1; apply (proj1 (Hlt _ _)) in E1
      | apply Qltb_ge, Hge in E1];
      [|destruct (Qltb (c1 / mt) (c2 / mt)) eqn:E2;
        [apply Qltb_lt in E2; apply (proj1 (Hlt _ _)) in E2
        | apply Qltb_ge, Hge in E2]];
      cbn [fst];
      repeat split; intros; try reflexivity; try congruence; try lra;
      exfalso; lra.
Qed.

Lemma winner_is_longer_holder_witness :
  fst (determine_winner 4 demo) = Some Team1
  <-> control_time Team2 demo < control_time Team1 demo.
Proof.
  destruct (winner_is_longer_holder 4 demo) as (_ & _ & H).
  destruct (H eq_refl eq_refl) as (H1 & _). exact H1.
Defined.

(** ** The registry and the point *)

(** The loop over the names on the point changes exactly their
    records. *)
Lemma for_players_lookup f (names : gset string) reg n :
  for_players f names reg !! n
  = if decide (n ∈ names) then f <$> reg !! n else reg !! n.
Proof.
  unfold for_players.
  set (P := fun (acc : gmap string PlayerStats) (X : gset string) =>
              acc !! n = if decide (n ∈ X) then f <$> reg !! n else reg !! n).
  assert (H : forall X, P (set_fold (fun k acc => alter f k acc) reg X) X);
    [|exact (H names)].
  apply set_fold_ind_L; unfold P.
  - rewrite decide_False by set_solver. reflexivity.
  - intros x X acc Hx IH. rewrite lookup_alter.
    destruct (decide (x = n)) as [->|Hne].
    + rewrite decide_True by set_solver.
      rewrite IH, decide_False by exact Hx. reflexivity.
    + rewrite IH.
      destruct (decide (n ∈ X)).
      * rewrite decide_True by set_solver. reflexivity.
      * rewrite decide_False; [reflexivity|].
        rewrite elem_of_union, elem_of_singleton. intros [E|E]; congruence.
Qed.

Lemma for_players_is_Some f (names : gset string) reg n :
  is_Some (reg !! n) -> is_Some (for_players f names reg !! n).
Proof.
  intros [p Hp]. rewrite for_players_lookup, Hp.
  destruct (decide _); eauto.
Qed.

(** The registry after [mine], record by record. *)
Lemma mine_lookup dt t m n :
  controlling_team m = Some t ->
  players (mine dt m) !! n
  = if decide (n ∈ pt_get t (players_on_point m))
    then paid dt (RTC_MINING_RATE * dt
                  / inject_Z (Z.of_nat (size (pt_get t (players_on_point m)))))
           <$> players m !! n
    else players m !! n.
Proof.
  intros Hc. unfold mine. rewrite Hc.
  set (m1 := set_team t _ m).
  assert (Hp : players_on_point m1 = players_on_point m)
    by (destruct t; reflexivity).
  assert (Hr : players m1 = players m) by (destruct t; reflexivity).
  rewrite Hp.
  destruct (Nat.ltb_spec 0 (size (pt_get t (players_on_point m)))) as [Hs|Hs].
  - cbn [set_players players]. rewrite for_players_lookup, Hr. reflexivity.
  - assert (He : pt_get t (players_on_point m) = ∅).
    { apply leibniz_equiv, size_empty_inv. lia. }
    rewrite He, decide_False by set_solver. now rewrite Hr.
Qed.

(** X23: mining pays the players standing on the point for the
    controlling team, and nobody else: each of them gets the tick added
    to the personal control time and an equal share of what the team
    mined in the tick; every other record is left as it is. *)
Theorem mining_pays_players_on_point dt t m n :
  controlling_team m = Some t ->
  let on_point := pt_get t (players_on_point m) in
  players (mine dt m) !! n
  = if decide (n ∈ on_point)
    then paid dt (RTC_MINING_RATE * dt / inject_Z (Z.of_nat (size on_point)))
           <$> players m !! n
    else players m !! n.
Proof.
  intros Hc. cbv zeta. unfold mine. rewrite Hc.
  set (m1 := set_team t _ m).
  assert (Hp : players_on_point m1 = players_on_point m)
    by (destruct t; reflexivity).
  assert (Hr : players m1 = players m) by (destruct t; reflexivity).
  rewrite Hp.
  destruct (Nat.ltb_spec 0 (size (pt_get t (players_on_point m)))) as [Hs|Hs].
  - cbn [set_players players]. rewrite for_players_lookup, Hr. reflexivity.
  - assert (He : pt_get t (players_on_point m) = ∅).
    { apply leibniz_equiv, size_empty_inv. lia. }
    rewrite He, decide_False by set_solver. now rewrite Hr.
Qed.

Lemma mining_pays_players_on_point_witness :
  players (mine 2 demo) !! "Boris"%string
  = paid 2 (RTC_MINING_RATE * 2
            / inject_Z (Z.of_nat (size (pt_get Team1 (players_on_point demo)))))
      <$> players demo !! "Boris"%string
  /\ players (mine 2 demo) !! "Player1"%string
     = players demo !! "Player1"%string.
Proof.
  pose proof (mining_pays_players_on_point 2 Team1 demo "Boris" eq_refl) as HB.
  pose proof (mining_pays_players_on_point 2 Team1 demo "Player1" eq_refl) as HP.
  cbv zeta in HB, HP.
  rewrite decide_True in HB by (vm_compute; reflexivity).
  rewrite decide_False in HP by (vm_compute; discriminate).
  split; [exact HB | exact HP].
Defined.

(** No call removes a player from the registry. *)
Lemma process_capture_keeps now team dt m n :
  is_Some (players m !! n) ->
  is_Some (players (_process_capture now team dt m) !! n).
Proof.
  intros Hn. unfold _process_capture.
  destruct (decide (controlling_team m = Some team)); [exact Hn|].
  destruct (decide (controlling_team m = Some (other_team team))).
  - destruct (Qle_bool _ 0); exact Hn.
  - destruct (Qle_bool CONTROL_POINT_CAPTURE_TIME _); [|exact Hn].
    destruct team; cbn [_log_event set_players players];
      now apply for_players_is_Some.
Qed.

Lemma occupy_keeps now dt m n :
  is_Some (players m !! n) -> is_Some (players (fst (occupy now dt m)) !! n).
Proof.
  intros Hn. unfold occupy.
  destruct (0 <? size (pt_get Team1 (players_on_point m)))%nat;
    [destruct (0 <? size (pt_get Team2 (players_on_point m)))%nat|
     destruct (0 <? size (pt_get Team2 (players_on_point m)))%nat];
    cbn [andb fst]; try (now apply process_capture_keeps); try exact Hn.
  match goal with
  | |- context [if ?b then (_, _) else _] => destruct b
  end; exact Hn.
Qed.

Lemma mine_keeps dt m n :
  is_Some (players m !! n) -> is_Some (players (mine dt m) !! n).
Proof.
  intros Hn. destruct (controlling_team m) as [t|] eqn:E.
  - rewrite (mine_lookup dt t m n E).
    destruct Hn as [p Hp]. rewrite Hp. destruct (decide _); eauto.
  - unfold mine. now rewrite E.
Qed.

Lemma check_phase_players mt m :
  players (fst (check_phase mt m)) = players m.
Proof.
  unfold check_phase.
  repeat match goal with
         | |- context [if ?b then (_, _) else _] => destruct b
         end; reflexivity.
Qed.

Lemma tick_keeps now dt m n :
  is_Some (players m !! n) -> is_Some (players (fst (tick now dt m)) !! n).
Proof.
  intros Hn. unfold tick.
  pose proof (occupy_keeps now dt m n Hn) as Ho.
  destruct (occupy now dt m) as [m1 evs]. cbn [fst] in Ho.
  pose proof (check_phase_players (now - match_start m) (mine dt m1)) as Hc.
  destruct (check_phase _ (mine dt m1)) as [m3 anns]. cbn [fst] in *.
  rewrite Hc. now apply mine_keeps.
Qed.

Lemma end_match_keeps now m n :
  is_Some (players m !! n) -> is_Some (players (fst (end_match now m)) !! n).
Proof.
  intros [p Hp]. unfold end_match.
  destruct (determine_winner _ m) as [winner vt].
  assert (Hw : players (apply_bonus_penalty winner m) = players m)
    by (destruct winner as [[|]|]; reflexivity).
  unfold distribute. cbn [fst _log_event set_players players].
  rewrite lookup_fmap, Hw, Hp. cbn. eauto.
Qed.

Lemma end_match_on_point now m :
  players_on_point (fst (end_match now m)) = players_on_point m.
Proof.
  unfold end_match.
  destruct (determine_winner _ m) as [[[|]|] vt];
    destruct (distribute _) as [reg rewards]; reflexivity.
Qed.

Lemma update_keeps now dt m n :
  is_Some (players m !! n) -> is_Some (players (fst (update now dt m)) !! n).
Proof.
  intros Hn. unfold update.
  destruct (Qle_bool (match_duration m) (now - match_start m)).
  - pose proof (end_match_keeps now m n Hn). now destruct (end_match now m).
  - pose proof (tick_keeps now dt m n Hn). now destruct (tick now dt m).
Qed.

Lemma update_on_point now dt m :
  players_on_point (fst (update now dt m)) = players_on_point m.
Proof.
  unfold update.
  destruct (Qle_bool (match_duration m) (now - match_start m)).
  - pose proof (end_match_on_point now m). now destruct (end_match now m).
  - pose proof (tick_on_point now dt m). now destruct (tick now dt m).
Qed.

Lemma on_kill_on_point k v op m :
  players_on_point (fst (on_kill k v op m)) = players_on_point m.
Proof.
  unfold on_kill.
  destruct (players m !! k) as [ks|]; [|reflexivity].
  destruct (players m !! v) as [vs|]; [|reflexivity].
  destruct op;
    [destruct (key_of (ps_team vs)) as [t|]; [destruct (bool_decide _)|]|];
    destruct (is_team1 (ps_team ks)), (is_team1 (ps_team vs)); reflexivity.
Qed.

Lemma on_kill_keeps k v op m n :
  is_Some (players m !! n) -> is_Some (players (fst (on_kill k v op m)) !! n).
Proof.
  intros Hn. unfold on_kill.
  destruct (players m !! k) as [ks|]; [|exact Hn].
  destruct (players m !! v) as [vs|]; [|exact Hn].
  assert (Ha : forall (f : PlayerStats -> PlayerStats)
                      (reg : gmap string PlayerStats),
             is_Some (reg !! n) -> is_Some (alter f k reg !! n)).
  { intros f reg Hx. now apply lookup_alter_is_Some. }
  destruct op;
    [destruct (key_of (ps_team vs)) as [t|]; [destruct (bool_decide _)|]|];
    destruct (is_team1 (ps_team ks)), (is_team1 (ps_team vs));
    cbn [fst set_players set_team players];
    repeat apply Ha; exact Hn.
Qed.

(** X24: every name standing on the point is a registered player, in
    every state reached from a new mode: the loops over the point never
    look up a missing record. *)
Theorem point_holds_registered_players cs n1 n2 :
  on_point_registered (run cs (init n1 n2)).
Proof.
  assert (H : forall m, on_point_registered m ->
                        on_point_registered (run cs m)).
  { induction cs as [|c cs IH]; intros m Hm; [exact Hm|].
    cbn. apply IH. unfold on_point_registered in *.
    destruct c as [now|nm team|player|player|now dt|killer victim on_point|now];
      cbn [step].
    - exact Hm.
    - intros t x Hn. cbn [add_player players players_on_point] in *.
      rewrite lookup_insert. case_decide; [eauto | now apply (Hm t)].
    - unfold player_enter_point.
      destruct (players m !! player) as [q|] eqn:Eq; [|exact Hm].
      destruct (key_of (ps_team q)) as [t'|]; [|exact Hm].
      intros t x. cbn [fst set_on_point players players_on_point].
      destruct t, t'; cbn [pt_get pt_set at_team1 at_team2];
        try apply (Hm Team1); try apply (Hm Team2);
        rewrite elem_of_union, elem_of_singleton;
        (intros [Hn| ->]; [|rewrite Eq; eauto]);
        first [now apply (Hm Team1) | now apply (Hm Team2)].
    - unfold player_leave_point.
      destruct (players m !! player) as [q|] eqn:Eq; [|exact Hm].
      destruct (key_of (ps_team q)) as [t'|]; [|exact Hm].
      intros t x. cbn [fst set_on_point players players_on_point].
      destruct t, t'; cbn [pt_get pt_set at_team1 at_team2];
        try apply (Hm Team1); try apply (Hm Team2);
        rewrite elem_of_difference; intros [Hn _];
        first [now apply (Hm Team1) | now apply (Hm Team2)].
    - intros t x. rewrite update_on_point. intros Hn.
      apply update_keeps. now apply (Hm t).
    - intros t x. rewrite on_kill_on_point. intros Hn.
      apply on_kill_keeps. now apply (Hm t).
    - intros t x. rewrite end_match_on_point. intros Hn.
      apply end_match_keeps. now apply (Hm t). }
  apply H. intros t x. destruct t; cbn; intros Hn;
    now apply not_elem_of_empty in Hn.
Qed.

(** X25: a registered player who steps onto the point and off again
    leaves the mode exactly as it was; entering puts the player on the
    point of the player's own team, and leaving a point one is not on
    changes nothing. *)
Theorem enter_then_leave p q t m :
  players m !! p = Some q -> key_of (ps_team q) = Some t ->
  p ∉ pt_get t (players_on_point m) ->
  p ∈ pt_get t (players_on_point (fst (player_enter_point p m)))
  /\ pt_get (other_team t) (players_on_point (fst (player_enter_point p m)))
     = pt_get (other_team t) (players_on_point m)
  /\ player_leave_point p (fst (player_enter_point p m)) = (m, Returned true)
  /\ player_leave_point p m = (m, Returned true).
Proof.
  intros Hp Ht Hout. unfold player_enter_point, player_leave_point.
  rewrite Hp, Ht. cbn [fst set_on_point players players_on_point].
  rewrite Hp, Ht.
  destruct m as [t1 t2 cs ct cp [on1 on2] ms md ph ex reg ev pool bonus].
  cbn [players_on_point set_on_point] in *.
  destruct t; cbn [pt_get pt_set at_team1 at_team2 other_team] in *.
  - assert (E1 : (on1 ∪ {[p]}) ∖ {[p]} = on1) by set_solver.
    assert (E2 : on1 ∖ {[p]} = on1) by set_solver.
    rewrite E1, E2. repeat split. set_solver.
  - assert (E1 : (on2 ∪ {[p]}) ∖ {[p]} = on2) by set_solver.
    assert (E2 : on2 ∖ {[p]} = on2) by set_solver.
    rewrite E1, E2. repeat split. set_solver.
Qed.

Lemma enter_then_leave_witness :
  "Player1"%string
    ∈ pt_get Team2 (players_on_point (fst (player_enter_point "Player1" demo)))
  /\ pt_get (other_team Team2)
       (players_on_point (fst (player_enter_point "Player1" demo)))
     = pt_get (other_team Team2) (players_on_point demo)
  /\ player_leave_point "Player1" (fst (player_enter_point "Player1" demo))
     = (demo, Returned true)
  /\ player_leave_point "Player1" demo = (demo, Returned true).
Proof.
  apply (enter_then_leave "Player1"
           (MkPlayerStats "Player1" "team2" 0 0 0 0 0) Team2 demo).
  - vm_compute. reflexivity.
  - reflexivity.
  - apply not_elem_of_empty.
Defined.

End Attack51More.

(** * Properties of the weapon mechanics *)
Module WeaponsMore.
Import Weapons.

Local Open Scope Q_scope.

(** The record a handler finds for the player the previous handler
    stored. *)
Lemma get_player_store k st s :
  snd (get_player k (store k st s)) = st.
Proof.
  unfold get_player, store. cbn [players]. now rewrite lookup_insert_eq.
Qed.

Lemma get_player_store_ne k p st s :
  k <> p -> snd (get_player k (store p st s)) = snd (get_player k s).
Proof.
  intros Hne. unfold get_player, store. cbn [players].
  rewrite lookup_insert_ne by congruence.
  destruct (players s !! k); reflexivity.
Qed.

(** Creating a record on first use does not change what anybody's
    record reads. *)
Lemma get_player_twice k p s :
  snd (get_player k (fst (get_player p s))) = snd (get_player k s).
Proof.
  unfold get_player at 2. destruct (players s !! p) as [st|] eqn:E;
    cbn [fst]; [reflexivity|].
  unfold get_player. cbn [players].
  destruct (decide (k = p)) as [->|Hne].
  - now rewrite lookup_insert_eq, E.
  - rewrite lookup_insert_ne by congruence.
    destruct (players s !! k); reflexivity.
Qed.

Lemma get_player_pair p s :
  get_player p s = (fst (get_player p s), snd (get_player p s)).
Proof. now destruct (get_player p s). Qed.

(** The handlers, in terms of the record they read. *)
Lemma hashcannon_start_charge_state t p s :
  snd (get_player p (hashcannon_start_charge t p s))
  = set_charge true t (hashcannon_charge_lost_rtc (snd (get_player p s)))
      (snd (get_player p s)).
Proof.
  unfold hashcannon_start_charge. rewrite (get_player_pair p s).
  apply get_player_store.
Qed.

Lemma hashcannon_fire_idle t p s :
  hashcannon_charging (snd (get_player p s)) = false ->
  snd (hashcannon_fire t p s) = NotCharging.
Proof.
  intros H. unfold hashcannon_fire. rewrite (get_player_pair p s).
  now rewrite H.
Qed.

Lemma hashcannon_death_idle p s :
  hashcannon_charging (snd (get_player p s)) = false ->
  snd (hashcannon_death_while_charging p s) = None.
Proof.
  intros H. unfold hashcannon_death_while_charging.
  rewrite (get_player_pair p s). now rewrite H.
Qed.

(** Neither a shot nor a death leaves the weapon charging. *)
Lemma hashcannon_fire_state t p s :
  hashcannon_charging (snd (get_player p (fst (hashcannon_fire t p s))))
  = false.
Proof.
  unfold hashcannon_fire. rewrite (get_player_pair p s).
  destruct (hashcannon_charging (snd (get_player p s))) eqn:E; cbn [negb fst].
  - now rewrite get_player_store.
  - now rewrite get_player_twice.
Qed.

Lemma hashcannon_death_state p s :
  hashcannon_charging
    (snd (get_player p (fst (hashcannon_death_while_charging p s))))
  = false.
Proof.
  unfold hashcannon_death_while_charging. rewrite (get_player_pair p s).
  destruct (hashcannon_charging (snd (get_player p s))) eqn:E; cbn [fst].
  - now rewrite get_player_store.
  - now rewrite get_player_twice.
Qed.

Lemma hashcannon_fire_charging t p s :
  hashcannon_charging (snd (get_player p s)) = true ->
  snd (hashcannon_fire t p s)
  = let pct :=
      py_min 1 ((t - hashcannon_charge_start (snd (get_player p s))) / 3) in
    Fired pct
      (hashcannon_min_damage
       + (hashcannon_max_damage - hashcannon_min_damage) * pct)
      (Qle_bool (95 # 100) pct)
      (if Qle_bool (95 # 100) pct then "BLOCK FOUND" else "Hash computed")%string.
Proof.
  intros H. unfold hashcannon_fire. rewrite (get_player_pair p s).
  now rewrite H.
Qed.

Lemma hashcannon_death_charging p s :
  hashcannon_charging (snd (get_player p s)) = true ->
  snd (hashcannon_death_while_charging p s)
  = Some hashcannon_death_while_charging_penalty.
Proof.
  intros H. unfold hashcannon_death_while_charging.
  rewrite (get_player_pair p s). now rewrite H.
Qed.

(** The grenade search and the removal that follows it. *)
Lemma find_grenade_app gid gs g :
  g_id g = gid -> exists g', find_grenade gid (gs ++ [g]) = Some g'.
Proof.
  intros Hg. induction gs as [|h gs IH]; cbn.
  - rewrite bool_decide_eq_true_2 by exact Hg. eauto.
  - destruct (bool_decide (g_id h = gid)); eauto.
Qed.

Lemma find_grenade_removed gid gs :
  find_grenade gid
    (List.filter (fun g => negb (bool_decide (g_id g = gid))) gs) = None.
Proof.
  induction gs as [|h gs IH]; cbn; [reflexivity|].
  destruct (bool_decide (g_id h = gid)) eqn:E; cbn; [exact IH|].
  now rewrite E.
Qed.

Lemma mempool_throw_state t p gid pos s :
  snd (get_player p (mempool_throw t p gid pos s))
  = set_grenades
      (active_grenades (snd (get_player p s)) ++ [MkGrenade gid p pos t 80])
      (snd (get_player p s)).
Proof.
  unfold mempool_throw. rewrite (get_player_pair p s).
  apply get_player_store.
Qed.

(** [mempool_confirm], in terms of the owner's record. *)
Lemma mempool_confirm_missing t gid c o s :
  find_grenade gid (active_grenades (snd (get_player o s))) = None ->
  snd (mempool_confirm t gid c o s) = GrenadeNotFound.
Proof.
  intros H. unfold mempool_confirm. rewrite (get_player_pair o s).
  now rewrite H.
Qed.

Lemma mempool_confirm_found t gid c o s g :
  find_grenade gid (active_grenades (snd (get_player o s))) = Some g ->
  let age := t - g_thrown_at g in
  let full := py_min mempool_max_damage
                (mempool_base_damage + age * mempool_growth) in
  let r1 :=
    if bool_decide (c <> o)
    then MkConfirmation age (full * (1 # 2)) [mempool_enemy_confirms_message]
           (0 + mempool_enemy_confirms_rtc_bonus)
    else MkConfirmation age full [mempool_instant_confirm_message]
           (0 + mempool_instant_confirm_rtc_bonus) in
  snd (mempool_confirm t gid c o s)
  = Confirmed
      (if Qle_bool 3 age
       then MkConfirmation age (damage r1)
              (c_bonuses r1 ++ [mempool_max_mempool_message])
              (c_rtc_bonus r1 + mempool_max_mempool_rtc_bonus)
       else r1)
  /\ active_grenades (snd (get_player o (fst (mempool_confirm t gid c o s))))
     = List.filter (fun g => negb (bool_decide (g_id g = gid)))
         (active_grenades (snd (get_player o s))).
Proof.
  intros H. cbv zeta. unfold mempool_confirm. rewrite (get_player_pair o s).
  rewrite H. cbn [fst snd]. split; [reflexivity|].
  now rewrite get_player_store.
Qed.

(** [doublespend_kill], in terms of the killer's record. *)
Lemma doublespend_kill_spec t k s :
  let st := snd (get_player k s) in
  let hit :=
    doublespend_available st
    && Qle_bool (t - last_doublespend_kill st) double_spend_window in
  let st' := snd (get_player k (fst (doublespend_kill t k s))) in
  snd (doublespend_kill t k s)
  = (if hit
     then (MkBonuses ["DOUBLE SPEND ATTACK"%string]
             (0 + double_spend_rtc_bonus), false)
     else (MkBonuses [] 0, true))
  /\ doublespend_available st' = negb hit
  /\ last_doublespend_kill st'
     = if hit then last_doublespend_kill st else t.
Proof.
  cbv zeta. unfold doublespend_kill. rewrite (get_player_pair k s).
  destruct (_ && _); cbn [fst snd]; rewrite get_player_store;
    repeat split.
Qed.

(** Two different names among the targets, as the size of the set. *)
Lemma two_targets (l : list string) :
  (2 <= size (list_to_set l : gset string))%nat
  <-> exists a b, In a l /\ In b l /\ a <> b.
Proof.
  set (X := list_to_set l : gset string).
  assert (Hin : forall a, a ∈ X <-> In a l).
  { intros a. unfold X. rewrite elem_of_list_to_set. apply list_elem_of_In. }
  split.
  - intros Hs.
    destruct (size_pos_elem_of X ltac:(lia)) as [a Ha].
    assert (Hd : size (X ∖ {[a]}) = (size X - 1)%nat).
    { rewrite size_difference by set_solver. now rewrite size_singleton. }
    destruct (size_pos_elem_of (X ∖ {[a]}) ltac:(lia)) as [b Hb].
    exists a, b. rewrite <- !Hin. set_solver.
  - intros (a & b & Ha & Hb & Hne).
    apply Hin in Ha. apply Hin in Hb.
    assert (Hsub : ({[a]} ∪ {[b]} : gset string) ⊆ X) by set_solver.
    apply subseteq_size in Hsub.
    rewrite size_union in Hsub by set_solver.
    rewrite !size_singleton in Hsub. lia.
Qed.

(** X26: a Forker shot pays at most one of its two bonuses, never more
    than 0.001: the hard fork exactly when two different targets were
    hit, the clean merge exactly when the one target hit took twelve
    pellets or more. *)
Theorem forker_pays_one_bonus shooter pellets targets s :
  let r := snd (forker_shot shooter pellets targets s) in
  (bonuses r = [] \/ bonuses r = ["CLEAN MERGE"%string]
   \/ bonuses r = ["HARD FORK"%string])
  /\ 0 <= rtc_bonus r /\ rtc_bonus r <= 1 # 1000
  /\ (In "HARD FORK"%string (bonuses r)
      <-> exists a b, In a targets /\ In b targets /\ a <> b)
  /\ (In "CLEAN MERGE"%string (bonuses r)
      <-> exists a, targets = [a] /\ (12 <= pellets)%Z).
Proof.
  cbv zeta. unfold forker_shot. rewrite (get_player_pair shooter s).
  cbn [snd]. unfold forker_hard_fork_min_targets,
    forker_clean_merge_threshold, forker_clean_merge_message,
    forker_hard_fork_message, forker_clean_merge_rtc_bonus,
    forker_hard_fork_rtc_bonus.
  pose proof (two_targets targets) as Ht.
  assert (Hone : Nat.eqb (length targets) 1 = true
                 <-> exists a, targets = [a]).
  { rewrite Nat.eqb_eq. split.
    - intros Hl. destruct targets as [|a [|b l]]; try discriminate. eauto.
    - intros [a ->]. reflexivity. }
  assert (Hex : (exists a, targets = [a]) ->
                ~ exists a b, In a targets /\ In b targets /\ a <> b).
  { intros [a ->] (x & y & [<-|[]] & [<-|[]] & Hne). now apply Hne. }
  destruct (Nat.leb_spec 2 (size (list_to_set targets : gset string)))
    as [H2|H2].
  - apply Ht in H2.
    destruct (Nat.eqb (length targets) 1) eqn:Hl;
      [exfalso; apply Hex; [now apply Hone | exact H2]|].
    cbn. split; [tauto|]. split; [lra|]. split; [lra|]. split.
    + split; [intros _; exact H2 | intros _; now left].
    + split; [intros [[=]|[]]|].
      intros (a & Ha & _).
      assert (false = true) by (apply Hone; eauto). discriminate.
  - assert (Hn : ~ exists a b, In a targets /\ In b targets /\ a <> b).
    { intros H. apply Ht in H. lia. }
    destruct (Nat.eqb (length targets) 1) eqn:Hl;
      [destruct (Z.leb_spec 12 pellets) as [Hp|Hp]|]; cbn.
    + split; [tauto|]. split; [lra|]. split; [lra|]. split.
      * split; [intros [[=]|[]] | intros H; now apply Hn in H].
      * split; [intros _|intros _; now left].
        destruct (proj1 Hone eq_refl) as [a Ha]. eauto.
    + split; [tauto|]. split; [lra|]. split; [lra|]. split.
      * split; [intros [] | intros H; now apply Hn in H].
      * split; [intros [] | intros (a & _ & Hp'); lia].
    + split; [tauto|]. split; [lra|]. split; [lra|]. split.
      * split; [intros [] | intros H; now apply Hn in H].
      * split; [intros []|]. intros (a & Ha & _).
        assert (false = true) by (apply Hone; eauto). discriminate.
Qed.

(** X27: a Hashcannon charge is spent once.  A shot fired after the
    charge was started does between 40 and 200 damage, the full 200 and
    a golden hash from three seconds of charge on; after the shot, or
    after a death that costs the 0.01 penalty, firing again reports "Not
    charging" and dying again costs nothing. *)
Theorem hashcannon_charge_spent_once t0 t1 p s :
  t0 <= t1 ->
  let s1 := hashcannon_start_charge t0 p s in
  let shot := hashcannon_fire t1 p s1 in
  let death := hashcannon_death_while_charging p s1 in
  (exists pct dmg golden msg,
     snd shot = Fired pct dmg golden msg
     /\ hashcannon_min_damage <= dmg /\ dmg <= hashcannon_max_damage
     /\ (3 <= t1 - t0 -> dmg == hashcannon_max_damage /\ golden = true))
  /\ (forall t2, snd (hashcannon_fire t2 p (fst shot)) = NotCharging)
  /\ snd (hashcannon_death_while_charging p (fst shot)) = None
  /\ snd death = Some (1 # 100)
  /\ (forall t2, snd (hashcannon_fire t2 p (fst death)) = NotCharging)
  /\ snd (hashcannon_death_while_charging p (fst death)) = None.
Proof.
  intros Ht. cbv zeta.
  pose proof (hashcannon_start_charge_state t0 p s) as Hs.
  set (s1 := hashcannon_start_charge t0 p s) in *.
  assert (Hc : hashcannon_charging (snd (get_player p s1)) = true)
    by now rewrite Hs.
  assert (Hst : hashcannon_charge_start (snd (get_player p s1)) = t0)
    by now rewrite Hs.
  split; [|repeat split].
  - rewrite (hashcannon_fire_charging t1 p s1 Hc), Hst. cbv zeta.
    do 4 eexists. split; [reflexivity|].
    unfold hashcannon_min_damage, hashcannon_max_damage.
    assert (Hd : 0 <= (t1 - t0) / 3).
    { apply Qle_shift_div_l; lra. }
    destruct (py_min_spec 1 ((t1 - t0) / 3)) as [[Hlt ->]|[Hge ->]].
    + split; [nra|]. split; [nra|]. intros H3.
      assert (1 <= (t1 - t0) / 3) by (apply Qle_shift_div_l; lra). lra.
    + split; [lra|]. split; [lra|]. intros _. split; [lra|reflexivity].
  - intros t2. apply hashcannon_fire_idle, hashcannon_fire_state.
  - apply hashcannon_death_idle, hashcannon_fire_state.
  - now apply hashcannon_death_charging.
  - intros t2. apply hashcannon_fire_idle, hashcannon_death_state.
  - apply hashcannon_death_idle, hashcannon_death_state.
Qed.

Lemma hashcannon_charge_spent_once_witness :
  (exists pct dmg golden msg,
     snd (hashcannon_fire 13 "a" (hashcannon_start_charge 10 "a" init))
     = Fired pct dmg golden msg
     /\ hashcannon_min_damage <= dmg /\ dmg <= hashcannon_max_damage
     /\ (3 <= 13 - 10 -> dmg == hashcannon_max_damage /\ golden = true))
  /\ snd (hashcannon_death_while_charging "a"
            (hashcannon_start_charge 10 "a" init)) = Some (1 # 100).
Proof.
  destruct (hashcannon_charge_spent_once 10 13 "a" init) as (H1 & _ & _ & H4 & _).
  - discriminate.
  - split; [exact H1 | exact H4].
Defined.

(** X28: a grenade that was thrown can be confirmed, once.  The first
    confirmation finds a grenade of that id and pays between 0.001 and
    0.005; when the time in the mempool it reports is not negative, the
    damage is 80 to 150 if the owner confirms and 40 to 75 if somebody
    else does.  It removes every grenade of that id and no other, so a
    second confirmation reports "Grenade not found". *)
Theorem thrown_grenade_confirms_once t0 t1 gid pos owner confirmer s :
  let s1 := mempool_throw t0 owner gid pos s in
  let out := mempool_confirm t1 gid confirmer owner s1 in
  (exists c,
     snd out = Confirmed c
     /\ 1 # 1000 <= c_rtc_bonus c /\ c_rtc_bonus c <= 5 # 1000
     /\ (0 <= time_in_mempool c ->
         if decide (confirmer = owner)
         then 80 <= damage c /\ damage c <= 150
         else 40 <= damage c /\ damage c <= 75))
  /\ (forall t2 c2,
        snd (mempool_confirm t2 gid c2 owner (fst out)) = GrenadeNotFound)
  /\ (forall g,
        In g (active_grenades (snd (get_player owner (fst out))))
        <-> In g (active_grenades (snd (get_player owner s)))
            /\ g_id g <> gid).
Proof.
  cbv zeta.
  pose proof (mempool_throw_state t0 owner gid pos s) as Hs.
  set (s1 := mempool_throw t0 owner gid pos s) in *.
  set (old := active_grenades (snd (get_player owner s))) in *.
  destruct (find_grenade_app gid old (MkGrenade gid owner pos t0 80) eq_refl)
    as [g' Hg'].
  assert (Hf : find_grenade gid (active_grenades (snd (get_player owner s1)))
               = Some g') by (rewrite Hs; exact Hg').
  destruct (mempool_confirm_found t1 gid confirmer owner s1 g' Hf)
    as [Hr Hrest].
  cbv zeta in Hr. rewrite Hs in Hrest. cbn [active_grenades set_grenades] in Hrest.
  split; [|split].
  - rewrite Hr. eexists. split; [reflexivity|].
    unfold mempool_enemy_confirms_rtc_bonus, mempool_instant_confirm_rtc_bonus,
      mempool_max_mempool_rtc_bonus, mempool_max_damage, mempool_base_damage,
      mempool_growth.
    set (t := t1 - g_thrown_at g').
    destruct (py_min_spec 150 (80 + t * 20)) as [[Hlt Hm]|[Hge Hm]];
      rewrite Hm; clear Hm;
      destruct (decide (confirmer = owner)) as [He|He];
      [ rewrite (bool_decide_eq_false_2 (confirmer <> owner)) by tauto
      | rewrite (bool_decide_eq_true_2 (confirmer <> owner)) by exact He
      | rewrite (bool_decide_eq_false_2 (confirmer <> owner)) by tauto
      | rewrite (bool_decide_eq_true_2 (confirmer <> owner)) by exact He ];
      destruct (Qle_bool 3 t) eqn:E3;
      cbn [c_rtc_bonus damage time_in_mempool];
      repeat split; try lra; intros; lra.
  - intros t2 c2. apply mempool_confirm_missing. rewrite Hrest.
    apply find_grenade_removed.
  - intros g. rewrite Hrest.
    rewrite filter_In, in_app_iff. cbn [In].
    rewrite negb_true_iff, bool_decide_eq_false. split.
    + intros [[H|[<-|[]]] Hne]; [tauto|]. now cbn in Hne.
    + tauto.
Qed.

(** X29: the double-spend bonus is never paid on two kills in a row.
    After a kill that paid it the next kill pays nothing; after a kill
    that did not, the next kill pays it exactly when it comes within the
    two-second window.  Shots fired in between change nothing, and every
    shot inside the window is free, however many are fired. *)
Theorem double_spend_never_twice t1 t2 k s :
  let o1 := doublespend_kill t1 k s in
  let o2 := doublespend_kill t2 k (fst o1) in
  (bonuses (fst (snd o1)) <> [] ->
   bonuses (fst (snd o2)) = [] /\ rtc_bonus (fst (snd o2)) == 0)
  /\ (bonuses (fst (snd o1)) = [] ->
      (bonuses (fst (snd o2)) = ["DOUBLE SPEND ATTACK"%string]
       <-> t2 - t1 <= 2)
      /\ forall t, snd (doublespend_fire t k (fst o1)) = true <-> t - t1 <= 2)
  /\ (forall t p,
        snd (doublespend_kill t2 k (fst (doublespend_fire t p (fst o1))))
        = snd o2).
Proof.
  cbv zeta.
  assert (Hfire : forall t p s',
             snd (doublespend_kill t2 k (fst (doublespend_fire t p s')))
             = snd (doublespend_kill t2 k s')).
  { intros t p s'. unfold doublespend_fire.
    rewrite (get_player_pair p s'). cbn [fst].
    unfold doublespend_kill.
    rewrite (get_player_pair k (fst (get_player p s'))),
      (get_player_pair k s'), get_player_twice.
    destruct (_ && _); reflexivity. }
  split; [|split]; [| |intros t p; apply Hfire].
  - destruct (doublespend_kill_spec t1 k s) as (R1 & A1 & _).
    destruct (doublespend_kill_spec t2 k (fst (doublespend_kill t1 k s)))
      as (R2 & _).
    cbv zeta in *. rewrite R1, R2, A1.
    destruct (_ && _); cbn [fst snd bonuses rtc_bonus negb andb];
      [intros _; split; [reflexivity|lra] | intros H; now destruct H].
  - destruct (doublespend_kill_spec t1 k s) as (R1 & A1 & L1).
    destruct (doublespend_kill_spec t2 k (fst (doublespend_kill t1 k s)))
      as (R2 & _).
    cbv zeta in *. unfold doublespend_fire.
    rewrite (get_player_pair k (fst (doublespend_kill t1 k s))).
    cbn [snd]. rewrite R1, R2, A1, L1.
    destruct (_ && _); cbn [fst snd bonuses negb andb];
      [discriminate|intros _].
    unfold double_spend_window. split.
    + destruct (Qle_bool (t2 - t1) 2) eqn:E2; cbn [fst snd bonuses].
      * apply Qle_bool_iff in E2. tauto.
      * split; [discriminate|]. intros H. apply Qle_bool_iff in H. congruence.
    + intros t. apply Qle_bool_iff.
Qed.

Lemma double_spend_never_twice_witness :
  bonuses (fst (snd (doublespend_kill 11 "a"
                       (fst (doublespend_kill 10 "a" init)))))
  = ["DOUBLE SPEND ATTACK"%string]
  <-> 11 - 10 <= 2.
Proof.
  destruct (double_spend_never_twice 10 11 "a" init) as (_ & H & _).
  destruct (H eq_refl) as [H1 _]. exact H1.
Defined.

End WeaponsMore.

(** * Properties of the rank ladder *)
Module ProgressionMore.
Import Progression.

Local Open Scope Q_scope.

(** X30: [get_rank] returns the highest rank of the ladder whose
    threshold the balance has reached, and the bottom rank for a balance
    below every threshold; the rank the profile shows as next is the one
    right above it, and there is none exactly from 10000 on. *)
Theorem rank_ladder rtc :
  In (get_rank rtc) RANKS
  /\ (forall r, In r RANKS -> rk_rtc r <= rtc ->
                rk_rtc r <= rk_rtc (get_rank rtc))
  /\ (0 <= rtc -> rk_rtc (get_rank rtc) <= rtc)
  /\ (rtc < 1 # 100 -> rk_name (get_rank rtc) = "Unranked"%string)
  /\ match next_rank rtc with
     | Some nx =>
         In nx RANKS /\ rtc < rk_rtc nx
         /\ forall r, In r RANKS -> rk_rtc r < rk_rtc nx ->
                      rk_rtc r <= rk_rtc (get_rank rtc)
     | None => 10000 <= rtc /\ rk_name (get_rank rtc) = "Genesis Elite"%string
     end.
Proof.
  unfold get_rank, next_rank, scan_ranks, RANKS, Qltb.
  cbn [fold_left List.hd List.find rk_rtc].
  repeat match goal with
         | |- context [Qle_bool ?a ?b] =>
             let E := fresh "E" in
             destruct (Qle_bool a b) eqn:E;
             [apply Qle_bool_iff in E | apply Qle_bool_false in E]
         end;
    try (exfalso; lra);
    cbn [negb In rk_rtc rk_name];
    repeat split; try lra; try tauto; try reflexivity;
    try (intros r Hr; repeat destruct Hr as [<-|Hr]; try contradiction;
         cbn [rk_rtc]; lra).
Qed.

End ProgressionMore.
